(** * Prism plugin runtime: capability enforcement, dependency-ordered
      loading and chain execution.

    A shallow embedding of
      - [app/core/permission_engine.py]  (module [Engine]),
      - [app/plugins/interface.py]       (modules [Ledger] and [Ctx]),
      - [app/core/audit_sandbox.py]      (module [Audit]),
      - [app/plugins/loader.py]          (modules [Resolver] and [Loader]),
      - [app/core/chain_runner.py]       (module [Chain]),
    followed by the properties of the runtime stated over it.

    Conventions.  A Python function that may raise returns an [option] or a
    small result type whose constructors name the exceptions; an object that
    is mutated in place is passed in and handed back.  Dicts whose order the
    code depends on are association lists, the others are [gmap]s; sets are
    [gset]s or, where the code iterates over them, the list of that
    iteration.  What lies outside the runtime proper (the file system, the
    install registry, the settings, the code of the plugins, the
    [packaging] library) is a record of observations, [Loader.World]; the
    handler of a plugin is a tree of the context updates, continuation
    calls and exceptions it performs, [Chain.action].  A [str] is the
    sequence of its characters, each given by its code point, and the
    model covers text whose code points lie below 256; on that text
    [lower] and [strip] are as Python has them.  A [bytes] object is the
    sequence of its bytes. *)

From Stdlib Require Import ZArith Ascii String List Bool Lia DecimalString.
From stdpp Require Import base gmap sets list strings.

Set Warnings "-register-all,-clear-no-such-hyp".

Local Open Scope Z_scope.
Local Open Scope nat_scope.

(** ** Python strings *)

Module Str.

(** [s.startswith(p)]. *)
Definition startswith (s p : string) : bool := String.prefix p s.

(** [sub in s] for strings. *)
Definition contains (sub s : string) : bool :=
  match String.index 0 sub s with
  | Some _ => true
  | None => false
  end.

(** [c in s] for a one-character needle. *)
Fixpoint has_char (c : ascii) (s : string) : bool :=
  match s with
  | EmptyString => false
  | String d s' => if Ascii.eqb c d then true else has_char c s'
  end.

(** [s.split(sep, 1)] for a one-character separator: [None] when the
    separator does not occur (Python then returns the one-element list). *)
Fixpoint split_once (sep : ascii) (s : string) : option (string * string) :=
  match s with
  | EmptyString => None
  | String d s' =>
      if Ascii.eqb sep d then Some (EmptyString, s')
      else match split_once sep s' with
           | Some (a, b) => Some (String d a, b)
           | None => None
           end
  end.

(** [s.split(sep)] for a one-character separator. *)
Fixpoint split (sep : ascii) (s : string) : list string :=
  match s with
  | EmptyString => [EmptyString]
  | String d s' =>
      if Ascii.eqb sep d then EmptyString :: split sep s'
      else match split sep s' with
           | w :: ws => String d w :: ws
           | [] => [String d EmptyString]
           end
  end.

(** [s.lstrip(c)] for a one-character set. *)
Fixpoint lstrip (c : ascii) (s : string) : string :=
  match s with
  | EmptyString => EmptyString
  | String d s' => if Ascii.eqb c d then lstrip c s' else s
  end.

(** [c.lower()] for a character below 256: the letters [A] to [Z] and
    the capital letters of Latin-1 (U+00C0 to U+00DE but the
    multiplication sign) move up by 32, every other character stays. *)
Definition lower_char (c : ascii) : ascii :=
  let n := nat_of_ascii c in
  if ((65 <=? n) && (n <=? 90))
     || ((192 <=? n) && (n <=? 222) && negb (n =? 215))
  then ascii_of_nat (n + 32) else c.

Fixpoint lower (s : string) : string :=
  match s with
  | EmptyString => EmptyString
  | String d s' => String (lower_char d) (lower s')
  end.

(** [s.isascii()]: every character of [s] is below 128. *)
Fixpoint is_ascii (s : string) : bool :=
  match s with
  | EmptyString => true
  | String d s' => (nat_of_ascii d <? 128) && is_ascii s'
  end.

(** [s.replace(a, b)] for one-character [a] and [b]. *)
Fixpoint replace (a b : ascii) (s : string) : string :=
  match s with
  | EmptyString => EmptyString
  | String d s' => String (if Ascii.eqb a d then b else d) (replace a b s')
  end.

(** [s.endswith(c)] for a one-character suffix. *)
Fixpoint ends_with_char (c : ascii) (s : string) : bool :=
  match s with
  | EmptyString => false
  | String d EmptyString => Ascii.eqb c d
  | String _ s' => ends_with_char c s'
  end.

(** [str(n)] for an integer. *)
Definition of_Z (z : Z) : string := NilZero.string_of_int (Z.to_int z).

(** Glob matching as [fnmatch.fnmatch(name, pat)] performs it on POSIX,
    for patterns built from literal characters, [*] and [?].  Bracket
    classes are not part of the model: [literal] below singles out the
    patterns without any metacharacter, on which matching is equality. *)
Fixpoint glob (pat name : string) : bool :=
  match pat with
  | EmptyString =>
      match name with EmptyString => true | _ => false end
  | String p pat' =>
      if Ascii.eqb p "*"%char then
        (fix star (n : string) : bool :=
           glob pat' n ||
           match n with
           | EmptyString => false
           | String _ n' => star n'
           end) name
      else
        match name with
        | EmptyString => false
        | String c name' =>
            (Ascii.eqb p "?"%char || Ascii.eqb p c) && glob pat' name'
        end
  end.

Definition fnmatch (name pat : string) : bool := glob pat name.

Definition literal (pat : string) : bool :=
  negb (has_char "*"%char pat || has_char "?"%char pat
        || has_char "["%char pat).

End Str.

(** ** POSIX paths ([posixpath]) *)

Module Path.

Definition sep : string := "/".

Definition isabs (p : string) : bool := Str.startswith p "/".

(** [posixpath.join(a, b)]. *)
Definition join (a b : string) : string :=
  if Str.startswith b "/" then b
  else if String.eqb a "" || Str.ends_with_char "/"%char a then a +:+ b
  else a +:+ "/" +:+ b.

(** The component loop of [posixpath.normpath]; [acc] is [new_comps]
    in reverse. *)
Fixpoint norm_comps (initial_slashes : nat) (comps acc : list string)
  : list string :=
  match comps with
  | [] => rev acc
  | comp :: rest =>
      if String.eqb comp "" || String.eqb comp "." then
        norm_comps initial_slashes rest acc
      else if negb (String.eqb comp "..")
              || ((initial_slashes =? 0) && match acc with [] => true | _ => false end)
              || match acc with last :: _ => String.eqb last ".." | [] => false end
      then norm_comps initial_slashes rest (comp :: acc)
      else norm_comps initial_slashes rest (tail acc)
  end.

Definition normpath (path : string) : string :=
  if String.eqb path "" then "."
  else
    let initial_slashes :=
      if Str.startswith path "/" then
        if Str.startswith path "//" && negb (Str.startswith path "///")
        then 2 else 1
      else 0 in
    let comps := norm_comps initial_slashes (Str.split "/"%char path) [] in
    let body := String.concat "/" comps in
    let res :=
      match initial_slashes with
      | 0 => body
      | 1 => "/" +:+ body
      | _ => "//" +:+ body
      end in
    if String.eqb res "" then "." else res.

(** [os.path.abspath(path)]; [cwd] is what [os.getcwd()] returns, [None]
    when it raises [FileNotFoundError] (the working directory is gone). *)
Definition abspath (cwd : option string) (path : string) : option string :=
  if isabs path then Some (normpath path)
  else match cwd with
       | Some c => Some (normpath (join c path))
       | None => None
       end.

(** [p.startswith(dir + os.sep) or p == dir]. *)
Definition within (p dir : string) : bool :=
  Str.startswith p (dir +:+ sep) || String.eqb p dir.

End Path.

(** ** Python values seen by the audit hook *)

(** The arguments of an audit event: [None], a [str], a [bytes], an
    [int], a tuple or list, or an object the model does not look into (a
    socket). *)
Inductive pyval : Type :=
| PNone
| PStr (s : string)
| PBytes (b : string)
| PInt (z : Z)
| PSeq (items : list pyval)
| PObj.

(** [repr] of a [bytes] object, which is also its [str]: the bytes
    between quotes after a [b], single quotes unless the bytes hold a
    single quote and no double quote; the quote in use and the backslash
    are escaped, tab, newline and carriage return are written [\t], [\n]
    and [\r], and every other byte outside the printable ASCII range as
    [\x] and two hexadecimal digits. *)
Definition double_quote : ascii := ascii_of_nat 34.

Definition hex_digit (n : nat) : ascii :=
  ascii_of_nat (if n <? 10 then 48 + n else 87 + n).

Definition bytes_escape (quote c : ascii) : string :=
  let n := nat_of_ascii c in
  if Ascii.eqb c quote || (n =? 92) then String "\" (String c EmptyString)
  else if n =? 9 then "\t"
  else if n =? 10 then "\n"
  else if n =? 13 then "\r"
  else if (n <? 32) || (127 <=? n) then
    String "\" (String "x" (String (hex_digit (n / 16))
                                  (String (hex_digit (n mod 16)) EmptyString)))
  else String c EmptyString.

Fixpoint bytes_body (quote : ascii) (b : string) : string :=
  match b with
  | EmptyString => EmptyString
  | String c b' => bytes_escape quote c +:+ bytes_body quote b'
  end.

Definition bytes_repr (b : string) : string :=
  let quote :=
    if Str.has_char "'"%char b && negb (Str.has_char double_quote b)
    then double_quote else "'"%char in
  String "b" (String quote (bytes_body quote b +:+ String quote EmptyString)).

(** [str(v)].  The text of sequences and opaque objects is not reproduced;
    the paths of audit events are strings or integers. *)
Definition py_str (v : pyval) : string :=
  match v with
  | PNone => "None"
  | PStr s => s
  | PBytes b => bytes_repr b
  | PInt z => Str.of_Z z
  | PSeq _ => "<sequence>"
  | PObj => "<object>"
  end.

(** [needle in v] for a string needle: substring test on a [str], element
    test on a sequence, [TypeError] ([None]) on anything else. *)
Definition py_in (needle : string) (v : pyval) : option bool :=
  match v with
  | PStr s => Some (Str.contains needle s)
  | PSeq items =>
      Some (existsb (fun x => match x with
                              | PStr t => String.eqb needle t
                              | _ => false
                              end) items)
  | _ => None
  end.

(** [any(c in v for c in needles)], evaluated lazily from the left. *)
Fixpoint py_any_in (needles : list string) (v : pyval) : option bool :=
  match needles with
  | [] => Some false
  | c :: rest =>
      match py_in c v with
      | None => None
      | Some true => Some true
      | Some false => py_any_in rest v
      end
  end.

(** ** The permission engine ([permission_engine.py]) *)

Module Engine.

Record PermissionDefinition : Type := {
  name : string;
  description : string;
  match_type : string;
  event_names : list string;
  match_resource_pattern : option string;
  (** [None] stands for a raised [TypeError]. *)
  resource_matcher : pyval -> option bool
}.

(** [_permissions] and [_event_map], both insertion-ordered dicts. *)
Record PermissionEngine : Type := {
  _permissions : list (string * PermissionDefinition);
  _event_map : list (string * list PermissionDefinition)
}.

Definition empty : PermissionEngine :=
  {| _permissions := []; _event_map := [] |}.

Fixpoint dict_get {A : Type} (k : string) (d : list (string * A)) : option A :=
  match d with
  | [] => None
  | (k', v) :: d' => if String.eqb k k' then Some v else dict_get k d'
  end.

(** [d[k].append(x)], creating the list first when the key is new. *)
Fixpoint dict_append {A : Type} (k : string) (x : A)
    (d : list (string * list A)) : list (string * list A) :=
  match d with
  | [] => [(k, [x])]
  | (k', v) :: d' =>
      if String.eqb k k' then (k', v ++ [x]) :: d'
      else (k', v) :: dict_append k x d'
  end.

(** [register]: [None] is the [ValueError] for a name registered twice. *)
Definition register (e : PermissionEngine) (perm_def : PermissionDefinition)
  : option PermissionEngine :=
  match dict_get (name perm_def) (_permissions e) with
  | Some _ => None
  | None =>
      Some {| _permissions := _permissions e ++ [(name perm_def, perm_def)];
              _event_map :=
                fold_left (fun m ev => dict_append ev perm_def m)
                          (event_names perm_def) (_event_map e) |}
  end.

Definition get_permission_definition (e : PermissionEngine) (n : string)
  : option PermissionDefinition :=
  dict_get n (_permissions e).

(** The argument handed to the matcher, by event. *)
Definition resource_to_match (event : string) (args : list pyval) : pyval :=
  if String.eqb event "open" && (1 <? length args) then nth 1 args PNone
  else if String.eqb event "socket.connect" && (1 <? length args) then nth 1 args PNone
  else match args with
       | a :: _ => a
       | [] => PNone
       end.

Definition resource_to_return (args : list pyval) : pyval :=
  match args with
  | a :: _ => a
  | [] => PNone
  end.

(** The definitions registered for [event], or, when there are none, those
    of every key of which [event] is an extension ([os.system],
    [subprocess.*]). *)
Definition potential_perms (e : PermissionEngine) (event : string)
  : list PermissionDefinition :=
  match dict_get event (_event_map e) with
  | Some (p :: ps) => p :: ps
  | _ =>
      flat_map (fun kv => if Str.startswith event (fst kv) then snd kv else [])
               (_event_map e)
  end.

Fixpoint match_loop (perms : list PermissionDefinition) (to_match ret : pyval)
  : option (list (PermissionDefinition * pyval)) :=
  match perms with
  | [] => Some []
  | perm :: rest =>
      match resource_matcher perm to_match with
      | None => None
      | Some b =>
          match match_loop rest to_match ret with
          | None => None
          | Some matched => Some (if b then (perm, ret) :: matched else matched)
          end
      end
  end.

(** [map_event_to_permissions]; [None] when a matcher raises. *)
Definition map_event_to_permissions (e : PermissionEngine) (event : string)
    (args : list pyval) : option (list (PermissionDefinition * pyval)) :=
  match_loop (potential_perms e event)
             (resource_to_match event args) (resource_to_return args).

Fixpoint find_definition_loop (perms : list (string * PermissionDefinition))
    (decl_type : string) (decl_resource : option string)
  : option PermissionDefinition :=
  match perms with
  | [] => None
  | (_, perm) :: rest =>
      if String.eqb (match_type perm) decl_type then
        match match_resource_pattern perm with
        | Some pat =>
            if String.eqb pat "" then
              find_definition_loop rest decl_type decl_resource
            else
              match decl_resource with
              | Some r =>
                  if negb (String.eqb r "") && Str.fnmatch r pat then Some perm
                  else find_definition_loop rest decl_type decl_resource
              | None => find_definition_loop rest decl_type decl_resource
              end
        | None => Some perm
        end
      else find_definition_loop rest decl_type decl_resource
  end.

Definition find_definition_for_declaration (e : PermissionEngine)
    (decl_type : string) (decl_resource : option string)
  : option PermissionDefinition :=
  find_definition_loop (_permissions e) decl_type decl_resource.

(** *** The built-in definitions *)

Definition is_port (port : Z) (addr : pyval) : option bool :=
  match addr with
  | PSeq (_ :: PInt p :: _) => Some (Z.eqb p port)
  | _ => Some false
  end.

Definition file_read_plugin : PermissionDefinition :=
  {| name := "file.read.plugin"; description := "";
     match_type := "file"; event_names := ["open"];
     match_resource_pattern := Some "read";
     resource_matcher := py_in "r" |}.

Definition file_write_plugin : PermissionDefinition :=
  {| name := "file.write.plugin"; description := "";
     match_type := "file"; event_names := ["open"];
     match_resource_pattern := Some "write";
     resource_matcher := py_any_in ["w"; "a"; "+"] |}.

Definition network_https : PermissionDefinition :=
  {| name := "network.https"; description := "";
     match_type := "network"; event_names := ["socket.connect"];
     match_resource_pattern := Some "outbound:https";
     resource_matcher := is_port 443 |}.

Definition network_http : PermissionDefinition :=
  {| name := "network.http"; description := "";
     match_type := "network"; event_names := ["socket.connect"];
     match_resource_pattern := Some "outbound:http";
     resource_matcher := is_port 80 |}.

Definition api_create_route : PermissionDefinition :=
  {| name := "api.create_route"; description := "";
     match_type := "api"; event_names := [];
     match_resource_pattern := Some "create_route";
     resource_matcher := fun _ => Some true |}.

Definition system_subprocess : PermissionDefinition :=
  {| name := "system.subprocess"; description := "";
     match_type := "system"; event_names := ["os.system"; "subprocess."];
     match_resource_pattern := Some "subprocess";
     resource_matcher := fun _ => Some true |}.

Definition default_definitions : list PermissionDefinition :=
  [file_read_plugin; file_write_plugin; network_https; network_http;
   api_create_route; system_subprocess].

(** [_register_default_permissions] on a fresh engine. *)
Definition _register_default_permissions : option PermissionEngine :=
  fold_left (fun acc d => match acc with
                          | Some e => register e d
                          | None => None
                          end)
            default_definitions (Some empty).

(** [get_permission_engine()]. *)
Definition default_engine : PermissionEngine :=
  match _register_default_permissions with
  | Some e => e
  | None => empty
  end.

End Engine.

(** ** Denials *)

(** What [_enforce_directory_jail] raises. *)
Inductive jail_error : Type :=
| JNotRegistered (plugin : string)
    (* "Plugin '{plugin}' root path not registered" *)
| JOutside (plugin path : string)
    (* "Plugin '{plugin}' attempted to access path outside its allowed
       directories: {path}" *)
| JUnresolved (path : string).
    (* "Could not resolve path for resource '{path}': {e}" *)

(** The message of a denial, as logged for the plugin and carried by the
    [PermissionError]. *)
Inductive violation : Type :=
| VSecureDir (plugin path : string)
    (* "... attempted to access system secure directory: {path}. Access denied!" *)
| VOwnLockFile (plugin path : string)
    (* "... attempted to access its own lock file: {path}" *)
| VSuspicious (plugin path : string)
    (* "... attempted suspicious file access (string check): {path}" *)
| VLockModification (plugin event path : string)
    (* "... attempted to modify a lock file via {event}: {path}" *)
| VJail (e : jail_error)
| VUnauthorized (plugin event : string) (checked_perms : list string)
    (resource : pyval).
    (* "... blocked from performing unauthorized action. Event: {event},
       Required one of Permissions: {checked_perms}, Resource: {args[0]}" *)

(** ** The capability ledger ([SandboxPermissionManager], interface.py) *)

Module Ledger.

Record SandboxPermission : Type := {
  type : string;
  resource : option string;
  description : string
}.

Record SandboxPermissionManager : Type := {
  granted_permissions : gmap string (gset string);
  permission_violations : gmap string (list violation)
}.

Definition init : SandboxPermissionManager :=
  {| granted_permissions := ∅; permission_violations := ∅ |}.

(** [grant_permissions]: every declaration the engine can map adds the
    mapped definition's name; the others are dropped. *)
Definition grant_permissions (e : Engine.PermissionEngine)
    (m : SandboxPermissionManager) (plugin_name : string)
    (permissions : list SandboxPermission) : SandboxPermissionManager :=
  let old := default ∅ (granted_permissions m !! plugin_name) in
  let new :=
    fold_left
      (fun acc permission =>
         match Engine.find_definition_for_declaration
                 e (type permission) (resource permission) with
         | Some perm_def => acc ∪ {[Engine.name perm_def]}
         | None => acc
         end)
      permissions old in
  {| granted_permissions := <[plugin_name := new]> (granted_permissions m);
     permission_violations := permission_violations m |}.

(** The wildcard loop of [check_permission] over the granted names. *)
Fixpoint wildcard_loop (e : Engine.PermissionEngine) (granted : list string)
    (required_perm_name : string) (res : pyval) : option bool :=
  match granted with
  | [] => Some false
  | granted_perm_name :: rest =>
      if Str.fnmatch required_perm_name granted_perm_name then
        match Engine.get_permission_definition e granted_perm_name with
        | Some perm_def =>
            match Engine.resource_matcher perm_def res with
            | None => None
            | Some true => Some true
            | Some false => wildcard_loop e rest required_perm_name res
            end
        | None => wildcard_loop e rest required_perm_name res
        end
      else wildcard_loop e rest required_perm_name res
  end.

(** [check_permission]; [None] when a matcher raises. *)
Definition check_permission (e : Engine.PermissionEngine)
    (m : SandboxPermissionManager) (plugin_name required_perm_name : string)
    (res : pyval) : option bool :=
  match granted_permissions m !! plugin_name with
  | None => Some false
  | Some granted =>
      if decide (required_perm_name ∈ granted) then Some true
      else wildcard_loop e (elements granted) required_perm_name res
  end.

Definition has_permission_prefix (m : SandboxPermissionManager)
    (plugin_name prefix : string) : bool :=
  match granted_permissions m !! plugin_name with
  | None => false
  | Some granted =>
      existsb (fun granted_perm => Str.startswith granted_perm prefix)
              (elements granted)
  end.

Definition log_violation (m : SandboxPermissionManager)
    (plugin_name : string) (v : violation) : SandboxPermissionManager :=
  {| granted_permissions := granted_permissions m;
     permission_violations :=
       <[plugin_name := default [] (permission_violations m !! plugin_name) ++ [v]]>
         (permission_violations m) |}.

Definition get_violations (m : SandboxPermissionManager)
    (plugin_name : string) : list violation :=
  default [] (permission_violations m !! plugin_name).

(** The names a plugin holds. *)
Definition granted (m : SandboxPermissionManager) (plugin_name : string)
  : gset string :=
  default ∅ (granted_permissions m !! plugin_name).

End Ledger.

(** ** The interception engine ([audit_sandbox.py]) *)

Module Audit.

(** [os.O_WRONLY], [os.O_RDWR], [os.O_APPEND] (Linux). *)
Definition O_WRONLY : Z := 1.
Definition O_RDWR : Z := 2.
Definition O_APPEND : Z := 1024.

(** The hook is installed by [activate], which refuses a manager without a
    [SandboxPermissionManager]; an installed hook therefore has one. *)
Record AuditHookManager : Type := {
  permission_manager : Ledger.SandboxPermissionManager;
  plugin_root_paths : gmap string string;
  permission_engine : Engine.PermissionEngine
}.

(** What the process offers besides the manager: [os.getcwd()] and
    [current_plugin_context.get()].  [getcwd] is [None] when
    [os.getcwd()] raises [FileNotFoundError], the working directory
    having been removed; the [PermissionError] that [os.getcwd()] raises
    when a directory above the working directory cannot be searched,
    which [_is_lock_file_access] hands on as it is, has no counterpart
    here. *)
Record Process : Type := {
  getcwd : option string;
  current_plugin : option string
}.

(** The working directory of the process has been removed: [os.getcwd()]
    raises [FileNotFoundError]. *)
Definition cwd_removed (proc : Process) : Prop := getcwd proc = None.

(** How a call of the hook ends: it returns, it raises [PermissionError]
    with the message of a denial, or another exception leaves it. *)
Inductive outcome : Type :=
| Allowed
| Denied (v : violation)
| Crashed.

Definition log (mgr : AuditHookManager) (plugin_name : string) (v : violation)
  : AuditHookManager :=
  {| permission_manager :=
       Ledger.log_violation (permission_manager mgr) plugin_name v;
     plugin_root_paths := plugin_root_paths mgr;
     permission_engine := permission_engine mgr |}.

Definition set_plugin_root_paths (mgr : AuditHookManager)
    (paths : gmap string string) : AuditHookManager :=
  {| permission_manager := permission_manager mgr;
     plugin_root_paths := paths;
     permission_engine := permission_engine mgr |}.

Definition is_write (mode flags : pyval) : bool :=
  match mode with
  | PStr m =>
      Str.contains "w" m || Str.contains "a" m || Str.contains "+" m
  | _ =>
      match flags with
      | PInt f =>
          negb (Z.eqb (Z.land f O_WRONLY) 0)
          || negb (Z.eqb (Z.land f O_RDWR) 0)
          || negb (Z.eqb (Z.land f O_APPEND) 0)
      | _ => false
      end
  end.

(** [path.lower().replace('\\', '/')]. *)
Definition normalise_text (path : string) : string :=
  Str.replace "\"%char "/"%char (Str.lower path).

(** The [try] block of [_is_lock_file_access]: [None] when resolving a
    path raises, otherwise the denial found, if any. *)
Definition lock_file_access_resolved (mgr : AuditHookManager) (cwd : option string)
    (plugin_name : string) (path_arg : pyval) : option (option violation) :=
  match Path.abspath cwd (py_str path_arg) with
  | None => None
  | Some abs_path =>
      match cwd with
      | None => None
      | Some project_root =>
          let system_secure_dir := Path.join project_root "system_secure" in
          match Path.abspath cwd system_secure_dir with
          | None => None
          | Some secure_abs =>
              if Str.startswith abs_path (secure_abs +:+ Path.sep) then
                Some (Some (VSecureDir plugin_name (py_str path_arg)))
              else
                match plugin_root_paths mgr !! plugin_name with
                | Some plugin_root =>
                    if String.eqb plugin_root "" then Some None
                    else
                      match Path.abspath cwd plugin_root with
                      | None => None
                      | Some root_abs =>
                          let lock_path :=
                            Path.join root_abs "permissions.lock.json" in
                          if String.eqb abs_path lock_path then
                            Some (Some (VOwnLockFile plugin_name (py_str path_arg)))
                          else Some None
                      end
                | None => Some None
                end
          end
      end
  end.

(** [_is_lock_file_access]: [Some v] when it logs [v] and raises
    [PermissionError], [None] when it returns [False]. *)
Definition _is_lock_file_access (mgr : AuditHookManager) (cwd : option string)
    (plugin_name : string) (path_arg mode flags : pyval) : option violation :=
  match lock_file_access_resolved mgr cwd plugin_name path_arg with
  | Some r => r
  | None =>
      let path_str := normalise_text (py_str path_arg) in
      if Str.contains "system_secure/" path_str
         || (is_write mode flags && Str.contains "permissions.lock.json" path_str)
      then Some (VSuspicious plugin_name (py_str path_arg))
      else None
  end.

Definition paths_to_check (event : string) (args : list pyval) : list string :=
  if String.eqb event "os.remove" || String.eqb event "os.unlink" then
    [match args with a :: _ => py_str a | [] => "" end]
  else if String.eqb event "os.rename" then
    [match args with a :: _ => py_str a | [] => "" end;
     match args with _ :: b :: _ => py_str b | _ => "" end]
  else [].

(** [_is_lock_file_modification], with the same reading of the result. *)
Definition _is_lock_file_modification (plugin_name event : string)
    (args : list pyval) : option violation :=
  match List.filter
          (fun path => Str.contains "permissions.lock.json" (normalise_text path))
          (paths_to_check event args) with
  | path :: _ => Some (VLockModification plugin_name event path)
  | [] => None
  end.

(** [_enforce_directory_jail]: [None] when it returns, [Some e] when it
    raises [PermissionError]. *)
Definition _enforce_directory_jail (mgr : AuditHookManager) (cwd : option string)
    (plugin_name path : string) : option jail_error :=
  match Path.abspath cwd path with
  | None => Some (JUnresolved path)
  | Some abs_path =>
      match plugin_root_paths mgr !! plugin_name with
      | None => Some (JNotRegistered plugin_name)
      | Some plugin_root =>
          if String.eqb plugin_root "" then Some (JNotRegistered plugin_name)
          else
            match Path.abspath cwd plugin_root with
            | None => Some (JUnresolved path)
            | Some plugin_root_abs =>
                let is_within_plugin_dir := Path.within abs_path plugin_root_abs in
                match cwd with
                | None => Some (JUnresolved path)
                | Some project_root =>
                    match Path.abspath cwd
                            (Path.join (Path.join (Path.join project_root "data") "temp")
                                       plugin_name) with
                    | None => Some (JUnresolved path)
                    | Some temp_dir_abs =>
                        let is_within_temp_dir := Path.within abs_path temp_dir_abs in
                        if is_within_plugin_dir || is_within_temp_dir then None
                        else if Ledger.has_permission_prefix
                                  (permission_manager mgr) plugin_name "system."
                        then None
                        else Some (JOutside plugin_name path)
                    end
                end
            end
      end
  end.

(** The loop over the matched definitions: [Some (has_any, checked_perms)],
    or [None] when a check raises. *)
Fixpoint check_loop (mgr : AuditHookManager) (plugin_name : string)
    (required_perms : list (Engine.PermissionDefinition * pyval))
    (checked_perms : list string) : option (bool * list string) :=
  match required_perms with
  | [] => Some (false, checked_perms)
  | (perm_def, res) :: rest =>
      let checked_perms := checked_perms ++ [Engine.name perm_def] in
      match Ledger.check_permission (permission_engine mgr) (permission_manager mgr)
              plugin_name (Engine.name perm_def) res with
      | None => None
      | Some true => Some (true, checked_perms)
      | Some false => check_loop mgr plugin_name rest checked_perms
      end
  end.

(** The fixed rules at the head of [_audit_hook]: [None] when unpacking
    the arguments of an [open] event raises. *)
Definition fixed_rules (mgr : AuditHookManager) (cwd : option string)
    (plugin_name event : string) (args : list pyval) : option (option violation) :=
  if String.eqb event "open" then
    match args with
    | [path_arg; mode; flags] =>
        Some (_is_lock_file_access mgr cwd plugin_name path_arg mode flags)
    | _ => None
    end
  else if String.eqb event "os.remove" || String.eqb event "os.unlink"
          || String.eqb event "os.rename" then
    Some (_is_lock_file_modification plugin_name event args)
  else Some None.

(** The capability check that ends [_audit_hook]. *)
Definition capability_check (mgr : AuditHookManager) (plugin_name event : string)
    (args : list pyval)
    (required_perms : list (Engine.PermissionDefinition * pyval))
  : outcome * AuditHookManager :=
  match check_loop mgr plugin_name required_perms [] with
  | None => (Crashed, mgr)
  | Some (true, _) => (Allowed, mgr)
  | Some (false, checked_perms) =>
      let v := VUnauthorized plugin_name event checked_perms
                 (match args with a :: _ => a | [] => PStr "N/A" end) in
      (Denied v, log mgr plugin_name v)
  end.

Definition _audit_hook (mgr : AuditHookManager) (proc : Process)
    (event : string) (args : list pyval) : outcome * AuditHookManager :=
  match current_plugin proc with
  | None => (Allowed, mgr)
  | Some plugin_name =>
      if String.eqb plugin_name "" then (Allowed, mgr)
      else
        match fixed_rules mgr (getcwd proc) plugin_name event args with
        | None => (Crashed, mgr)
        | Some (Some v) => (Denied v, log mgr plugin_name v)
        | Some None =>
            match Engine.map_event_to_permissions
                    (permission_engine mgr) event args with
            | None => (Crashed, mgr)
            | Some [] => (Allowed, mgr)
            | Some required_perms =>
                let jail :=
                  if String.eqb event "open" then
                    _enforce_directory_jail mgr (getcwd proc) plugin_name
                      (py_str (match args with a :: _ => a | [] => PNone end))
                  else None in
                match jail with
                | Some e => (Denied (VJail e), log mgr plugin_name (VJail e))
                | None => capability_check mgr plugin_name event args required_perms
                end
            end
        end
  end.

(** The resolved path lies under [<cwd>/system_secure/]. *)
Definition under_secure_dir (cwd : option string) (path : string) : bool :=
  match cwd with
  | Some project_root =>
      match Path.abspath cwd path,
            Path.abspath cwd (Path.join project_root "system_secure") with
      | Some abs_path, Some secure_abs =>
          Str.startswith abs_path (secure_abs +:+ Path.sep)
      | _, _ => false
      end
  | None => false
  end.

(** The resolved path is [permissions.lock.json] in the registered root
    of the plugin. *)
Definition is_own_lock_file (mgr : AuditHookManager) (cwd : option string)
    (plugin_name path : string) : bool :=
  match cwd, plugin_root_paths mgr !! plugin_name with
  | Some _, Some plugin_root =>
      negb (String.eqb plugin_root "")
      && match Path.abspath cwd path, Path.abspath cwd plugin_root with
         | Some abs_path, Some root_abs =>
             String.eqb abs_path (Path.join root_abs "permissions.lock.json")
         | _, _ => false
         end
  | _, _ => false
  end.

(** One of the paths of a remove, unlink or rename names a lock file. *)
Definition names_lock_file (event : string) (args : list pyval) : bool :=
  existsb (fun path => Str.contains "permissions.lock.json" (normalise_text path))
          (paths_to_check event args).

(** The resolved path lies in the registered root of the plugin or in its
    temp-data directory [<cwd>/data/temp/<plugin>]. *)
Definition inside_allowed_dirs (mgr : AuditHookManager) (cwd : option string)
    (plugin_name path : string) : option bool :=
  match cwd, plugin_root_paths mgr !! plugin_name with
  | Some project_root, Some plugin_root =>
      if String.eqb plugin_root "" then None
      else
        match Path.abspath cwd path, Path.abspath cwd plugin_root,
              Path.abspath cwd
                (Path.join (Path.join (Path.join project_root "data") "temp")
                           plugin_name) with
        | Some abs_path, Some root_abs, Some temp_abs =>
            Some (Path.within abs_path root_abs || Path.within abs_path temp_abs)
        | _, _, _ => None
        end
  | _, _ => None
  end.

(** The plugin holds the capability named [n]. *)
Definition holds (mgr : AuditHookManager) (plugin_name n : string) : bool :=
  bool_decide (n ∈ Ledger.granted (permission_manager mgr) plugin_name).

Definition required_names
    (required_perms : list (Engine.PermissionDefinition * pyval)) : list string :=
  map (fun pr => Engine.name (fst pr)) required_perms.

End Audit.

(** ** The dependency resolver ([DependencyResolver], loader.py) *)

Module Resolver.

(** [dependency_graph]: an insertion-ordered dict from a plugin name to
    the set of its dependencies; each set is given as the list in which
    Python iterates over it. *)
Definition graph : Type := list (string * list string).

Record DependencyResolver : Type := {
  dependency_graph : graph;
  resolved_order : list string
}.

Definition init : DependencyResolver :=
  {| dependency_graph := []; resolved_order := [] |}.

Fixpoint get (g : graph) (node : string) : option (list string) :=
  match g with
  | [] => None
  | (k, v) :: g' => if String.eqb node k then Some v else get g' node
  end.

(** [node in self.dependency_graph]. *)
Definition contains (g : graph) (node : string) : bool :=
  match get g node with
  | Some _ => true
  | None => false
  end.

(** [d[k] = v] on an insertion-ordered dict. *)
Fixpoint set (g : graph) (k : string) (v : list string) : graph :=
  match g with
  | [] => [(k, v)]
  | (k', v') :: g' =>
      if String.eqb k k' then (k', v) :: g' else (k', v') :: set g' k v
  end.

Definition add_plugin (r : DependencyResolver) (plugin_name : string)
    (dependencies : list string) : DependencyResolver :=
  {| dependency_graph :=
       set (dependency_graph r) plugin_name (remove_dups dependencies);
     resolved_order := resolved_order r |}.

(** The variables shared by the calls of [visit]: the local sets
    [resolved] and [temp_mark], and [self.resolved_order]. *)
Record marks : Type := {
  resolved : gset string;
  temp_mark : gset string;
  order : list string
}.

(** How a run of the model ends: with a value; with the [ValueError]
    "Circular dependency detected involving {node}", the variables being
    left as they were when it was raised; or with the fuel of the model
    used up (shown below never to happen). *)
Inductive result (A : Type) : Type :=
| Ok (a : A)
| Raise (node : string) (at_raise : marks)
| OutOfFuel.
Arguments Ok {A} a.
Arguments Raise {A} node at_raise.
Arguments OutOfFuel {A}.

(** A [for] loop whose body may raise. *)
Fixpoint for_each (body : string -> marks -> result marks)
    (items : list string) (s : marks) : result marks :=
  match items with
  | [] => Ok s
  | x :: rest =>
      match body x s with
      | Ok s' => for_each body rest s'
      | Raise n s' => Raise n s'
      | OutOfFuel => OutOfFuel
      end
  end.

Fixpoint visit (g : graph) (fuel : nat) (node : string) (s : marks)
  : result marks :=
  match fuel with
  | 0 => OutOfFuel
  | S fuel' =>
      if decide (node ∈ temp_mark s) then Raise node s
      else if decide (node ∈ resolved s) then Ok s
      else
        let s1 := {| resolved := resolved s;
                     temp_mark := temp_mark s ∪ {[node]};
                     order := order s |} in
        match for_each
                (fun dependency s' =>
                   if contains g dependency then visit g fuel' dependency s'
                   else Ok s')
                (default [] (get g node)) s1 with
        | Ok s2 =>
            Ok {| resolved := resolved s2 ∪ {[node]};
                  temp_mark := temp_mark s2 ∖ {[node]};
                  order := order s2 ++ [node] |}
        | Raise n s2 => Raise n s2
        | OutOfFuel => OutOfFuel
        end
  end.

(** The body of [resolve_dependencies]; the fuel bounds the depth of the
    recursion, which never exceeds the number of plugins. *)
Definition run_visits (r : DependencyResolver) : result marks :=
  let g := dependency_graph r in
  for_each
    (fun plugin s =>
       if decide (plugin ∈ resolved s) then Ok s
       else visit g (S (length g)) plugin s)
    (map fst g)
    {| resolved := ∅; temp_mark := ∅; order := resolved_order r |}.

(** What [resolve_dependencies] returns or raises. *)
Inductive resolution : Type :=
| Order (load_order : list string)
| CircularDependency (node : string)
| Diverged.

(** [resolve_dependencies], with the resolver it leaves behind. *)
Definition resolve_dependencies (r : DependencyResolver)
  : resolution * DependencyResolver :=
  match run_visits r with
  | Ok s =>
      (Order (order s),
       {| dependency_graph := dependency_graph r; resolved_order := order s |})
  | Raise n s =>
      (CircularDependency n,
       {| dependency_graph := dependency_graph r; resolved_order := order s |})
  | OutOfFuel => (Diverged, r)
  end.

(** The outcome for a graph in a fresh resolver. *)
Definition resolve (g : graph) : resolution :=
  fst (resolve_dependencies {| dependency_graph := g; resolved_order := [] |}).

(** [a] depends on [b], and both are plugins of the graph. *)
Definition edge (g : graph) (a b : string) : Prop :=
  exists deps, get g a = Some deps /\ b ∈ deps /\ contains g b = true.

(** A dependency cycle: some plugin reaches itself along edges. *)
Definition cyclic (g : graph) : Prop := exists n, tc (edge g) n n.

(** [d] stands before [n] in [l]. *)
Definition before (l : list string) (d n : string) : Prop :=
  exists i j, l !! i = Some d /\ l !! j = Some n /\ i < j.

(** Every plugin stands after each of its dependencies that the graph
    knows. *)
Definition topological (g : graph) (l : list string) : Prop :=
  forall n deps d,
    get g n = Some deps -> d ∈ deps -> contains g d = true -> before l d n.

(** [new] lists plugins so that the dependencies of each one are in [R]
    or earlier in [new]. *)
Fixpoint sorted_from (g : graph) (R : gset string) (new : list string) : Prop :=
  match new with
  | [] => True
  | n :: rest =>
      (forall d, d ∈ default [] (get g n) -> contains g d = true -> d ∈ R)
      /\ sorted_from g (R ∪ {[n]}) rest
  end.

(** What a successful visit does to the variables: [temp_mark] is as
    before, and [new], sorted and free of duplicates, has been added to
    [resolved] and appended to the order. *)
Record extends (g : graph) (s s' : marks) (new : list string) : Prop := {
  ext_temp : temp_mark s' = temp_mark s;
  ext_order : order s' = order s ++ new;
  ext_resolved : resolved s' = resolved s ∪ list_to_set new;
  ext_nodup : NoDup new;
  ext_fresh : forall n, n ∈ new ->
                (n ∉ temp_mark s) /\ (n ∉ resolved s) /\ contains g n = true;
  ext_sorted : sorted_from g (resolved s) new
}.

(** The plugins of the graph, as a set. *)
Definition keys (g : graph) : gset string := list_to_set (map fst g).

End Resolver.

(** ** The plugin loader ([PluginLoader], loader.py) *)

Module Loader.

(** An entry of the [permissions] list of a manifest or of a lock file;
    [raw_type] is [None] when the entry's [type] is not a string, and the
    [resource] of an entry is a string or absent. *)
Record raw_permission : Type := {
  raw_type : option string;
  raw_resource : option string;
  raw_description : string
}.

(** The content of a [permissions.lock.json], by what
    [_load_permissions_from_lock_file] makes of it: the entries of its
    [permissions] list when the file loads; a file that is not JSON, not
    a mapping, or whose list has an entry that is not a mapping, on which
    the loading raises before anything is granted; and a list of
    mappings whose entries up to [granted] are granted before an entry
    with a resource that is not a string makes [grant_permissions]
    raise. *)
Inductive lock_file : Type :=
| LockEntries (entries : list raw_permission)
| LockUnparsed
| LockFailsAfter (granted : list raw_permission).

(** The value under [permissions] in a manifest: a list, each entry of
    which is a mapping or something else ([None]), or a value that is not
    a list (a text, a number, a mapping). *)
Inductive raw_permissions : Type :=
| Entries (items : list (option raw_permission))
| NotEntries.

(** What a manifest ([plugin.yml] or [plugin.json]) holds once parsed. *)
Record Manifest : Type := {
  manifest_version : string;
  manifest_deps : list string;
  manifest_permissions : raw_permissions
}.

Record PluginMetadata : Type := {
  name : string;
  version : string;
  dependencies : list string;
  permissions : list Ledger.SandboxPermission
}.

(** A plugin instance, by what the loader observes of it: whether it is a
    [MetaPlugin] (or carries the [is_meta_plugin] flag), whether its
    [initialize] and [shutdown] raise, the denials the hook logs while
    [initialize] runs in the interception scope of the plugin, and whether
    [len(instance.subplugins)] or [len(instance.chains)] raises, as it does
    on an instance that is taken for a group by its flag and lacks the
    attributes of [MetaPlugin]. *)
Record PluginInterface : Type := {
  is_meta_plugin : bool;
  initialize_raises : bool;
  initialize_denials : list violation;
  shutdown_raises : bool;
  group_sizes_raise : bool
}.

(** How [packaging] takes a version or a specifier string. *)
Inductive parsed : Type :=
| Parsed
| Invalid      (* InvalidVersion / InvalidSpecifier *)
| Unexpected.  (* any other exception *)

(** Everything the loader reads and does not own: the plugin directory,
    the install registry, the settings, the plugins' code and the
    [packaging] library. *)
Record World : Type := {
  (** [self.plugin_dir], as an absolute path, and whether it exists. *)
  plugin_dir : string;
  plugin_dir_exists : bool;
  (** [self.plugin_dir.iterdir()], directories only, in listing order. *)
  directories : list string;
  (** [plugin_path.exists() and plugin_path.is_dir()]. *)
  is_plugin_dir : string -> bool;
  (** [registry.get_plugin_info(name)] is truthy (an exception counts as
      no record). *)
  registry_info : string -> bool;
  (** The keys of [registry.list_plugins()], empty when it raises. *)
  installed_names : list string;
  (** [_verify_signature_if_needed]. *)
  signature_verified : string -> bool;
  has_group_yml : string -> bool;
  (** [plugin.py] or [__init__.py] exists. *)
  has_module_file : string -> bool;
  (** The manifest, [None] when there is none or it cannot be read. *)
  manifest : string -> option Manifest;
  (** [_load_plugin_directly]: the instance, [None] on any failure. *)
  instantiate : string -> option PluginInterface;
  (** What executing the module of the plugin and the constructor of its
      class, which run outside any interception scope, do to the lock
      files on disk. *)
  import_effect : string -> gmap string lock_file -> gmap string lock_file;
  (** Opening the lock file for writing succeeds. *)
  lock_writable : string -> bool;
  (** The sub-plugins that [SubPluginLoader.load_all] loads for a group,
      each under its full name [f"{meta name}.{name}"] and with the
      permissions of its own metadata. *)
  subplugin_grants : string -> list (string * list Ledger.SandboxPermission);
  (** Loading the sub-plugins or registering the preset chains of a
      group raises. *)
  group_setup_raises : string -> bool;
  (** [settings.plugins.enabled] and [settings.plugins.auto_load]. *)
  enabled : list string;
  auto_load : bool;
  parse_version : string -> parsed;
  specifier_set : string -> parsed;
  (** [parse_version(v) in SpecifierSet(c)], for strings that parse. *)
  version_in_spec : string -> string -> bool
}.

(** The loader, with the lock files on disk: the loader writes them on
    the group path, and so may the module of a plugin when it is
    executed. *)
Record PluginLoader : Type := {
  plugins : gmap string PluginInterface;
  plugin_metadata : gmap string PluginMetadata;
  permission_manager : Ledger.SandboxPermissionManager;
  (** [audit_manager.plugin_root_paths], a copy made by
      [set_plugin_root_paths]. *)
  audit_root_paths : gmap string string;
  declared_dependencies : gmap string (list string);
  version_constraints : gmap string (list (string * string));
  plugin_root_paths : gmap string string;
  dependency_resolver : Resolver.DependencyResolver;
  engine : Engine.PermissionEngine;
  (** [permissions.lock.json] of each plugin directory that has one. *)
  lock_files : gmap string lock_file
}.

Definition init : PluginLoader :=
  {| plugins := ∅; plugin_metadata := ∅;
     permission_manager := Ledger.init; audit_root_paths := ∅;
     declared_dependencies := ∅; version_constraints := ∅;
     plugin_root_paths := ∅; dependency_resolver := Resolver.init;
     engine := Engine.default_engine; lock_files := ∅ |}.

(** [str((self.plugin_dir / plugin_name).absolute())]. *)
Definition plugin_path (w : World) (plugin_name : string) : string :=
  Path.join (plugin_dir w) plugin_name.

Definition is_space (c : ascii) : bool :=
  let n := nat_of_ascii c in
  (n =? 32) || ((9 <=? n) && (n <=? 13)) || ((28 <=? n) && (n <=? 31))
  || (n =? 133) || (n =? 160).

Fixpoint lstrip (s : string) : string :=
  match s with
  | EmptyString => EmptyString
  | String c s' => if is_space c then lstrip s' else s
  end.

Fixpoint rstrip (s : string) : string :=
  match s with
  | EmptyString => EmptyString
  | String c s' =>
      match rstrip s' with
      | EmptyString => if is_space c then EmptyString else String c EmptyString
      | t => String c t
      end
  end.

(** [s.strip()]: of the characters below 256 Python takes 9 to 13, 28 to
    31, 32, 133 and 160 for white space. *)
Definition strip (s : string) : string := rstrip (lstrip s).

(** [_parse_dependency_spec]: the name and the constraint of
    ["name@constraint"]. *)
Definition _parse_dependency_spec (spec : string) : string * option string :=
  let spec := strip spec in
  if String.eqb spec "" then ("", None)
  else match Str.split_once "@"%char spec with
       | Some (n, c) => (strip n, Some (strip c))
       | None => (spec, None)
       end.

(** What [_version_satisfies] logs. *)
Inductive log_record : Type :=
| Warning_could_not_validate (version constraint : string)
| Error_unexpected (version constraint : string).

(** The version of the dependency or the constraint does not parse. *)
Definition unparseable (w : World) (version constraint : string) : Prop :=
  parse_version w version = Invalid
  \/ (parse_version w version = Parsed /\ specifier_set w constraint = Invalid).

Definition _version_satisfies (w : World) (version constraint : string)
  : bool * option log_record :=
  if String.eqb constraint "" then (true, None)
  else
    match parse_version w version with
    | Invalid => (true, Some (Warning_could_not_validate version constraint))
    | Unexpected => (false, Some (Error_unexpected version constraint))
    | Parsed =>
        match specifier_set w constraint with
        | Invalid => (true, Some (Warning_could_not_validate version constraint))
        | Unexpected => (false, Some (Error_unexpected version constraint))
        | Parsed => (version_in_spec w version constraint, None)
        end
    end.

Fixpoint constraints_get (k : string) (d : list (string * string)) : option string :=
  match d with
  | [] => None
  | (k', v) :: d' => if String.eqb k k' then Some v else constraints_get k d'
  end.

Fixpoint constraints_set (d : list (string * string)) (k v : string)
  : list (string * string) :=
  match d with
  | [] => [(k, v)]
  | (k', v') :: d' =>
      if String.eqb k k' then (k', v) :: d' else (k', v') :: constraints_set d' k v
  end.

(** The permissions of a manifest or lock file whose [type] is a string. *)
Definition parse_permissions (raw : list raw_permission)
  : list Ledger.SandboxPermission :=
  flat_map
    (fun p => match raw_type p with
              | Some t => [ {| Ledger.type := t;
                               Ledger.resource := raw_resource p;
                               Ledger.description := raw_description p |} ]
              | None => []
              end)
    raw.

Definition set_declared (l : PluginLoader) (plugin_name : string)
    (dep_names : list string) (constraints : list (string * string))
  : PluginLoader :=
  {| plugins := plugins l; plugin_metadata := plugin_metadata l;
     permission_manager := permission_manager l;
     audit_root_paths := audit_root_paths l;
     declared_dependencies := <[plugin_name := dep_names]> (declared_dependencies l);
     version_constraints := <[plugin_name := constraints]> (version_constraints l);
     plugin_root_paths := plugin_root_paths l;
     dependency_resolver := dependency_resolver l;
     engine := engine l; lock_files := lock_files l |}.

(** The entries of a list of mappings. *)
Fixpoint all_mappings (items : list (option raw_permission))
  : option (list raw_permission) :=
  match items with
  | [] => Some []
  | None :: _ => None
  | Some p :: rest =>
      match all_mappings rest with
      | Some ps => Some (p :: ps)
      | None => None
      end
  end.

(** The entries the loop over [manifest_permissions] goes through;
    [None] when the loop raises, on a value that is not a list or at an
    entry that has no [get]. *)
Definition manifest_entries (perms : raw_permissions) : option (list raw_permission) :=
  match perms with
  | Entries items => all_mappings items
  | NotEntries => None
  end.

(** [_load_plugin_metadata]: reads the manifest only.  The declared
    dependencies are recorded before the permissions are gone through, so
    they stay recorded when that loop raises and the outer handler
    returns [None]. *)
Definition _load_plugin_metadata (w : World) (l : PluginLoader)
    (plugin_name : string) : option PluginMetadata * PluginLoader :=
  if negb (is_plugin_dir w plugin_name) then (None, l)
  else if negb (has_module_file w plugin_name) then (None, l)
  else
    let '(v, deps, perms) :=
      match manifest w plugin_name with
      | Some m => (manifest_version m, manifest_deps m, manifest_permissions m)
      | None => ("unknown", [], Entries [])
      end in
    let parsed_specs := map _parse_dependency_spec deps in
    let dep_names := map fst parsed_specs in
    let constraints :=
      fold_left
        (fun acc nc => match snd nc with
                       | Some c => if String.eqb c "" then acc
                                   else constraints_set acc (fst nc) c
                       | None => acc
                       end)
        parsed_specs [] in
    let l := set_declared l plugin_name dep_names constraints in
    match manifest_entries perms with
    | Some entries =>
        (Some {| name := plugin_name; version := v;
                 dependencies := dep_names;
                 permissions := parse_permissions entries |}, l)
    | None => (None, l)
    end.

(** [self.plugin_root_paths[name] = ...], followed or not by
    [audit_manager.set_plugin_root_paths]. *)
Definition register_root (w : World) (l : PluginLoader) (plugin_name : string)
    (inject : bool) : PluginLoader :=
  let roots := <[plugin_name := plugin_path w plugin_name]> (plugin_root_paths l) in
  {| plugins := plugins l; plugin_metadata := plugin_metadata l;
     permission_manager := permission_manager l;
     audit_root_paths := if inject then roots else audit_root_paths l;
     declared_dependencies := declared_dependencies l;
     version_constraints := version_constraints l;
     plugin_root_paths := roots;
     dependency_resolver := dependency_resolver l;
     engine := engine l; lock_files := lock_files l |}.

(** [_create_permission_lock_file]: writes the lock file, replacing any
    that exists; [None] when the write raises. *)
Definition _create_permission_lock_file (w : World) (l : PluginLoader)
    (plugin_name : string) (perms : list Ledger.SandboxPermission)
  : option PluginLoader :=
  if lock_writable w plugin_name then
    Some {| plugins := plugins l; plugin_metadata := plugin_metadata l;
            permission_manager := permission_manager l;
            audit_root_paths := audit_root_paths l;
            declared_dependencies := declared_dependencies l;
            version_constraints := version_constraints l;
            plugin_root_paths := plugin_root_paths l;
            dependency_resolver := dependency_resolver l;
            engine := engine l;
            lock_files :=
              <[plugin_name :=
                  LockEntries
                    (map (fun p => {| raw_type := Some (Ledger.type p);
                                      raw_resource := Ledger.resource p;
                                      raw_description := Ledger.description p |})
                         perms)]> (lock_files l) |}
  else None.

(** [self.permission_manager.grant_permissions(plugin_name, permissions)]
    for the permissions rebuilt from entries of a lock file. *)
Definition grant_entries (l : PluginLoader) (plugin_name : string)
    (entries : list raw_permission) : PluginLoader :=
  {| plugins := plugins l; plugin_metadata := plugin_metadata l;
     permission_manager :=
       Ledger.grant_permissions (engine l) (permission_manager l)
         plugin_name (parse_permissions entries);
     audit_root_paths := audit_root_paths l;
     declared_dependencies := declared_dependencies l;
     version_constraints := version_constraints l;
     plugin_root_paths := plugin_root_paths l;
     dependency_resolver := dependency_resolver l;
     engine := engine l; lock_files := lock_files l |}.

(** [_load_permissions_from_lock_file], by what it leaves behind: the
    grants of the lock file go to the ledger; nothing happens without a
    lock file. *)
Definition _load_permissions_from_lock_file (l : PluginLoader)
    (plugin_name : string) : PluginLoader :=
  match lock_files l !! plugin_name with
  | None => l
  | Some (LockEntries entries) => grant_entries l plugin_name entries
  | Some LockUnparsed => l
  | Some (LockFailsAfter granted) => grant_entries l plugin_name granted
  end.

(** [_load_permissions_from_lock_file] returns: it re-raises what the
    reading of the file or the granting raises. *)
Definition lock_file_loads (l : PluginLoader) (plugin_name : string) : bool :=
  match lock_files l !! plugin_name with
  | None => true
  | Some (LockEntries _) => true
  | Some LockUnparsed => false
  | Some (LockFailsAfter _) => false
  end.

(** [self.plugins[name] = instance; self.plugin_metadata[name] = metadata]. *)
Definition store (l : PluginLoader) (metadata : PluginMetadata)
    (instance : PluginInterface) : PluginLoader :=
  {| plugins := <[name metadata := instance]> (plugins l);
     plugin_metadata := <[name metadata := metadata]> (plugin_metadata l);
     permission_manager := permission_manager l;
     audit_root_paths := audit_root_paths l;
     declared_dependencies := declared_dependencies l;
     version_constraints := version_constraints l;
     plugin_root_paths := plugin_root_paths l;
     dependency_resolver := dependency_resolver l;
     engine := engine l; lock_files := lock_files l |}.

Definition set_lock_files (l : PluginLoader)
    (files : gmap string lock_file) : PluginLoader :=
  {| plugins := plugins l; plugin_metadata := plugin_metadata l;
     permission_manager := permission_manager l;
     audit_root_paths := audit_root_paths l;
     declared_dependencies := declared_dependencies l;
     version_constraints := version_constraints l;
     plugin_root_paths := plugin_root_paths l;
     dependency_resolver := dependency_resolver l;
     engine := engine l; lock_files := files |}.

Definition set_permission_manager (l : PluginLoader)
    (m : Ledger.SandboxPermissionManager) : PluginLoader :=
  {| plugins := plugins l; plugin_metadata := plugin_metadata l;
     permission_manager := m;
     audit_root_paths := audit_root_paths l;
     declared_dependencies := declared_dependencies l;
     version_constraints := version_constraints l;
     plugin_root_paths := plugin_root_paths l;
     dependency_resolver := dependency_resolver l;
     engine := engine l; lock_files := lock_files l |}.

(** [_load_plugin_directly]: the module of the plugin is executed and its
    class instantiated, outside any interception scope. *)
Definition _load_plugin_directly (w : World) (l : PluginLoader) (plugin_name : string)
  : option PluginInterface * PluginLoader :=
  (instantiate w plugin_name,
   set_lock_files l (import_effect w plugin_name (lock_files l))).

(** The violations the hook logs for the plugin while its [initialize]
    runs under [current_plugin_context.use(name)]. *)
Definition log_denials (l : PluginLoader) (plugin_name : string)
    (denials : list violation) : PluginLoader :=
  set_permission_manager l
    (fold_left (fun m v => Ledger.log_violation m plugin_name v) denials
               (permission_manager l)).

(** The grants of [load_subplugin]: a sub-plugin whose metadata lists
    permissions is granted them under its full name. *)
Definition grant_subplugins (l : PluginLoader)
    (grants : list (string * list Ledger.SandboxPermission)) : PluginLoader :=
  set_permission_manager l
    (fold_left (fun m g => match snd g with
                           | [] => m
                           | _ :: _ =>
                               Ledger.grant_permissions (engine l) m (fst g) (snd g)
                           end)
               grants (permission_manager l)).

(** [load_plugin_group]: every failure, raised or not, ends in [None].
    The instance is stored before the sizes of its [subplugins] and
    [chains] are taken for the log entry, inside the same [try]. *)
Definition load_plugin_group (w : World) (l : PluginLoader) (plugin_name : string)
  : option PluginInterface * PluginLoader :=
  if negb (has_module_file w plugin_name) then (None, l)
  else
    match _load_plugin_directly w l plugin_name with
    | (None, l0) => (None, l0)
    | (Some meta_plugin_instance, l0) =>
        if initialize_raises meta_plugin_instance then (None, l0)
        else if negb (is_meta_plugin meta_plugin_instance) then (None, l0)
        else
          match _load_plugin_metadata w l0 plugin_name with
          | (None, l1) => (None, l1)
          | (Some metadata, l1) =>
              match _create_permission_lock_file w l1 (name metadata)
                      (permissions metadata) with
              | None => (None, l1)
              | Some l2 =>
                  let l3 := _load_permissions_from_lock_file l2 (name metadata) in
                  if negb (lock_file_loads l2 (name metadata)) then (None, l3)
                  else
                  let l4 := register_root w l3 (name metadata) false in
                  let l5 := grant_subplugins l4 (subplugin_grants w plugin_name) in
                  if group_setup_raises w plugin_name then (None, l5)
                  else
                    let l6 := store l5 metadata meta_plugin_instance in
                    if group_sizes_raise meta_plugin_instance then (None, l6)
                    else (Some meta_plugin_instance, l6)
              end
          end
    end.

(** [load_plugin]: every failure, raised or not, ends in [None].  The
    lock file is looked for after the module has been executed, and
    [initialize] runs in the interception scope of the plugin. *)
Definition load_plugin (w : World) (l : PluginLoader) (plugin_name : string)
  : option PluginInterface * PluginLoader :=
  if negb (is_plugin_dir w plugin_name) then (None, l)
  else if negb (registry_info w plugin_name) then (None, l)
  else if negb (signature_verified w plugin_name) then (None, l)
  else if has_group_yml w plugin_name then load_plugin_group w l plugin_name
  else if negb (has_module_file w plugin_name) then (None, l)
  else
    match _load_plugin_metadata w l plugin_name with
    | (None, l1) => (None, l1)
    | (Some metadata, l1) =>
        match _load_plugin_directly w l1 plugin_name with
        | (None, l2) => (None, l2)
        | (Some plugin_instance, l2) =>
            let l3 := register_root w l2 (name metadata) true in
            match lock_files l3 !! plugin_name with
            | None => (None, l3)
            | Some _ =>
                let l4 := _load_permissions_from_lock_file l3 (name metadata) in
                if negb (lock_file_loads l3 (name metadata)) then (None, l4)
                else
                  let l5 := log_denials l4 (name metadata)
                              (initialize_denials plugin_instance) in
                  if initialize_raises plugin_instance then (None, l5)
                  else (Some plugin_instance, store l5 metadata plugin_instance)
            end
        end
    end.

(** An entry of the [unmet] list of [load_all_plugins]. *)
Inductive unmet_dependency : Type :=
| Missing (dep constraint : string)          (* "{dep}@{constraint or '*'}" *)
| Mismatch (dep constraint have : string).   (* "{dep}@{constraint} (have {v})" *)

(** The body of the loop over the declared dependencies. *)
Definition check_dependency (w : World) (l : PluginLoader)
    (constraints : list (string * string)) (dep : string)
  : option unmet_dependency :=
  match plugin_metadata l !! dep with
  | None => Some (Missing dep (default "*" (constraints_get dep constraints)))
  | Some dep_metadata =>
      let dep_version := version dep_metadata in
      match constraints_get dep constraints with
      | Some constraint =>
          if negb (String.eqb constraint "")
             && negb (fst (_version_satisfies w dep_version constraint))
          then Some (Mismatch dep constraint dep_version)
          else None
      | None => None
      end
  end.

Definition unmet_dependencies (w : World) (l : PluginLoader)
    (plugin_name : string) : list unmet_dependency :=
  let deps := default [] (declared_dependencies l !! plugin_name) in
  let constraints := default [] (version_constraints l !! plugin_name) in
  flat_map (fun dep => match check_dependency w l constraints dep with
                       | Some u => [u]
                       | None => []
                       end) deps.

(** The loop of [load_all_plugins] over the load order. *)
Fixpoint load_in_order (w : World) (l : PluginLoader) (load_order : list string)
  : PluginLoader :=
  match load_order with
  | [] => l
  | plugin_name :: rest =>
      match unmet_dependencies w l plugin_name with
      | [] => load_in_order w (snd (load_plugin w l plugin_name)) rest
      | _ :: _ => load_in_order w l rest
      end
  end.

(** The candidate directories: not starting with an underscore, recorded
    as installed and, when a list of enabled plugins is configured, on it. *)
Definition candidates (w : World) : list string :=
  let plugin_dirs :=
    List.filter (fun d => negb (Str.startswith d "_")) (directories w) in
  let plugin_dirs :=
    List.filter (fun d => existsb (String.eqb d) (installed_names w)) plugin_dirs in
  match enabled w with
  | [] => plugin_dirs
  | _ :: _ => List.filter (fun d => existsb (String.eqb d) (enabled w)) plugin_dirs
  end.

(** The metadata scan and the construction of the dependency graph. *)
Fixpoint scan (w : World) (l : PluginLoader) (plugin_dirs : list string)
  : list (option PluginMetadata) * PluginLoader :=
  match plugin_dirs with
  | [] => ([], l)
  | d :: rest =>
      let '(m, l1) := _load_plugin_metadata w l d in
      let '(ms, l2) := scan w l1 rest in
      (m :: ms, l2)
  end.

Definition set_resolver (l : PluginLoader) (r : Resolver.DependencyResolver)
  : PluginLoader :=
  {| plugins := plugins l; plugin_metadata := plugin_metadata l;
     permission_manager := permission_manager l;
     audit_root_paths := audit_root_paths l;
     declared_dependencies := declared_dependencies l;
     version_constraints := version_constraints l;
     plugin_root_paths := plugin_root_paths l;
     dependency_resolver := r;
     engine := engine l; lock_files := lock_files l |}.

Definition build_graph (l : PluginLoader) (ms : list (option PluginMetadata))
  : PluginLoader :=
  set_resolver l
    (fold_left (fun r m => match m with
                           | Some metadata =>
                               Resolver.add_plugin r (name metadata)
                                 (dependencies metadata)
                           | None => r
                           end)
               ms (dependency_resolver l)).

Definition inject_roots (l : PluginLoader) : PluginLoader :=
  {| plugins := plugins l; plugin_metadata := plugin_metadata l;
     permission_manager := permission_manager l;
     audit_root_paths := plugin_root_paths l;
     declared_dependencies := declared_dependencies l;
     version_constraints := version_constraints l;
     plugin_root_paths := plugin_root_paths l;
     dependency_resolver := dependency_resolver l;
     engine := engine l; lock_files := lock_files l |}.

(** What [load_all_plugins] returns; [BatchDiverged] stands for a
    resolver run out of fuel. *)
Inductive batch : Type :=
| Returned (loaded : gmap string PluginInterface)
| BatchDiverged.

Definition load_all_plugins (w : World) (l : PluginLoader) : batch * PluginLoader :=
  if negb (plugin_dir_exists w) then (Returned ∅, l)
  else
    match enabled w, auto_load w with
    | [], false => (Returned ∅, l)
    | _, _ =>
        let plugin_dirs := candidates w in
        match plugin_dirs with
        | [] =>
            let l1 := inject_roots (load_in_order w l []) in
            (Returned (plugins l1), l1)
        | _ :: _ =>
            let '(ms, l1) := scan w l plugin_dirs in
            let l2 := build_graph l1 ms in
            match Resolver.resolve_dependencies (dependency_resolver l2) with
            | (Resolver.CircularDependency _, r) => (Returned ∅, set_resolver l2 r)
            | (Resolver.Diverged, r) => (BatchDiverged, set_resolver l2 r)
            | (Resolver.Order load_order, r) =>
                let l3 := inject_roots (load_in_order w (set_resolver l2 r) load_order) in
                (Returned (plugins l3), l3)
            end
        end
    end.

(** The resolver as [load_all_plugins] has filled it when it asks for
    the load order. *)
Definition batch_resolver (w : World) (l : PluginLoader)
  : Resolver.DependencyResolver :=
  let '(ms, l1) := scan w l (candidates w) in
  dependency_resolver (build_graph l1 ms).

(** How [reload_plugin] ends: it returns a boolean, or the exception of
    the old instance's [shutdown] (or a [KeyError]) leaves it. *)
Inductive reload_result : Type :=
| Reloaded (ok : bool)
| ReloadRaised.

Definition remove (l : PluginLoader) (plugin_name : string) : PluginLoader :=
  {| plugins := delete plugin_name (plugins l);
     plugin_metadata := delete plugin_name (plugin_metadata l);
     permission_manager := permission_manager l;
     audit_root_paths := audit_root_paths l;
     declared_dependencies := declared_dependencies l;
     version_constraints := version_constraints l;
     plugin_root_paths := delete plugin_name (plugin_root_paths l);
     dependency_resolver := dependency_resolver l;
     engine := engine l; lock_files := lock_files l |}.

Definition remove_instance_only (l : PluginLoader) (plugin_name : string)
  : PluginLoader :=
  {| plugins := delete plugin_name (plugins l);
     plugin_metadata := plugin_metadata l;
     permission_manager := permission_manager l;
     audit_root_paths := audit_root_paths l;
     declared_dependencies := declared_dependencies l;
     version_constraints := version_constraints l;
     plugin_root_paths := plugin_root_paths l;
     dependency_resolver := dependency_resolver l;
     engine := engine l; lock_files := lock_files l |}.

(** [plugin is not None]. *)
Definition is_not_none (plugin : option PluginInterface) : bool :=
  match plugin with
  | Some _ => true
  | None => false
  end.

Definition reload_plugin (w : World) (l : PluginLoader) (plugin_name : string)
  : reload_result * PluginLoader :=
  match plugins l !! plugin_name with
  | Some old =>
      if shutdown_raises old then (ReloadRaised, l)
      else
        match plugin_metadata l !! plugin_name with
        | None => (ReloadRaised, remove_instance_only l plugin_name)
        | Some _ =>
            let '(plugin, l') := load_plugin w (remove l plugin_name) plugin_name in
            (Reloaded (is_not_none plugin), l')
        end
  | None =>
      let '(plugin, l') := load_plugin w l plugin_name in
      (Reloaded (is_not_none plugin), l')
  end.

End Loader.

(** ** The request context ([RequestContext], interface.py) *)

Module Ctx.

(** Why [_resolve_plugin] raises: three [KeyError]s and a [ValueError]. *)
Inductive resolve_error : Type :=
| MetaPluginNotFound (meta_plugin_name : string)
| NotAMetaPlugin (meta_plugin_name : string)
| SubpluginNotFound (subplugin_name meta_plugin_name : string)
| PluginNotFound (plugin_name : string).

(** The exceptions of a chain run.  [Interrupt] stands for what is a
    [BaseException] without being an [Exception]: a [CancelledError] of
    the event loop, [SystemExit], [KeyboardInterrupt]; every other
    constructor is an [Exception].  [NoAppendMethod] is the
    [AttributeError] of [response_data["errors"].append] on a value
    without [append]. *)
Inductive exn : Type :=
| HandlerError (message : string)   (* raised by plugin code; [str(e)] is [message] *)
| Interrupt (name : string)         (* raised in plugin code, not an [Exception] *)
| ResolveError (e : resolve_error)
| NoNextPlugin                      (* calling a continuation that is [None] *)
| NoAppendMethod.

(** [isinstance(e, Exception)]. *)
Definition is_exception (e : exn) : bool :=
  match e with
  | Interrupt _ => false
  | _ => true
  end.

(** The entries of the trace log, one constructor for each message of
    the runner; the time stamp that prefixes a message is left out. *)
Inductive trace_entry : Type :=
| TraceEnabled (request_id : pyval)
| FoundInCache (route : string) (chain : list string)
| NotInCache (route : string)
| InitialChain (chain : list string)
| MetaChainResolved (meta_chain_key : string)
| Expanding (plugin_ref : string) (preset_chain : list string)
| SkippingNext
| AddingNormal (plugin_ref : string)
| ResolvedAndCached (route : string) (chain : list string)
| NoChainConfigured
| NoDefaultChain
| UsingDefault (chain : list string)
| Validating
| ValidationFailed (route : string) (missing : list (string * resolve_error))
| AllValid
| ShortCircuitedAt (index : nat)   (* "Chain short-circuited at index {index}. Halting execution." *)
| ReachedEnd
| Executing (index : nat) (plugin_name : string)   (* "Executing plugin at index {index}: '{plugin_name}'" *)
| FinishedSuccessfully (plugin_name : string)
| ExecutionFailed (plugin_name : string) (e : exn)
| ChainFinished
| ResolvingSubPlugin (plugin_name : string)
| FoundMetaPlugin (meta_plugin_name : string)
| ResolvedSubPlugin (subplugin_name : string)
| ResolvingNormal (plugin_name : string)
| ResolvedNormal (plugin_name : string)
| Note (message : string).   (* an entry added by plugin code *)

(** An element of [response_data["errors"]]: [{"plugin": .., "error": str(e)}]. *)
Record error_entry : Type := {
  plugin : string;
  error : exn
}.

(** The value of [response_data["error"]]. *)
Inductive error_value : Type :=
| PluginMessage (message : string)
| NoHandlersConfigured (route : string)
    (* "No handlers configured for route: {route}" *)
| MissingPlugins (route : string) (missing : list (string * resolve_error))
    (* "Missing or invalid plugins for route {route}: {missing_plugins}" *)
| ChainExecutionFailed (e : exn).
    (* "Plugin chain execution failed: {str(e)}" *)

(** An item of the list under ["errors"]: an entry of the runner, or
    whatever else plugin code has put there. *)
Inductive error_item : Type :=
| Entry (e : error_entry)
| Other (v : pyval).

(** The value under ["errors"], a key any handler may write (through
    [respond] or [error] with extra keys, or directly): a list, or a value
    that has no [append], such as [None], a [str], a number, a tuple or a
    dict. *)
Inductive errors_value : Type :=
| ErrorList (items : list error_item)
| NotAList (v : pyval).

(** [response_data], a dict as its declared type says and as [respond],
    [error] and [short_circuit] leave it: the keys the runner writes and
    the other keys. *)
Record response : Type := {
  error_key : option error_value;         (* "error" *)
  errors : option errors_value;           (* "errors" *)
  _trace : option (list trace_entry);     (* "_trace" *)
  other_keys : gmap string pyval
}.

Definition empty_response : response :=
  {| error_key := None; errors := None; _trace := None; other_keys := ∅ |}.

Record RequestContext : Type := {
  request_data : gmap string pyval;
  response_data : response;
  user_id : option string;
  current_plugin_name : option string;
  route : option string;
  is_short_circuited : bool;
  trace_log : option (list trace_entry);
  _shared_state : gmap string pyval
}.

(** [RequestContext(request_data=request_data)]. *)
Definition new (request_data : gmap string pyval) : RequestContext :=
  {| request_data := request_data; response_data := empty_response;
     user_id := None; current_plugin_name := None; route := None;
     is_short_circuited := false; trace_log := None; _shared_state := ∅ |}.

Definition add_trace (c : RequestContext) (message : trace_entry) : RequestContext :=
  match trace_log c with
  | None => c
  | Some log =>
      {| request_data := request_data c; response_data := response_data c;
         user_id := user_id c; current_plugin_name := current_plugin_name c;
         route := route c; is_short_circuited := is_short_circuited c;
         trace_log := Some (log ++ [message]);
         _shared_state := _shared_state c |}
  end.

Definition set_response (c : RequestContext) (r : response) : RequestContext :=
  {| request_data := request_data c; response_data := r;
     user_id := user_id c; current_plugin_name := current_plugin_name c;
     route := route c; is_short_circuited := is_short_circuited c;
     trace_log := trace_log c; _shared_state := _shared_state c |}.

Definition set_short_circuited (c : RequestContext) (b : bool) : RequestContext :=
  {| request_data := request_data c; response_data := response_data c;
     user_id := user_id c; current_plugin_name := current_plugin_name c;
     route := route c; is_short_circuited := b;
     trace_log := trace_log c; _shared_state := _shared_state c |}.

Definition set_current_plugin (c : RequestContext) (n : string) : RequestContext :=
  {| request_data := request_data c; response_data := response_data c;
     user_id := user_id c; current_plugin_name := Some n;
     route := route c; is_short_circuited := is_short_circuited c;
     trace_log := trace_log c; _shared_state := _shared_state c |}.

Definition set_user_id (c : RequestContext) (u : string) : RequestContext :=
  {| request_data := request_data c; response_data := response_data c;
     user_id := Some u; current_plugin_name := current_plugin_name c;
     route := route c; is_short_circuited := is_short_circuited c;
     trace_log := trace_log c; _shared_state := _shared_state c |}.

Definition set_trace_log (c : RequestContext) (t : option (list trace_entry))
  : RequestContext :=
  {| request_data := request_data c; response_data := response_data c;
     user_id := user_id c; current_plugin_name := current_plugin_name c;
     route := route c; is_short_circuited := is_short_circuited c;
     trace_log := t; _shared_state := _shared_state c |}.

(** The items under ["errors"] when the key is missing or holds a list. *)
Definition errors_items (r : response) : option (list error_item) :=
  match errors r with
  | None => Some []
  | Some (ErrorList items) => Some items
  | Some (NotAList _) => None
  end.

(** [response_data["errors"].append(entry)], the list being created when
    the key is missing; [None] is the [AttributeError] raised when the key
    holds a value without [append]. *)
Definition append_error (r : response) (e : error_entry) : option response :=
  match errors_items r with
  | Some items =>
      Some {| error_key := error_key r;
              errors := Some (ErrorList (items ++ [Entry e]));
              _trace := _trace r; other_keys := other_keys r |}
  | None => None
  end.

(** [response_data = {"error": v}]. *)
Definition error_response (v : error_value) : response :=
  {| error_key := Some v; errors := None; _trace := None; other_keys := ∅ |}.

(** Truth value of a Python value. *)
Definition truthy (v : pyval) : bool :=
  match v with
  | PNone => false
  | PStr s => negb (String.eqb s "")
  | PBytes b => negb (String.eqb b "")
  | PInt z => negb (Z.eqb z 0)
  | PSeq items => match items with [] => false | _ => true end
  | PObj => true
  end.

End Ctx.

(** ** The chain runner ([ChainRunner], chain_runner.py) *)

Module Chain.
Import Ctx.

(** What a call of [plugin.handle(context, next_plugin)] does, as a tree:
    the handler works on the context and returns, or raises, or awaits the
    continuation and goes on from the context the later steps leave and
    the exception they raised, if any.  The handler passes on the context
    object it was given. *)
Inductive action : Type :=
| Return (c : RequestContext)
| Throw (c : RequestContext) (e : exn)
| CallNext (c : RequestContext) (k : RequestContext -> option exn -> action).

Definition handler : Type := RequestContext -> action.

(** A preset chain of a meta-plugin: the ["plugins"] entry of its dict,
    and whether the dict has other entries. *)
Record chain_def : Type := {
  def_plugins : option (list string);
  def_has_other_keys : bool
}.

(** What only a [MetaPlugin] has. *)
Record meta_part : Type := {
  subplugins : gmap string handler;
  chains : gmap string chain_def
}.

Record Plugin : Type := {
  handle : handler;
  meta : option meta_part
}.

(** An item of a route's ["chain"] list in the configuration. *)
Inductive plugin_def : Type :=
| DefDict (plugin_entry : option string)
| DefStr (s : string).

Record ChainRunner : Type := {
  plugins : gmap string Plugin;
  (** [settings.routes.routes], by route, to the ["chain"] list. *)
  routes_config : gmap string (list plugin_def);
  _chain_cache : gmap string (list string)
}.

Definition clear_cache (r : ChainRunner) : ChainRunner :=
  {| plugins := plugins r; routes_config := routes_config r;
     _chain_cache := ∅ |}.

Definition set_cache (r : ChainRunner) (route : string) (chain : list string)
  : ChainRunner :=
  {| plugins := plugins r; routes_config := routes_config r;
     _chain_cache := <[route := chain]> (_chain_cache r) |}.

(** [RoutesConfig.get_chain_for_route]. *)
Definition config_chain (r : ChainRunner) (route : string) : list string :=
  flat_map (fun d => match d with
                     | DefDict (Some p) => [p]
                     | DefDict None => []
                     | DefStr s => [s]
                     end)
           (default [] (routes_config r !! route)).

(** The local [trace] of the resolution functions. *)
Definition trace (context : option RequestContext) (msg : trace_entry)
  : option RequestContext :=
  match context with
  | Some c => Some (add_trace c msg)
  | None => None
  end.

Definition def_truthy (d : chain_def) : bool :=
  match def_plugins d with
  | Some _ => true
  | None => def_has_other_keys d
  end.

(** The lookup of a route of the form ["meta_plugin:chain_name"]. *)
Definition meta_route_chain (r : ChainRunner) (route : string)
    (context : option RequestContext) : list string * option RequestContext :=
  match Str.split_once ":"%char (Str.lstrip "/"%char route) with
  | None => ([], context)
  | Some (meta_plugin_name, chain_name) =>
      match plugins r !! meta_plugin_name with
      | Some {| meta := Some m |} =>
          let meta_chain_key := meta_plugin_name +:+ ":" +:+ chain_name in
          match chains m !! meta_chain_key with
          | Some meta_chain_def =>
              if def_truthy meta_chain_def then
                (default [] (def_plugins meta_chain_def),
                 trace context (MetaChainResolved meta_chain_key))
              else ([], context)
          | None => ([], context)
          end
      | _ => ([], context)
      end
  end.

(** The preset chain a reference stands for, if it is one. *)
Definition preset_of (r : ChainRunner) (plugin_ref : string) : option (list string) :=
  if Str.has_char ":"%char plugin_ref && negb (Str.startswith plugin_ref "http") then
    match Str.split_once ":"%char plugin_ref with
    | Some (meta_plugin_name, _) =>
        match plugins r !! meta_plugin_name with
        | Some {| meta := Some m |} =>
            match chains m !! plugin_ref with
            | Some preset_chain_def => Some (default [] (def_plugins preset_chain_def))
            | None => None
            end
        | _ => None
        end
    | None => None
    end
  else None.

Fixpoint splice (preset_chain : list string) (expanded_chain : list string)
    (context : option RequestContext) : list string * option RequestContext :=
  match preset_chain with
  | [] => (expanded_chain, context)
  | item :: rest =>
      if String.eqb item "__NEXT__" then
        splice rest expanded_chain (trace context SkippingNext)
      else splice rest (expanded_chain ++ [item]) context
  end.

Fixpoint expand (r : ChainRunner) (chain : list string) (expanded_chain : list string)
    (context : option RequestContext) : list string * option RequestContext :=
  match chain with
  | [] => (expanded_chain, context)
  | plugin_ref :: rest =>
      match preset_of r plugin_ref with
      | Some preset_chain =>
          let '(expanded_chain, context) :=
            splice preset_chain expanded_chain
                   (trace context (Expanding plugin_ref preset_chain)) in
          expand r rest expanded_chain context
      | None =>
          expand r rest (expanded_chain ++ [plugin_ref])
                 (trace context (AddingNormal plugin_ref))
      end
  end.

Definition get_chain_for_route (r : ChainRunner) (route : string)
    (context : option RequestContext)
  : list string * ChainRunner * option RequestContext :=
  match _chain_cache r !! route with
  | Some chain => (chain, r, trace context (FoundInCache route chain))
  | None =>
      let context := trace context (NotInCache route) in
      let chain := config_chain r route in
      let context := trace context (InitialChain chain) in
      let '(chain, context) :=
        match chain with
        | [] => if Str.has_char ":"%char route
                then meta_route_chain r route context
                else (chain, context)
        | _ :: _ => (chain, context)
        end in
      let '(expanded_chain, context) := expand r chain [] context in
      (expanded_chain, set_cache r route expanded_chain,
       trace context (ResolvedAndCached route expanded_chain))
  end.

Definition get_default_chain_for_route (r : ChainRunner) : list string :=
  match plugins r !! "auth_plugin" with
  | Some _ => ["auth_plugin"]
  | None => []
  end.

(** [_resolve_plugin]: the handler of the plugin or sub-plugin, or the
    error raised, with the context as traced so far. *)
Definition _resolve_plugin (r : ChainRunner) (plugin_name : string)
    (context : option RequestContext)
  : (handler + resolve_error) * option RequestContext :=
  if Str.has_char "."%char plugin_name then
    let context := trace context (ResolvingSubPlugin plugin_name) in
    match Str.split_once "."%char plugin_name with
    | None => (inr (PluginNotFound plugin_name), context)
    | Some (meta_plugin_name, subplugin_name) =>
        match plugins r !! meta_plugin_name with
        | None => (inr (MetaPluginNotFound meta_plugin_name), context)
        | Some meta_plugin =>
            let context := trace context (FoundMetaPlugin meta_plugin_name) in
            match meta meta_plugin with
            | None => (inr (NotAMetaPlugin meta_plugin_name), context)
            | Some m =>
                match subplugins m !! subplugin_name with
                | None =>
                    (inr (SubpluginNotFound subplugin_name meta_plugin_name), context)
                | Some subplugin =>
                    (inl subplugin, trace context (ResolvedSubPlugin subplugin_name))
                end
            end
        end
    end
  else
    let context := trace context (ResolvingNormal plugin_name) in
    match plugins r !! plugin_name with
    | None => (inr (PluginNotFound plugin_name), context)
    | Some p => (inl (handle p), trace context (ResolvedNormal plugin_name))
    end.

(** The state of a run: the context, and the calls of [handle] made so
    far, each with the index and the name of its step.  The list of calls
    is kept by the model; no handler can change it. *)
Record run_state : Type := {
  context : RequestContext;
  calls : list (nat * string)
}.

Definition with_context (s : run_state) (c : RequestContext) : run_state :=
  {| context := c; calls := calls s |}.

(** A call of [handle] with continuation [next]. *)
Fixpoint run_action (next : option (run_state -> run_state * option exn))
    (a : action) (calls : list (nat * string)) : run_state * option exn :=
  match a with
  | Return c => ({| context := c; calls := calls |}, None)
  | Throw c e => ({| context := c; calls := calls |}, Some e)
  | CallNext c k =>
      match next with
      | None => run_action next (k c (Some NoNextPlugin)) calls
      | Some continue =>
          let '(s, e) := continue {| context := c; calls := calls |} in
          run_action next (k (context s) e) (Chain.calls s)
      end
  end.

(** The [except Exception] block of [_execute_chain]; [None] when the
    append raises, the trace entry having been added and the flag not
    yet set. *)
Definition record_failure (c : RequestContext) (plugin_name : string) (e : exn)
  : option RequestContext :=
  let c := add_trace c (ExecutionFailed plugin_name e) in
  match append_error (response_data c) {| plugin := plugin_name; error := e |} with
  | Some r => Some (set_short_circuited (set_response c r) true)
  | None => None
  end.

(** [_execute_chain(context, plugin_chain, index)], where [rest] is
    [plugin_chain[index:]]. *)
Fixpoint execute_from (r : ChainRunner) (rest : list string) (index : nat)
    (s : run_state) : run_state * option exn :=
  if is_short_circuited (context s) then
    (with_context s (add_trace (context s) (ShortCircuitedAt index)), None)
  else
    match rest with
    | [] => (with_context s (add_trace (context s) ReachedEnd), None)
    | plugin_name :: rest' =>
        let c := set_current_plugin (context s) plugin_name in
        let c := add_trace c (Executing index plugin_name) in
        match _resolve_plugin r plugin_name (Some c) with
        | (inr e, c') =>
            (with_context s (default c c'), Some (ResolveError e))
        | (inl plugin_handle, c') =>
            let c := default c c' in
            let next_plugin_callback :=
              match rest' with
              | [] => None
              | _ :: _ => Some (execute_from r rest' (S index))
              end in
            match run_action next_plugin_callback (plugin_handle c)
                             (calls s ++ [(index, plugin_name)]) with
            | (s', None) =>
                (with_context s'
                   (add_trace (context s') (FinishedSuccessfully plugin_name)),
                 None)
            | (s', Some e) =>
                if is_exception e then
                  match record_failure (context s') plugin_name e with
                  | Some c => (with_context s' c, None)
                  | None =>
                      (with_context s'
                         (add_trace (context s') (ExecutionFailed plugin_name e)),
                       Some NoAppendMethod)
                  end
                else (s', Some e)
            end
        end
    end.

Definition _execute_chain (r : ChainRunner) (plugin_chain : list string)
    (index : nat) (s : run_state) : run_state * option exn :=
  execute_from r (drop index plugin_chain) index s.

(** The continuation handed to the handler of step [index]. *)
Definition next_plugin_callback (r : ChainRunner) (plugin_chain : list string)
    (index : nat) : option (run_state -> run_state * option exn) :=
  match drop (S index) plugin_chain with
  | [] => None
  | _ :: _ => Some (_execute_chain r plugin_chain (S index))
  end.

(** The validation loop of [run]. *)
Fixpoint validate (r : ChainRunner) (plugin_chain : list string)
    (c : RequestContext) (missing_plugins : list (string * resolve_error))
  : list (string * resolve_error) * RequestContext :=
  match plugin_chain with
  | [] => (missing_plugins, c)
  | plugin_name :: rest =>
      match _resolve_plugin r plugin_name (Some c) with
      | (inl _, c') => validate r rest (default c c') missing_plugins
      | (inr e, c') =>
          validate r rest (default c c') (missing_plugins ++ [(plugin_name, e)])
      end
  end.

(** How a call ends for the caller. *)
Inductive outcome : Type :=
| Returns (c : RequestContext)
| Raises (e : exn).

(** The [try] block of [run]. *)
Definition run_body (r : ChainRunner) (route : string)
    (request_data : gmap string pyval)
  : (run_state * option exn) * ChainRunner :=
  let c := new request_data in
  let c :=
    if truthy (default PNone (request_data !! "_trace")) then
      add_trace (set_trace_log c (Some []))
                (TraceEnabled (default PNone (request_data !! "request_id")))
    else c in
  let '(plugin_chain, r, c') := get_chain_for_route r route (Some c) in
  let c := default c c' in
  let fallback :=
    match plugin_chain with
    | [] =>
        let c := add_trace c NoChainConfigured in
        match get_default_chain_for_route r with
        | [] => inl (set_response (add_trace c NoDefaultChain)
                       (error_response (NoHandlersConfigured route)))
        | d => inr (d, add_trace c (UsingDefault d))
        end
    | _ :: _ => inr (plugin_chain, c)
    end in
  match fallback with
  | inl c => ({| context := c; calls := [] |}, None, r)
  | inr (plugin_chain, c) =>
      let c := add_trace c Validating in
      match validate r plugin_chain c [] with
      | (m :: ms, c) =>
          let c := add_trace c (ValidationFailed route (m :: ms)) in
          ({| context := set_response c (error_response (MissingPlugins route (m :: ms)));
              calls := [] |}, None, r)
      | ([], c) =>
          let c := add_trace c AllValid in
          let c :=
            match request_data !! "user_id" with
            | Some v => if truthy v then set_user_id c (py_str v) else c
            | None => c
            end in
          match _execute_chain r plugin_chain 0 {| context := c; calls := [] |} with
          | (s, Some e) => (s, Some e, r)
          | (s, None) =>
              let c := add_trace (context s) ChainFinished in
              let c :=
                match trace_log c with
                | Some log =>
                    set_response c
                      {| error_key := error_key (response_data c);
                         errors := errors (response_data c);
                         _trace := Some log;
                         other_keys := other_keys (response_data c) |}
                | None => c
                end in
              (with_context s c, None, r)
          end
      end
  end.

(** [run]: an [Exception] of the [try] block is turned into a response,
    anything else leaves the call. *)
Definition run (r : ChainRunner) (route : string) (request_data : gmap string pyval)
  : outcome * list (nat * string) * ChainRunner :=
  match run_body r route request_data with
  | (s, None, r') => (Returns (context s), calls s, r')
  | (s, Some e, r') =>
      if is_exception e then
        let c := new request_data in
        let c := set_response c (error_response (ChainExecutionFailed e)) in
        (Returns (set_short_circuited c true), calls s, r')
      else (Raises e, calls s, r')
  end.

End Chain.

(** ** A small installation, for the concrete checks *)

Module Sample.

Definition read_only : list Ledger.SandboxPermission :=
  [ {| Ledger.type := "file"; Ledger.resource := Some "read";
       Ledger.description := "" |} ].

Definition read_and_subprocess : list Ledger.SandboxPermission :=
  [ {| Ledger.type := "file"; Ledger.resource := Some "read";
       Ledger.description := "" |};
    {| Ledger.type := "system"; Ledger.resource := Some "subprocess";
       Ledger.description := "" |} ].

(** Plugin [p] holds [file.read.plugin]; plugin [q] holds
    [file.read.plugin] and [system.subprocess]. *)
Definition ledger : Ledger.SandboxPermissionManager :=
  Ledger.grant_permissions Engine.default_engine
    (Ledger.grant_permissions Engine.default_engine Ledger.init "p" read_only)
    "q" read_and_subprocess.

Definition manager : Audit.AuditHookManager :=
  {| Audit.permission_manager := ledger;
     Audit.plugin_root_paths :=
       {[ "p" := "/srv/app/plugins/p"; "q" := "/srv/app/plugins/q" ]};
     Audit.permission_engine := Engine.default_engine |}.

Definition as_plugin (n : string) : Audit.Process :=
  {| Audit.getcwd := Some "/srv/app"; Audit.current_plugin := Some n |}.

(** A plugin directory with two installed plugins and no lock file at
    all: [suite] is a group (it has a [group.yml]) whose manifest asks for
    [system/subprocess]; [solo] is a plain plugin. *)
Definition world : Loader.World :=
  {| Loader.plugin_dir := "/srv/app/plugins";
     Loader.plugin_dir_exists := true;
     Loader.directories := ["solo"; "suite"];
     Loader.is_plugin_dir := fun _ => true;
     Loader.registry_info := fun _ => true;
     Loader.installed_names := ["solo"; "suite"];
     Loader.signature_verified := fun _ => true;
     Loader.has_group_yml := String.eqb "suite";
     Loader.has_module_file := fun _ => true;
     Loader.manifest := fun _ =>
       Some {| Loader.manifest_version := "1.0.0";
               Loader.manifest_deps := [];
               Loader.manifest_permissions :=
                 Loader.Entries
                   [ Some {| Loader.raw_type := Some "system";
                             Loader.raw_resource := Some "subprocess";
                             Loader.raw_description := "" |} ] |};
     Loader.instantiate := fun n =>
       Some {| Loader.is_meta_plugin := String.eqb n "suite";
               Loader.initialize_raises := false;
               Loader.initialize_denials := [];
               Loader.shutdown_raises := false;
               Loader.group_sizes_raise := false |};
     Loader.import_effect := fun _ files => files;
     Loader.lock_writable := fun _ => true;
     Loader.subplugin_grants := fun _ => [];
     Loader.group_setup_raises := fun _ => false;
     Loader.enabled := [];
     Loader.auto_load := true;
     Loader.parse_version := fun v =>
       if String.eqb v "not-a-version" then Loader.Invalid else Loader.Parsed;
     Loader.specifier_set := fun c =>
       if String.eqb c "=>1" then Loader.Invalid else Loader.Parsed;
     Loader.version_in_spec := fun _ _ => false |}.

(** A loader in which [solo] is loaded. *)
Definition solo_instance : Loader.PluginInterface :=
  {| Loader.is_meta_plugin := false; Loader.initialize_raises := false;
     Loader.initialize_denials := [];
     Loader.shutdown_raises := false; Loader.group_sizes_raise := false |}.

Definition solo_metadata : Loader.PluginMetadata :=
  {| Loader.name := "solo"; Loader.version := "1.0.0";
     Loader.dependencies := []; Loader.permissions := [] |}.

Definition loader_with_solo : Loader.PluginLoader :=
  Loader.store Loader.init solo_metadata solo_instance.

(** Scenario B of the specification: route [/chat] runs [auth], which
    raises, and then [provider]. *)
Definition auth : Chain.Plugin :=
  {| Chain.handle := fun c => Chain.Throw c (Ctx.HandlerError "invalid token");
     Chain.meta := None |}.

Definition provider : Chain.Plugin :=
  {| Chain.handle := fun c =>
       Chain.Return
         (Ctx.set_response c
            {| Ctx.error_key := None; Ctx.errors := Ctx.errors (Ctx.response_data c);
               Ctx._trace := None;
               Ctx.other_keys := {[ "content" := PStr "hello" ]} |});
     Chain.meta := None |}.

Definition runner : Chain.ChainRunner :=
  {| Chain.plugins := {[ "auth" := auth; "provider" := provider ]};
     Chain.routes_config :=
       {[ "/chat" := [Chain.DefDict (Some "auth"); Chain.DefDict (Some "provider")] ]};
     Chain._chain_cache := ∅ |}.

(** The same runner after [provider] has been taken away. *)
Definition runner_without_provider : Chain.ChainRunner :=
  {| Chain.plugins := {[ "auth" := auth ]};
     Chain.routes_config := Chain.routes_config runner;
     Chain._chain_cache := ∅ |}.

(** The state in which [run] enters the chain for a request without
    tracing. *)
Definition entry : Chain.run_state :=
  {| Chain.context := Ctx.new ∅; Chain.calls := [] |}.


(** A dependency cycle of three plugins. *)
Definition cycle3 : Resolver.graph :=
  [("a", ["b"]); ("b", ["c"]); ("c", ["a"])].

End Sample.

(** ** Further operations of the runtime *)

(** *** Declarations against the registry ([permission_engine.py]) *)

Module Declaration.

(** The test [find_definition_for_declaration] applies to a registered
    definition: the types are equal and, when the definition has a
    non-empty pattern, the declared resource is non-empty and matches it;
    a definition whose pattern is the empty string never qualifies. *)
Definition answers (perm : Engine.PermissionDefinition) (decl_type : string)
    (decl_resource : option string) : bool :=
  String.eqb (Engine.match_type perm) decl_type
  && match Engine.match_resource_pattern perm with
     | Some pat =>
         negb (String.eqb pat "")
         && match decl_resource with
            | Some r => negb (String.eqb r "") && Str.fnmatch r pat
            | None => false
            end
     | None => true
     end.

(** [is_valid_permission_type]. *)
Definition is_valid_permission_type (e : Engine.PermissionEngine)
    (perm_type : string) : bool :=
  existsb (fun kv => String.eqb (Engine.match_type (snd kv)) perm_type)
          (Engine._permissions e).

(** No key of the event map is the event or a prefix of it. *)
Definition ungoverned (e : Engine.PermissionEngine) (event : string) : bool :=
  forallb (fun kv => negb (Str.startswith event (fst kv))) (Engine._event_map e).

End Declaration.

(** *** The hook manager as a singleton ([AuditHookManager], audit_sandbox.py) *)

Module Activation.

(** The one instance of the class: its permission manager, if it was given
    one, and [is_active]. *)
Record instance : Type := {
  permission_manager : option Ledger.SandboxPermissionManager;
  is_active : bool
}.

(** The process: [AuditHookManager._instance] and the number of hooks
    handed to [sys.addaudithook], which cannot be taken back. *)
Record process : Type := {
  _instance : option instance;
  audit_hooks : nat
}.

Definition start : process := {| _instance := None; audit_hooks := 0 |}.

(** [AuditHookManager(permission_manager)] ([__new__] and [__init__]): the
    first call makes the instance, every later call finds it initialised
    and leaves it alone. *)
Definition construct (pm : option Ledger.SandboxPermissionManager) (p : process)
  : process :=
  match _instance p with
  | Some _ => p
  | None =>
      {| _instance := Some {| permission_manager := pm; is_active := false |};
         audit_hooks := audit_hooks p |}
  end.

(** [get_audit_manager(permission_manager)]. *)
Definition get_audit_manager (pm : option Ledger.SandboxPermissionManager)
    (p : process) : process := construct pm p.

(** [activate()] on the instance: [None] is the [RuntimeError] raised when
    there is no permission manager.  Before the first construction there
    is no object to call it on, and nothing happens. *)
Definition activate (p : process) : option process :=
  match _instance p with
  | None => Some p
  | Some i =>
      if is_active i then Some p
      else
        match permission_manager i with
        | None => None
        | Some pm =>
            Some {| _instance := Some {| permission_manager := Some pm;
                                         is_active := true |};
                    audit_hooks := S (audit_hooks p) |}
        end
  end.

(** A call made on the class by the rest of the program. *)
Inductive call : Type :=
| Construct (pm : option Ledger.SandboxPermissionManager)
| Activate.

(** A sequence of calls; a [RuntimeError] of [activate] is caught by the
    caller and the program goes on. *)
Fixpoint run (calls : list call) (p : process) : process :=
  match calls with
  | [] => p
  | Construct pm :: rest => run rest (construct pm p)
  | Activate :: rest =>
      match activate p with
      | Some p' => run rest p'
      | None => run rest p
      end
  end.

Definition is_activate (c : call) : bool :=
  match c with
  | Activate => true
  | Construct _ => false
  end.

End Activation.

(** *** Unloading and root routes ([PluginLoader], loader.py) *)

Module LoaderOps.
Import Loader.

(** [unload_plugin]: [False] when the plugin is not loaded or its
    [shutdown] raises (the exception is caught), [True] once the instance,
    the metadata and the root path have been deleted.  A missing metadata
    entry raises a [KeyError] after the instance is gone; it is caught
    too. *)
Definition unload_plugin (l : PluginLoader) (plugin_name : string)
  : bool * PluginLoader :=
  match plugins l !! plugin_name with
  | None => (false, l)
  | Some old =>
      if shutdown_raises old then (false, l)
      else
        match plugin_metadata l !! plugin_name with
        | None => (false, remove_instance_only l plugin_name)
        | Some _ => (true, remove l plugin_name)
        end
  end.

(** [get_plugin] and [get_plugin_metadata]. *)
Definition get_plugin (l : PluginLoader) (plugin_name : string)
  : option PluginInterface := plugins l !! plugin_name.

Definition get_plugin_metadata (l : PluginLoader) (plugin_name : string)
  : option PluginMetadata := plugin_metadata l !! plugin_name.

(** [get_permission_violations]. *)
Definition get_permission_violations (l : PluginLoader) (plugin_name : string)
  : list violation :=
  Ledger.get_violations (permission_manager l) plugin_name.

(** [RESERVED_PREFIXES] of [_create_safe_router_registrar]. *)
Definition RESERVED_PREFIXES : list string :=
  ["/api"; "/admin"; "/docs"; "/redoc"; "/metrics"; "/static"].

(** How a call of the registrar ends. *)
Inductive registration : Type :=
| Registered (prefix : string)      (* [app.include_router(router, prefix=prefix)] *)
| NotAuthorized (prefix : string)   (* [PermissionError] *)
| Reserved (prefix : string).       (* [SecurityError] *)

(** The [safe_registrar] closure made for a permission whose resource is
    [allowed_prefix] ([None] when the permission has no resource). *)
Definition safe_registrar (allowed_prefix : option string) (prefix : string)
  : registration :=
  if negb (bool_decide (Some prefix = allowed_prefix)) then NotAuthorized prefix
  else if existsb (fun reserved => Str.startswith prefix reserved) RESERVED_PREFIXES
  then Reserved prefix
  else Registered prefix.

(** [_create_safe_router_registrar]: no registrar without an application. *)
Definition _create_safe_router_registrar (has_app : bool)
    (allowed_prefix : option string) : option (string -> registration) :=
  if has_app then Some (safe_registrar allowed_prefix) else None.

(** The ledger of [l'] holds every capability that the ledger of [l]
    holds, and the violations of every plugin in [l'] begin with its
    violations in [l]. *)
Definition ledger_grows (l l' : PluginLoader) : Prop :=
  (forall q c, c ∈ Ledger.granted (permission_manager l) q ->
               c ∈ Ledger.granted (permission_manager l') q)
  /\ (forall q, Ledger.get_violations (permission_manager l) q
                `prefix_of` Ledger.get_violations (permission_manager l') q).



(** The names of the dependencies the manifest of a plugin declares, as
    [_load_plugin_metadata] reads them. *)
Definition declared_names (w : World) (plugin_name : string) : list string :=
  map fst (map _parse_dependency_spec
               (match manifest w plugin_name with
                | Some m => manifest_deps m
                | None => []
                end)).

(** What loading the plugin [n] may do to a loader: the instances and
    the declared dependencies of the other plugins stay, no metadata is
    lost, the entry of [n] in the declared dependencies is as before or
    the one of its manifest, the ledger grows and the resolver is as it
    was. *)
Definition touches_only (w : World) (n : string) (l l' : PluginLoader) : Prop :=
  (forall m, m <> n -> plugins l' !! m = plugins l !! m)
  /\ (forall d, is_Some (plugin_metadata l !! d) -> is_Some (plugin_metadata l' !! d))
  /\ (forall m, m <> n -> declared_dependencies l' !! m = declared_dependencies l !! m)
  /\ (declared_dependencies l' !! n = declared_dependencies l !! n
      \/ declared_dependencies l' !! n = Some (declared_names w n))
  /\ ledger_grows l l'
  /\ dependency_resolver l' = dependency_resolver l.

End LoaderOps.

(** *** The default handlers ([PluginInterface.handle], interface.py) *)

Module Handlers.
Import Ctx Chain.

(** [PluginInterface.handle] and [MetaPlugin.handle]: await the
    continuation when there is one, and do nothing else.  In the tree of
    the handler the test [if next_plugin] is the continuation call
    answering [NoNextPlugin] at once; an exception of a later step goes
    through. *)
Definition default_handle : handler :=
  fun c =>
    CallNext c (fun c' e =>
                  match e with
                  | None => Return c'
                  | Some NoNextPlugin => Return c'
                  | Some x => Throw c' x
                  end).

(** A plain plugin with the default handler. *)
Definition pass_through : Plugin := {| handle := default_handle; meta := None |}.

(** A handler that answers by itself: it updates the context with [f] and
    returns without awaiting its continuation. *)
Definition terminal (f : RequestContext -> RequestContext) : handler :=
  fun c => Return (f c).

(** The positions and names of the steps from [index] on. *)
Fixpoint steps (index : nat) (names : list string) : list (nat * string) :=
  match names with
  | [] => []
  | n :: rest => (index, n) :: steps (S index) rest
  end.

(** The image of a chain under the expansion of presets: the list
    [get_chain_for_route] builds, written without the loop. *)
Definition expanded (r : ChainRunner) (chain : list string) : list string :=
  flat_map (fun plugin_ref =>
              match preset_of r plugin_ref with
              | Some preset_chain =>
                  List.filter (fun item => negb (String.eqb item "__NEXT__"))
                              preset_chain
              | None => [plugin_ref]
              end) chain.

(** A context without its trace log: what a handler can observe of it
    when tracing plays no part. *)
Definition untraced (c : RequestContext) : RequestContext := set_trace_log c None.

(** The plugin named [n] is a plain plugin that keeps the default
    handler. *)
Definition passes_through (r : ChainRunner) (n : string) : Prop :=
  Str.has_char "."%char n = false
  /\ exists p, plugins r !! n = Some p /\ handle p = default_handle.

(** The names of a chain that [_resolve_plugin] refuses, each with the
    error raised, in the order of the chain. *)
Definition missing (r : ChainRunner) (plugin_chain : list string)
  : list (string * resolve_error) :=
  flat_map (fun plugin_name =>
              match fst (_resolve_plugin r plugin_name None) with
              | inr e => [(plugin_name, e)]
              | inl _ => []
              end) plugin_chain.

(** The chain [get_chain_for_route] answers for a route, and the chain
    [run] goes on with: the default chain when the first is empty. *)
Definition resolved_chain (r : ChainRunner) (route : string) : list string :=
  fst (fst (get_chain_for_route r route None)).

Definition effective_chain (r : ChainRunner) (route : string) : list string :=
  match resolved_chain r route with
  | [] => get_default_chain_for_route r
  | chain => chain
  end.

(** What the resolution functions do to the context they are given: they
    give back a context when they were given one, and it differs by its
    trace alone. *)
Definition traced_only (before after : option RequestContext) : Prop :=
  match before, after with
  | Some c, Some c' => untraced c' = untraced c
  | None, None => True
  | _, _ => False
  end.

(** The chain before expansion: the configured one, or the chain of a
    meta-plugin for a route of the form [meta:chain]. *)
Definition initial_chain (r : ChainRunner) (route : string) : list string :=
  match config_chain r route with
  | [] => if Str.has_char ":"%char route
          then fst (meta_route_chain r route None) else []
  | chain => chain
  end.

End Handlers.

(** *** Preset chains of a meta-plugin ([ChainRegistry], subplugin_loader.py) *)

Module Presets.
Import Chain.

(** The name [parse_chain] stores for a reference of the configuration:
    the placeholder for [{next}], the qualified name for a sub-plugin of
    the meta-plugin, the reference itself for anything else. *)
Definition qualify (meta_name : string) (subplugins : gmap string handler)
    (plugin_ref : string) : string :=
  if String.eqb plugin_ref "{next}" then "__NEXT__"
  else match subplugins !! plugin_ref with
       | Some _ => meta_name +:+ "." +:+ plugin_ref
       | None => plugin_ref
       end.

(** [parse_chain], for the meta-plugin whose metadata name is
    [meta_name]; the dict it returns has a [pattern] and a [description]
    besides the [plugins]. *)
Definition parse_chain (meta_name : string) (subplugins : gmap string handler)
    (config_plugins : list string) : chain_def :=
  {| def_plugins := Some (map (qualify meta_name subplugins) config_plugins);
     def_has_other_keys := true |}.

(** The key under which [register_preset_chains] stores a chain. *)
Definition full_name (meta_name chain_name : string) : string :=
  meta_name +:+ ":" +:+ chain_name.

End Presets.

(** *** Checking a route ahead of a request ([validate_chain], chain_runner.py) *)

Module Validation.
Import Ctx Chain.

Inductive issue : Type :=
| NoPluginChainConfigured
| Unresolved (e : resolve_error)                 (* [str(e)] *)
| MightNotBeProvider (last_plugin_name : string).

Record report : Type := {
  report_route : string;
  report_chain : list string;
  valid : bool;
  issues : list issue
}.

(** The errors of the names that do not resolve, in the order of the
    chain. *)
Definition unresolved (r : ChainRunner) (plugin_chain : list string) : list issue :=
  flat_map (fun plugin_name =>
              match fst (_resolve_plugin r plugin_name None) with
              | inr e => [Unresolved e]
              | inl _ => []
              end) plugin_chain.

(** [validate_chain]; [metadata_name] is the name in the metadata a
    plugin returns, [None] when [get_metadata] raises, and the result is
    [None] when that exception leaves the call.  The second test for an
    empty chain cannot succeed and is left out. *)
Definition validate_chain (r : ChainRunner) (metadata_name : string -> option string)
    (route : string) : option report * ChainRunner :=
  let '(plugin_chain, r, _) := get_chain_for_route r route None in
  match plugin_chain with
  | [] =>
      (Some {| report_route := route; report_chain := plugin_chain;
               valid := false; issues := [NoPluginChainConfigured] |}, r)
  | _ :: _ =>
      let found := unresolved r plugin_chain in
      let is_valid := match found with [] => true | _ :: _ => false end in
      let last_plugin_name := List.last plugin_chain "" in
      match plugins r !! last_plugin_name with
      | Some _ =>
          match metadata_name last_plugin_name with
          | None => (None, r)
          | Some n =>
              if Str.contains "provider" (Str.lower n) then
                (Some {| report_route := route; report_chain := plugin_chain;
                         valid := is_valid; issues := found |}, r)
              else
                (Some {| report_route := route; report_chain := plugin_chain;
                         valid := is_valid;
                         issues := found ++ [MightNotBeProvider last_plugin_name] |}, r)
          end
      | None =>
          (Some {| report_route := route; report_chain := plugin_chain;
                   valid := is_valid; issues := found |}, r)
      end
  end.

End Validation.

(** *** Two more runners, for the concrete checks *)

Module Scenes.

(** What [provider] does to the context. *)
Definition answer (c : Ctx.RequestContext) : Ctx.RequestContext :=
  Ctx.set_response c
    {| Ctx.error_key := None; Ctx.errors := Ctx.errors (Ctx.response_data c);
       Ctx._trace := None;
       Ctx.other_keys := {[ "content" := PStr "hello" ]} |}.




(** A runner with two plugins that keep the default handler. *)
Definition relay : Chain.ChainRunner :=
  {| Chain.plugins := {[ "first" := Handlers.pass_through;
                         "second" := Handlers.pass_through ]};
     Chain.routes_config := ∅;
     Chain._chain_cache := ∅ |}.

(** A loader that finds a lock file in the directory of [solo], and one
    that finds an empty lock file in the directory of [app]. *)
Definition locked_loader : Loader.PluginLoader :=
  {| Loader.plugins := ∅; Loader.plugin_metadata := ∅;
     Loader.permission_manager := Ledger.init; Loader.audit_root_paths := ∅;
     Loader.declared_dependencies := ∅; Loader.version_constraints := ∅;
     Loader.plugin_root_paths := ∅; Loader.dependency_resolver := Resolver.init;
     Loader.engine := Engine.default_engine;
     Loader.lock_files :=
       {[ "solo" := Loader.LockEntries
                      [ {| Loader.raw_type := Some "file";
                           Loader.raw_resource := Some "read";
                           Loader.raw_description := "" |} ];
          "app" := Loader.LockEntries [] ]} |}.

(** The group [suite] as loaded from an earlier version of its module. *)
Definition suite_instance : Loader.PluginInterface :=
  {| Loader.is_meta_plugin := true; Loader.initialize_raises := false;
     Loader.initialize_denials := [];
     Loader.shutdown_raises := false; Loader.group_sizes_raise := false |}.

Definition suite_metadata : Loader.PluginMetadata :=
  {| Loader.name := "suite"; Loader.version := "1.0.0";
     Loader.dependencies := []; Loader.permissions := [] |}.

Definition loader_with_suite : Loader.PluginLoader :=
  Loader.store Loader.init suite_metadata suite_instance.

(** An instance that is no [MetaPlugin] and carries the flag
    [is_meta_plugin]: it has no attribute [subplugins]. *)
Definition flagged_group : Loader.PluginInterface :=
  {| Loader.is_meta_plugin := true; Loader.initialize_raises := false;
     Loader.initialize_denials := [];
     Loader.shutdown_raises := false; Loader.group_sizes_raise := true |}.

(** The sample installation once the module of [suite] yields such an
    instance. *)
Definition world_with_flagged_group : Loader.World :=
  {| Loader.plugin_dir := Loader.plugin_dir Sample.world;
     Loader.plugin_dir_exists := Loader.plugin_dir_exists Sample.world;
     Loader.directories := Loader.directories Sample.world;
     Loader.is_plugin_dir := Loader.is_plugin_dir Sample.world;
     Loader.registry_info := Loader.registry_info Sample.world;
     Loader.installed_names := Loader.installed_names Sample.world;
     Loader.signature_verified := Loader.signature_verified Sample.world;
     Loader.has_group_yml := Loader.has_group_yml Sample.world;
     Loader.has_module_file := Loader.has_module_file Sample.world;
     Loader.manifest := Loader.manifest Sample.world;
     Loader.instantiate := fun n =>
       if String.eqb n "suite" then Some flagged_group
       else Loader.instantiate Sample.world n;
     Loader.import_effect := Loader.import_effect Sample.world;
     Loader.lock_writable := Loader.lock_writable Sample.world;
     Loader.subplugin_grants := Loader.subplugin_grants Sample.world;
     Loader.group_setup_raises := Loader.group_setup_raises Sample.world;
     Loader.enabled := Loader.enabled Sample.world;
     Loader.auto_load := Loader.auto_load Sample.world;
     Loader.parse_version := Loader.parse_version Sample.world;
     Loader.specifier_set := Loader.specifier_set Sample.world;
     Loader.version_in_spec := Loader.version_in_spec Sample.world |}.

(** A plugin directory with the one plugin [app], whose manifest declares
    a dependency on [db], which is not installed. *)
Definition world_with_dependency : Loader.World :=
  {| Loader.plugin_dir := "/srv/app/plugins";
     Loader.plugin_dir_exists := true;
     Loader.directories := ["app"];
     Loader.is_plugin_dir := fun _ => true;
     Loader.registry_info := fun _ => true;
     Loader.installed_names := ["app"];
     Loader.signature_verified := fun _ => true;
     Loader.has_group_yml := fun _ => false;
     Loader.has_module_file := fun _ => true;
     Loader.manifest := fun _ =>
       Some {| Loader.manifest_version := "1.0.0";
               Loader.manifest_deps := ["db@>=1.0"];
               Loader.manifest_permissions := Loader.Entries [] |};
     Loader.instantiate := fun _ =>
       Some {| Loader.is_meta_plugin := false;
               Loader.initialize_raises := false;
               Loader.initialize_denials := [];
               Loader.shutdown_raises := false;
               Loader.group_sizes_raise := false |};
     Loader.import_effect := fun _ files => files;
     Loader.lock_writable := fun _ => true;
     Loader.subplugin_grants := fun _ => [];
     Loader.group_setup_raises := fun _ => false;
     Loader.enabled := [];
     Loader.auto_load := true;
     Loader.parse_version := fun _ => Loader.Parsed;
     Loader.specifier_set := fun _ => Loader.Parsed;
     Loader.version_in_spec := fun _ _ => true |}.

(** A runner with the meta-plugin [suite], which has the sub-plugin
    [auth] and the preset chain [suite:secure], written in its
    configuration as [auth], the placeholder and the outside plugin
    [provider]. *)
Definition suite_subplugins : gmap string Chain.handler :=
  {[ "auth" := Chain.handle Sample.auth ]}.

Definition suite : Chain.meta_part :=
  {| Chain.subplugins := suite_subplugins;
     Chain.chains :=
       {[ Presets.full_name "suite" "secure" :=
            Presets.parse_chain "suite" suite_subplugins
              ["auth"; "{next}"; "provider"] ]} |}.

Definition suite_plugin : Chain.Plugin :=
  {| Chain.handle := Handlers.default_handle; Chain.meta := Some suite |}.

Definition suite_runner : Chain.ChainRunner :=
  {| Chain.plugins := {[ "suite" := suite_plugin; "provider" := Sample.provider ]};
     Chain.routes_config := {[ "/secure" := [Chain.DefStr "suite:secure"] ]};
     Chain._chain_cache := ∅ |}.

End Scenes.

(* ================================================================== *)
(** * Properties *)

(** ** Sanity checks of the library models *)

Example normpath_dots :
  Path.normpath "/srv/app/plugins/p/../q/./f.txt" = "/srv/app/plugins/q/f.txt".
Proof. reflexivity. Qed.

Example abspath_relative :
  Path.abspath (Some "/srv/app") "system_secure/key.pem"
  = Some "/srv/app/system_secure/key.pem".
Proof. reflexivity. Qed.

Example bytes_text :
  py_str (PBytes "/srv/app/system_secure/master.key")
  = "b'/srv/app/system_secure/master.key'"
  /\ py_str (PBytes "a'b")
     = String "b" (String double_quote ("a'b" +:+ String double_quote EmptyString))
  /\ py_str (PBytes (String (ascii_of_nat 0) (String (ascii_of_nat 255) "\")))
     = "b'\x00\xff\\'".
Proof. repeat split. Qed.

Example fnmatch_star : Str.fnmatch "network.domain.example.com" "network.domain.*" = true.
Proof. reflexivity. Qed.

Example default_engine_registered :
  map fst (Engine._permissions Engine.default_engine)
  = ["file.read.plugin"; "file.write.plugin"; "network.https"; "network.http";
     "api.create_route"; "system.subprocess"]
  /\ map (fun kv => (fst kv, map Engine.name (snd kv)))
         (Engine._event_map Engine.default_engine)
     = [("open", ["file.read.plugin"; "file.write.plugin"]);
        ("socket.connect", ["network.https"; "network.http"]);
        ("os.system", ["system.subprocess"]);
        ("subprocess.", ["system.subprocess"])].
Proof. split; reflexivity. Qed.

(** ** The dependency resolver *)

Section ResolverFacts.
Import Resolver.
Variable g : graph.

Lemma sorted_from_mono (R R' : gset string) (l : list string) :
  R ⊆ R' -> sorted_from g R l -> sorted_from g R' l.
Proof.
  revert R R'. induction l as [|n l IH]; simpl; [done|].
  intros R R' HR [Hn Hl]. split.
  - intros d Hd Hc. apply HR. by apply Hn.
  - eapply IH; [|exact Hl]. set_solver.
Qed.

Lemma sorted_from_app (R : gset string) (a b : list string) :
  sorted_from g R (a ++ b)
  <-> sorted_from g R a /\ sorted_from g (R ∪ list_to_set a) b.
Proof.
  revert R. induction a as [|n a IH]; intros R; simpl.
  - split.
    + intros H. split; [done|]. eapply sorted_from_mono; [|exact H]. set_solver.
    + intros [_ H]. eapply sorted_from_mono; [|exact H]. set_solver.
  - rewrite IH. split.
    + intros (Hn & Ha & Hb). repeat split; try done.
      eapply sorted_from_mono; [|exact Hb]. set_solver.
    + intros ((Hn & Ha) & Hb). repeat split; try done.
      eapply sorted_from_mono; [|exact Hb]. set_solver.
Qed.

Lemma extends_refl (s : marks) : extends g s s [].
Proof.
  constructor; simpl; try done.
  - by rewrite app_nil_r.
  - set_solver.
  - constructor.
  - intros n Hn. by apply elem_of_nil in Hn.
Qed.

Lemma extends_trans (s s1 s2 : marks) (n1 n2 : list string) :
  extends g s s1 n1 -> extends g s1 s2 n2 -> extends g s s2 (n1 ++ n2).
Proof.
  intros [T1 O1 R1 D1 F1 S1] [T2 O2 R2 D2 F2 S2]. constructor.
  - congruence.
  - rewrite O2, O1. by rewrite app_assoc.
  - rewrite R2, R1. set_solver.
  - apply NoDup_app. repeat split; try done.
    intros x Hx Hx2. destruct (F2 x Hx2) as (_ & Hnr & _).
    apply Hnr. rewrite R1. set_solver.
  - intros n [Hn|Hn]%elem_of_app; [by apply F1|].
    destruct (F2 n Hn) as (Ht & Hr & Hc). repeat split; try done.
    + by rewrite <- T1.
    + intros Hin. apply Hr. rewrite R1. set_solver.
  - apply sorted_from_app. split; [done|]. by rewrite <- R1.
Qed.

Lemma contains_keys (x : string) : contains g x = true <-> x ∈ keys g.
Proof.
  unfold contains, keys. rewrite elem_of_list_to_set.
  induction g as [|[k v] g' IH]; simpl.
  - split; [done|]. intros H. by apply elem_of_nil in H.
  - destruct (String.eqb_spec x k) as [->|Hne].
    + split; [intros _; apply list_elem_of_here | done].
    + rewrite IH. rewrite elem_of_cons. naive_solver.
Qed.

(** A loop of successful visits. *)
Lemma for_each_ok (body : string -> marks -> result marks) (items : list string) :
  (forall x s s', x ∈ items -> body x s = Ok s' ->
     (contains g x = true -> x ∈ resolved s') /\ exists new, extends g s s' new) ->
  forall s s', for_each body items s = Ok s' ->
    (forall x, x ∈ items -> contains g x = true -> x ∈ resolved s')
    /\ exists new, extends g s s' new.
Proof.
  induction items as [|x items IH]; intros Hbody s s' Hrun; simpl in Hrun.
  - injection Hrun as <-. split.
    + intros x Hx. by apply elem_of_nil in Hx.
    + exists []. apply extends_refl.
  - destruct (body x s) as [s1|?|] eqn:Hx; try discriminate.
    destruct (Hbody x s s1 (list_elem_of_here _ _) Hx) as (Hres & n1 & E1).
    destruct (IH (fun y t t' Hy => Hbody y t t' (list_elem_of_further _ _ _ Hy))
                s1 s' Hrun) as (Hall & n2 & E2).
    split.
    + intros y [->|Hy]%elem_of_cons Hc; [|by apply Hall].
      rewrite (ext_resolved _ _ _ _ E2). apply elem_of_union_l. by apply Hres.
    + exists (n1 ++ n2). by eapply extends_trans.
Qed.

Lemma visit_ok (fuel : nat) :
  forall x s s', contains g x = true -> visit g fuel x s = Ok s' ->
    x ∈ resolved s' /\ exists new, extends g s s' new.
Proof.
  induction fuel as [|fuel IH]; intros x s s' Hc Hv; simpl in Hv; [discriminate|].
  destruct (decide (x ∈ temp_mark s)) as [|Hnt]; [discriminate|].
  destruct (decide (x ∈ resolved s)) as [Hr|Hnr].
  { injection Hv as <-. split; [done|]. exists []. apply extends_refl. }
  match type of Hv with
  | match for_each ?b ?l ?s1 with _ => _ end = _ =>
      destruct (for_each b l s1) as [s2|?|] eqn:Hloop; try discriminate;
      pose proof (for_each_ok b l) as Hfe
  end.
  injection Hv as <-. simpl.
  destruct (Hfe) with (s := {| resolved := resolved s;
                               temp_mark := temp_mark s ∪ {[x]};
                               order := order s |}) (s' := s2)
    as (Hdeps & new & [T O R D F S]); [|exact Hloop|].
  { intros d t t' _ Hb. destruct (contains g d) eqn:Hcd.
    - destruct (IH d t t' Hcd Hb) as [? ?]. split; [done|done].
    - injection Hb as <-. split; [done|]. exists []. apply extends_refl. }
  simpl in *. split; [set_solver|].
  exists (new ++ [x]). constructor; simpl.
  - rewrite T. apply set_eq. intros y. set_solver.
  - rewrite O. by rewrite app_assoc.
  - rewrite R. rewrite list_to_set_app_L. set_solver.
  - apply NoDup_app. repeat split; [done| |apply NoDup_singleton].
    intros y Hy Hyx%list_elem_of_singleton. subst y.
    destruct (F _ Hy) as (Hyt & _). set_solver.
  - intros n [Hn|Hn%list_elem_of_singleton]%elem_of_app.
    + destruct (F n Hn) as (Ht & Hr & Hcn). repeat split; try done. set_solver.
    + by subst n.
  - apply sorted_from_app. split; [done|]. simpl. split; [|done].
    intros d Hd Hcd. rewrite <- R. by apply Hdeps.
Qed.

(** *** The recursion is bounded by the number of plugins *)

Lemma for_each_fuel (body : string -> marks -> result marks)
    (items : list string) (T : gset string) :
  (forall x s, x ∈ items -> temp_mark s = T -> body x s <> OutOfFuel) ->
  (forall x s s', x ∈ items -> body x s = Ok s' -> temp_mark s' = temp_mark s) ->
  forall s, temp_mark s = T -> for_each body items s <> OutOfFuel.
Proof.
  induction items as [|x items IH]; intros Hfuel Htemp s HT; simpl; [done|].
  destruct (body x s) as [s1|?|] eqn:Hx; [|done|].
  - apply IH.
    + intros y t Hy. apply Hfuel. by apply list_elem_of_further.
    + intros y t t' Hy. apply Htemp. by apply list_elem_of_further.
    + rewrite (Htemp x s s1 (list_elem_of_here _ _) Hx). exact HT.
  - exfalso. by apply (Hfuel x s (list_elem_of_here _ _) HT).
Qed.

Lemma visit_fuel (fuel : nat) :
  forall x s, contains g x = true ->
    size (keys g ∖ temp_mark s) < fuel -> visit g fuel x s <> OutOfFuel.
Proof.
  induction fuel as [|fuel IH]; intros x s Hc Hsz; [lia|]. simpl.
  destruct (decide (x ∈ temp_mark s)) as [|Hnt]; [done|].
  destruct (decide (x ∈ resolved s)) as [|Hnr]; [done|].
  match goal with
  | |- match for_each ?b ?l ?s1 with _ => _ end <> _ =>
      pose proof (for_each_fuel b l (temp_mark s ∪ {[x]})) as Hfe;
      destruct (for_each b l s1) as [s2|?|] eqn:Hloop; [done|done|]
  end.
  exfalso. revert Hloop. apply Hfe; [| |done].
  - intros d t _ HT. destruct (contains g d) eqn:Hcd; [|done].
    apply IH; [done|]. rewrite HT.
    assert (keys g ∖ (temp_mark s ∪ {[x]}) ⊂ keys g ∖ temp_mark s) as Hsub.
    { apply contains_keys in Hc. set_solver. }
    apply subset_size in Hsub. lia.
  - intros d t t' _ Hb. destruct (contains g d) eqn:Hcd.
    + destruct (visit_ok fuel d t t' Hcd Hb) as (_ & new & E).
      exact (ext_temp _ _ _ _ E).
    + by injection Hb as <-.
Qed.

Lemma size_keys : size (keys g) <= length g.
Proof.
  unfold keys. induction g as [|[k v] g' IH]; simpl.
  - change (size (∅ : gset string) <= 0). by rewrite size_empty.
  - rewrite size_union_alt, size_singleton.
    etrans; [apply Nat.add_le_mono_l, subseteq_size|];
      [apply subseteq_difference_l; reflexivity|]. lia.
Qed.

(** *** A raised error witnesses a cycle *)

Lemma for_each_raise (body : string -> marks -> result marks)
    (items : list string) (T : gset string) (Q : string -> Prop) :
  (forall x s n sr, x ∈ items -> temp_mark s = T -> body x s = Raise n sr -> Q n) ->
  (forall x s s', x ∈ items -> body x s = Ok s' -> temp_mark s' = temp_mark s) ->
  forall s n sr, temp_mark s = T -> for_each body items s = Raise n sr -> Q n.
Proof.
  induction items as [|x items IH]; intros Hraise Htemp s n sr HT Hrun;
    simpl in Hrun; [discriminate|].
  destruct (body x s) as [s1|m sm|] eqn:Hx; [| |discriminate].
  - eapply IH; [| | |exact Hrun].
    + intros y t m tr Hy. apply Hraise. by apply list_elem_of_further.
    + intros y t t' Hy. apply Htemp. by apply list_elem_of_further.
    + rewrite (Htemp x s s1 (list_elem_of_here _ _) Hx). exact HT.
  - injection Hrun as <- <-. by eapply (Hraise x s m sm (list_elem_of_here _ _)).
Qed.

Lemma visit_raise (fuel : nat) :
  forall x s n sr, contains g x = true ->
    (forall t, t ∈ temp_mark s -> tc (edge g) t x) ->
    visit g fuel x s = Raise n sr -> tc (edge g) n n.
Proof.
  induction fuel as [|fuel IH]; intros x s n sr Hc Hpath Hv; simpl in Hv;
    [discriminate|].
  destruct (decide (x ∈ temp_mark s)) as [Ht|Hnt].
  { injection Hv as <- <-. by apply Hpath. }
  destruct (decide (x ∈ resolved s)) as [|Hnr]; [discriminate|].
  match type of Hv with
  | match for_each ?b ?l ?s1 with _ => _ end = _ =>
      pose proof (for_each_raise b l (temp_mark s ∪ {[x]})
                    (fun m => tc (edge g) m m)) as Hfe;
      destruct (for_each b l s1) as [s2|m sm|] eqn:Hloop; try discriminate
  end.
  injection Hv as <- <-. revert Hloop. apply Hfe; [| |done].
  - intros d t m' tr Hd HT Hb. destruct (contains g d) eqn:Hcd; [|discriminate].
    eapply (IH d t m' tr Hcd); [|exact Hb].
    assert (edge g x d) as Hxd.
    { unfold contains in Hc. destruct (get g x) as [deps|] eqn:Hg; [|discriminate].
      exists deps. by repeat split. }
    intros u Hu. rewrite HT in Hu.
    apply elem_of_union in Hu as [Hu|Hu%elem_of_singleton].
    + eapply tc_r; [by apply Hpath|done].
    + subst u. by apply tc_once.
  - intros d t t' _ Hb. destruct (contains g d) eqn:Hcd.
    + destruct (visit_ok fuel d t t' Hcd Hb) as (_ & new & E).
      exact (ext_temp _ _ _ _ E).
    + by injection Hb as <-.
Qed.

(** *** From the invariants to the order *)

Lemma sorted_topological (new : list string) :
  sorted_from g ∅ new ->
  (forall n, contains g n = true -> n ∈ new) ->
  topological g new.
Proof.
  intros Hs Hall n deps d Hn Hd Hcd.
  assert (n ∈ new) as Hin.
  { apply Hall. unfold contains. by rewrite Hn. }
  apply list_elem_of_split in Hin as (l1 & l2 & ->).
  apply sorted_from_app in Hs as [_ Hs]. simpl in Hs. destruct Hs as [Hdeps _].
  rewrite Hn in Hdeps. simpl in Hdeps.
  specialize (Hdeps d Hd Hcd).
  assert (d ∈ l1) as Hdl by set_solver.
  apply list_elem_of_lookup in Hdl as [i Hi].
  exists i, (length l1). repeat split.
  - by apply lookup_app_l_Some.
  - by apply list_lookup_middle.
  - by apply lookup_lt_Some in Hi.
Qed.

Lemma before_trans (l : list string) (a b c : string) :
  NoDup l -> before l a b -> before l b c -> before l a c.
Proof.
  intros Hnd (i & j & Hi & Hj & Hij) (j' & k & Hj' & Hk & Hjk).
  assert (j = j') as <- by (by eapply NoDup_lookup).
  exists i, k. repeat split; try done. lia.
Qed.

Lemma before_irrefl (l : list string) (a : string) :
  NoDup l -> ~ before l a a.
Proof.
  intros Hnd (i & j & Hi & Hj & Hij).
  assert (i = j) by (by eapply NoDup_lookup). lia.
Qed.

(** A graph that can be put in topological order has no cycle. *)
Lemma topological_acyclic (l : list string) :
  NoDup l -> topological g l -> ~ cyclic g.
Proof.
  intros Hnd Htopo [n Hn].
  assert (forall a b, tc (edge g) a b -> before l b a) as Hpath.
  { intros a b Hab. induction Hab as [a b (deps & Ha & Hb & Hcb)|a c b (deps & Ha & Hc & Hcc) _ IH].
    - by eapply Htopo.
    - eapply before_trans; [done|exact IH|]. by eapply Htopo. }
  by apply (before_irrefl l n Hnd), Hpath.
Qed.

Lemma run_visits_total (prior : list string) :
  run_visits {| dependency_graph := g; resolved_order := prior |} <> OutOfFuel.
Proof.
  unfold run_visits. cbn [dependency_graph resolved_order]. apply (for_each_fuel _ _ ∅); [| |done].
  - intros x s Hx HT. destruct (decide (x ∈ resolved s)); [done|].
    apply visit_fuel.
    + apply contains_keys. unfold keys. by apply elem_of_list_to_set.
    + pose proof size_keys. rewrite HT.
      assert (size (keys g ∖ ∅) <= size (keys g)) by (apply subseteq_size; set_solver).
      lia.
  - intros x s s' Hx Hb. destruct (decide (x ∈ resolved s)).
    + by injection Hb as <-.
    + apply visit_ok in Hb as (_ & new & E); [exact (ext_temp _ _ _ _ E)|].
      apply contains_keys. unfold keys. by apply elem_of_list_to_set.
Qed.

Lemma run_visits_ok (prior : list string) (s : marks) :
  run_visits {| dependency_graph := g; resolved_order := prior |} = Ok s ->
  exists new,
    order s = prior ++ new /\ NoDup new
    /\ (forall n, n ∈ new <-> contains g n = true)
    /\ topological g new.
Proof.
  unfold run_visits. cbn [dependency_graph resolved_order]. intros Hrun.
  apply for_each_ok in Hrun as (Hall & new & [T O R D F S]).
  - simpl in *. exists new.
    assert (forall n, contains g n = true -> n ∈ new) as Hcover.
    { intros n Hn. assert (n ∈ resolved s) as Hr.
      { apply Hall; [|done]. apply contains_keys in Hn. unfold keys in Hn.
        by apply elem_of_list_to_set in Hn. }
      rewrite R in Hr. set_solver. }
    repeat split; try done.
    + intros Hn. by apply F.
    + by apply Hcover.
    + by apply sorted_topological.
  - intros x t t' Hx Hb. destruct (decide (x ∈ resolved t)) as [Hr|Hnr].
    + injection Hb as <-. split; [done|]. exists []. apply extends_refl.
    + apply visit_ok in Hb as (Hres & new & E).
      * split; [done|]. by exists new.
      * apply contains_keys. unfold keys. by apply elem_of_list_to_set.
Qed.

Lemma run_visits_raise (prior : list string) (n : string) (sr : marks) :
  run_visits {| dependency_graph := g; resolved_order := prior |} = Raise n sr ->
  tc (edge g) n n.
Proof.
  unfold run_visits. cbn [dependency_graph resolved_order]. intros Hrun. revert Hrun.
  apply (for_each_raise _ _ ∅ (fun m => tc (edge g) m m)); [| |done].
  - intros x s m sm Hx HT Hb. destruct (decide (x ∈ resolved s)); [discriminate|].
    eapply visit_raise; [| |exact Hb].
    + apply contains_keys. unfold keys. by apply elem_of_list_to_set.
    + intros t Ht. rewrite HT in Ht. set_solver.
  - intros x s s' Hx Hb. destruct (decide (x ∈ resolved s)).
    + by injection Hb as <-.
    + apply visit_ok in Hb as (_ & new & E); [exact (ext_temp _ _ _ _ E)|].
      apply contains_keys. unfold keys. by apply elem_of_list_to_set.
Qed.

(** *** The resolver run as a whole *)

Lemma resolve_dependencies_cases (prior : list string) :
  let r := {| dependency_graph := g; resolved_order := prior |} in
  (exists new,
      fst (resolve_dependencies r) = Order (prior ++ new)
      /\ NoDup new /\ (forall n, n ∈ new <-> contains g n = true)
      /\ topological g new /\ ~ cyclic g)
  \/ (exists n, fst (resolve_dependencies r) = CircularDependency n
                /\ tc (edge g) n n).
Proof.
  intros r. unfold resolve_dependencies.
  destruct (run_visits r) as [s|n sr|] eqn:Hrun.
  - left. apply run_visits_ok in Hrun as (new & Ho & Hnd & Hcov & Htopo).
    exists new. simpl. rewrite Ho. repeat split; try done; try apply Hcov.
    by eapply topological_acyclic.
  - right. exists n. split; [done|]. by eapply run_visits_raise.
  - by apply run_visits_total in Hrun.
Qed.

End ResolverFacts.

(** ** The interception engine *)

Section AuditFacts.
Import Audit.

(** A pattern without metacharacters matches its own text only. *)
Lemma literal_cons (p : ascii) (pat : string) :
  Str.literal (String p pat) = true ->
  Ascii.eqb p "*"%char = false /\ Ascii.eqb p "?"%char = false
  /\ Str.literal pat = true.
Proof.
  unfold Str.literal. cbn [Str.has_char].
  rewrite (Ascii.eqb_sym p "*"%char), (Ascii.eqb_sym p "?"%char).
  destruct (Ascii.eqb "*"%char p), (Ascii.eqb "?"%char p),
    (Ascii.eqb "["%char p); cbn; try done;
    rewrite ?orb_true_r; try done.
Qed.

Lemma glob_literal (pat name : string) :
  Str.literal pat = true -> Str.glob pat name = String.eqb name pat.
Proof.
  revert name. induction pat as [|p pat IH]; intros name Hlit.
  - by destruct name.
  - apply literal_cons in Hlit as (Hstar & Hq & Hlit).
    cbn [Str.glob]. rewrite Hstar.
    destruct name as [|c name]; [done|].
    rewrite Hq. cbn [orb String.eqb].
    rewrite IH by done. rewrite (Ascii.eqb_sym p c).
    by destruct (Ascii.eqb c p).
Qed.

Lemma wildcard_loop_literal (e : Engine.PermissionEngine) (granted : list string)
    (required : string) (res : pyval) :
  required ∉ granted ->
  (forall n, n ∈ granted -> Str.literal n = true) ->
  Ledger.wildcard_loop e granted required res = Some false.
Proof.
  induction granted as [|n granted IH]; intros Hnot Hlit; simpl; [done|].
  unfold Str.fnmatch. rewrite glob_literal by (apply Hlit; apply list_elem_of_here).
  destruct (String.eqb_spec required n) as [->|Hne].
  - exfalso. apply Hnot. apply list_elem_of_here.
  - apply IH.
    + intros Hin. apply Hnot. by apply list_elem_of_further.
    + intros m Hm. apply Hlit. by apply list_elem_of_further.
Qed.

(** With literal names in the ledger, [check_permission] is membership. *)
Lemma check_permission_literal (e : Engine.PermissionEngine)
    (m : Ledger.SandboxPermissionManager) (plugin_name required : string)
    (res : pyval) :
  (forall n, n ∈ Ledger.granted m plugin_name -> Str.literal n = true) ->
  Ledger.check_permission e m plugin_name required res
  = Some (bool_decide (required ∈ Ledger.granted m plugin_name)).
Proof.
  unfold Ledger.check_permission, Ledger.granted. intros Hlit.
  destruct (Ledger.granted_permissions m !! plugin_name) as [granted|]; simpl in *.
  - destruct (decide (required ∈ granted)) as [Hin|Hnot].
    + by rewrite bool_decide_eq_true_2.
    + rewrite bool_decide_eq_false_2 by done.
      apply wildcard_loop_literal.
      * by rewrite elem_of_elements.
      * intros n Hn. apply Hlit. by apply elem_of_elements.
  - by rewrite bool_decide_eq_false_2 by set_solver.
Qed.

Lemma get_violations_log (mgr : AuditHookManager) (plugin_name : string)
    (v : violation) :
  Ledger.get_violations (permission_manager (log mgr plugin_name v)) plugin_name
  = Ledger.get_violations (permission_manager mgr) plugin_name ++ [v].
Proof.
  unfold Ledger.get_violations, log, Ledger.log_violation. simpl.
  by rewrite lookup_insert_eq.
Qed.

Lemma granted_log (mgr : AuditHookManager) (plugin_name other : string)
    (v : violation) :
  Ledger.granted (permission_manager (log mgr plugin_name v)) other
  = Ledger.granted (permission_manager mgr) other.
Proof. reflexivity. Qed.

(** *** The directory jail *)

Lemma directory_jail_inside (mgr : AuditHookManager) (cwd : option string)
    (plugin_name path : string) :
  inside_allowed_dirs mgr cwd plugin_name path = Some true ->
  _enforce_directory_jail mgr cwd plugin_name path = None.
Proof.
  unfold inside_allowed_dirs, _enforce_directory_jail.
  destruct cwd as [project_root|]; [|done].
  destruct (plugin_root_paths mgr !! plugin_name) as [plugin_root|]; [|done].
  destruct (String.eqb plugin_root ""); [done|].
  destruct (Path.abspath (Some project_root) path) as [abs_path|]; [|done].
  destruct (Path.abspath (Some project_root) plugin_root) as [root_abs|]; [|done].
  destruct (Path.abspath _ (Path.join _ plugin_name)) as [temp_abs|]; [|done].
  intros [= ->]. done.
Qed.

Lemma directory_jail_outside (mgr : AuditHookManager) (cwd : option string)
    (plugin_name path : string) :
  inside_allowed_dirs mgr cwd plugin_name path = Some false ->
  _enforce_directory_jail mgr cwd plugin_name path
  = if Ledger.has_permission_prefix (permission_manager mgr) plugin_name "system."
    then None else Some (JOutside plugin_name path).
Proof.
  unfold inside_allowed_dirs, _enforce_directory_jail.
  destruct cwd as [project_root|]; [|done].
  destruct (plugin_root_paths mgr !! plugin_name) as [plugin_root|]; [|done].
  destruct (String.eqb plugin_root ""); [done|].
  destruct (Path.abspath (Some project_root) path) as [abs_path|]; [|done].
  destruct (Path.abspath (Some project_root) plugin_root) as [root_abs|]; [|done].
  destruct (Path.abspath _ (Path.join _ plugin_name)) as [temp_abs|]; [|done].
  intros [= ->]. done.
Qed.

(** An [open] that maps to some capability and lies outside the allowed
    directories is denied by the jail when no [system.] capability is
    held. *)
Lemma open_outside_denied (mgr : AuditHookManager) (proc : Process)
    (plugin_name : string) (path mode flags : pyval)
    (p : Engine.PermissionDefinition * pyval)
    (ps : list (Engine.PermissionDefinition * pyval)) :
  current_plugin proc = Some plugin_name -> plugin_name <> "" ->
  _is_lock_file_access mgr (getcwd proc) plugin_name path mode flags = None ->
  Engine.map_event_to_permissions (permission_engine mgr) "open" [path; mode; flags]
    = Some (p :: ps) ->
  inside_allowed_dirs mgr (getcwd proc) plugin_name (py_str path) = Some false ->
  Ledger.has_permission_prefix (permission_manager mgr) plugin_name "system." = false ->
  _audit_hook mgr proc "open" [path; mode; flags]
  = (Denied (VJail (JOutside plugin_name (py_str path))),
     log mgr plugin_name (VJail (JOutside plugin_name (py_str path)))).
Proof.
  intros Hcur Hne Hfixed Hmap Hout Hpriv. unfold _audit_hook.
  rewrite Hcur. apply String.eqb_neq in Hne. rewrite Hne.
  unfold fixed_rules. cbn [String.eqb Ascii.eqb Bool.eqb].
  rewrite Hfixed, Hmap. cbn [String.eqb Ascii.eqb Bool.eqb].
  rewrite directory_jail_outside by done. by rewrite Hpriv.
Qed.

(** *** The names in the ledger *)

Lemma find_definition_loop_registered (perms : list (string * Engine.PermissionDefinition))
    (decl_type : string) (decl_resource : option string)
    (perm_def : Engine.PermissionDefinition) :
  Engine.find_definition_loop perms decl_type decl_resource = Some perm_def ->
  perm_def ∈ map snd perms.
Proof.
  induction perms as [|[k perm] perms IH]; simpl; [done|].
  intros H.
  assert (Engine.find_definition_loop perms decl_type decl_resource = Some perm_def ->
          perm_def ∈ perm :: map snd perms) as Hrest.
  { intros Hr. apply list_elem_of_further. by apply IH. }
  destruct (String.eqb (Engine.match_type perm) decl_type); [|by apply Hrest].
  destruct (Engine.match_resource_pattern perm) as [pat|].
  - destruct (String.eqb pat ""); [by apply Hrest|].
    destruct decl_resource as [res|]; [|by apply Hrest].
    destruct (negb (String.eqb res "") && Str.fnmatch res pat); [|by apply Hrest].
    injection H as <-. apply list_elem_of_here.
  - injection H as <-. apply list_elem_of_here.
Qed.

Lemma default_names_literal (perm_def : Engine.PermissionDefinition) :
  perm_def ∈ map snd (Engine._permissions Engine.default_engine) ->
  Str.literal (Engine.name perm_def) = true.
Proof.
  intros H. change (map snd (Engine._permissions Engine.default_engine))
    with Engine.default_definitions in H.
  unfold Engine.default_definitions in H.
  repeat (apply elem_of_cons in H as [->|H]; [reflexivity|]).
  by apply elem_of_nil in H.
Qed.

(** The ledger as [grant_permissions] fills it from the built-in registry
    holds literal names only. *)
Lemma grant_permissions_literal (m : Ledger.SandboxPermissionManager)
    (plugin_name : string) (permissions : list Ledger.SandboxPermission) :
  (forall q n, n ∈ Ledger.granted m q -> Str.literal n = true) ->
  forall q n,
    n ∈ Ledger.granted
          (Ledger.grant_permissions Engine.default_engine m plugin_name permissions) q ->
    Str.literal n = true.
Proof.
  intros Hm q n. unfold Ledger.granted at 1, Ledger.grant_permissions. simpl.
  destruct (decide (plugin_name = q)) as [->|Hne];
    [rewrite lookup_insert_eq|rewrite lookup_insert_ne by done; apply Hm].
  simpl. fold (Ledger.granted m q).
  assert (forall acc : gset string,
             (forall x, x ∈ acc -> Str.literal x = true) ->
             forall x,
               x ∈ fold_left
                     (fun acc permission =>
                        match Engine.find_definition_for_declaration
                                Engine.default_engine (Ledger.type permission)
                                (Ledger.resource permission) with
                        | Some perm_def => acc ∪ {[Engine.name perm_def]}
                        | None => acc
                        end) permissions acc ->
               Str.literal x = true) as Hfold.
  { induction permissions as [|perm permissions IH]; intros acc Hacc x; simpl; [by apply Hacc|].
    apply IH. destruct (Engine.find_definition_for_declaration _ _ _) as [d|] eqn:Hd;
      [|done].
    intros y [Hy|Hy%elem_of_singleton]%elem_of_union; [by apply Hacc|]. subst y.
    apply default_names_literal. by eapply find_definition_loop_registered. }
  apply Hfold. apply Hm.
Qed.

(** *** The capability check *)

Lemma check_loop_none_held (mgr : AuditHookManager) (plugin_name : string)
    (required : list (Engine.PermissionDefinition * pyval)) (checked : list string) :
  (forall n, n ∈ Ledger.granted (permission_manager mgr) plugin_name ->
             Str.literal n = true) ->
  existsb (holds mgr plugin_name) (required_names required) = false ->
  check_loop mgr plugin_name required checked
  = Some (false, checked ++ required_names required).
Proof.
  intros Hlit. revert checked.
  induction required as [|[perm_def res] required IH]; intros checked Hnone; simpl.
  - by rewrite app_nil_r.
  - simpl in Hnone. apply orb_false_iff in Hnone as [Hhd Htl].
    rewrite check_permission_literal by done.
    unfold holds in Hhd. rewrite Hhd.
    rewrite IH by done. by rewrite <- app_assoc.
Qed.

Lemma check_loop_some_held (mgr : AuditHookManager) (plugin_name : string)
    (required : list (Engine.PermissionDefinition * pyval)) (checked : list string) :
  (forall n, n ∈ Ledger.granted (permission_manager mgr) plugin_name ->
             Str.literal n = true) ->
  existsb (holds mgr plugin_name) (required_names required) = true ->
  exists checked', check_loop mgr plugin_name required checked = Some (true, checked').
Proof.
  intros Hlit. revert checked.
  induction required as [|[perm_def res] required IH]; intros checked Hsome; simpl.
  - discriminate.
  - simpl in Hsome. rewrite check_permission_literal by done.
    fold (holds mgr plugin_name (Engine.name perm_def)).
    destruct (holds mgr plugin_name (Engine.name perm_def)); [by eexists|].
    by apply IH.
Qed.

Lemma literal_names_check (mgr : AuditHookManager) (plugin_name : string) :
  forallb Str.literal
    (elements (Ledger.granted (permission_manager mgr) plugin_name)) = true ->
  forall n, n ∈ Ledger.granted (permission_manager mgr) plugin_name ->
            Str.literal n = true.
Proof.
  intros Hall n Hn. rewrite forallb_forall in Hall. apply Hall.
  apply list_elem_of_In. by apply elem_of_elements.
Qed.

(** C4.  An event of a plugin in scope that passes the fixed rules and
    the directory jail and maps to a non-empty list of capabilities is
    decided by the names the plugin holds: it goes through when one of
    them is held, and otherwise it is denied with a [PermissionError]
    whose message is appended to the violations of the plugin.  The
    outcome is a function of the event, its arguments and the granted
    set.  The names in the ledger are those of registered definitions,
    which carry no glob metacharacter. *)
Theorem capability_check_decides (mgr : AuditHookManager) (proc : Process)
    (plugin_name event : string) (args : list pyval)
    (required : list (Engine.PermissionDefinition * pyval)) :
  current_plugin proc = Some plugin_name -> plugin_name <> "" ->
  fixed_rules mgr (getcwd proc) plugin_name event args = Some None ->
  Engine.map_event_to_permissions (permission_engine mgr) event args = Some required ->
  required <> [] ->
  (event = "open" ->
   _enforce_directory_jail mgr (getcwd proc) plugin_name
     (py_str (match args with a :: _ => a | [] => PNone end)) = None) ->
  (forall n, n ∈ Ledger.granted (permission_manager mgr) plugin_name ->
             Str.literal n = true) ->
  let v := VUnauthorized plugin_name event (required_names required)
             (match args with a :: _ => a | [] => PStr "N/A" end) in
  _audit_hook mgr proc event args
  = (if existsb (holds mgr plugin_name) (required_names required)
     then (Allowed, mgr)
     else (Denied v, log mgr plugin_name v))
  /\ Ledger.get_violations (permission_manager (log mgr plugin_name v)) plugin_name
     = Ledger.get_violations (permission_manager mgr) plugin_name ++ [v].
Proof.
  intros Hcur Hne Hfixed Hmap Hreq Hjail Hlit v. split; [|apply get_violations_log].
  unfold _audit_hook. rewrite Hcur. apply String.eqb_neq in Hne. rewrite Hne.
  rewrite Hfixed, Hmap. destruct required as [|r0 required]; [done|].
  assert ((if String.eqb event "open"
           then _enforce_directory_jail mgr (getcwd proc) plugin_name
                  (py_str (match args with a :: _ => a | [] => PNone end))
           else None) = None) as ->.
  { destruct (String.eqb_spec event "open") as [Hev|_]; [by apply Hjail|done]. }
  unfold capability_check.
  destruct (existsb (holds mgr plugin_name) (required_names (r0 :: required))) eqn:Hheld.
  - destruct (check_loop_some_held mgr plugin_name (r0 :: required) [] Hlit Hheld)
      as [checked' ->]. done.
  - by rewrite (check_loop_none_held mgr plugin_name (r0 :: required) [] Hlit Hheld).
Qed.

(** An instance of C4: plugin [p], holding [file.read.plugin] alone, may
    read a file of its own directory and may not write it. *)
Lemma capability_check_decides_witness :
  _audit_hook Sample.manager (Sample.as_plugin "p") "open"
    [PStr "/srv/app/plugins/p/notes.txt"; PStr "r"; PInt 0]
  = (Allowed, Sample.manager)
  /\ fst (_audit_hook Sample.manager (Sample.as_plugin "p") "open"
            [PStr "/srv/app/plugins/p/notes.txt"; PStr "w"; PInt 1])
     = Denied (VUnauthorized "p" "open" ["file.write.plugin"]
                 (PStr "/srv/app/plugins/p/notes.txt")).
Proof.
  assert (forall n, n ∈ Ledger.granted (permission_manager Sample.manager) "p" ->
                    Str.literal n = true) as Hlit.
  { apply literal_names_check. vm_compute. reflexivity. }
  split.
  - refine (proj1 (capability_check_decides Sample.manager (Sample.as_plugin "p")
             "p" "open" [PStr "/srv/app/plugins/p/notes.txt"; PStr "r"; PInt 0]
             [(Engine.file_read_plugin, PStr "/srv/app/plugins/p/notes.txt")]
             eq_refl _ eq_refl eq_refl _ _ Hlit)); [done|done|].
    intros _. vm_compute. reflexivity.
  - refine (f_equal fst (proj1 (capability_check_decides Sample.manager
             (Sample.as_plugin "p")
             "p" "open" [PStr "/srv/app/plugins/p/notes.txt"; PStr "w"; PInt 1]
             [(Engine.file_write_plugin, PStr "/srv/app/plugins/p/notes.txt")]
             eq_refl _ eq_refl eq_refl _ _ Hlit))); [done|done|].
    intros _. vm_compute. reflexivity.
Defined.

(** C4 does not hold without the directory jail, which stands between
    the fixed rules and the capability check.  Plugin [p] holds
    [file.read.plugin]; its [open] of [/etc/cron.d/job] for reading
    passes the fixed rules and maps to [file.read.plugin] alone, which
    [p] holds, and yet the hook denies it, the path lying outside the
    directories of [p]. *)
Lemma held_capability_denied_by_jail :
  current_plugin (Sample.as_plugin "p") = Some "p"
  /\ fixed_rules Sample.manager (getcwd (Sample.as_plugin "p")) "p" "open"
       [PStr "/etc/cron.d/job"; PStr "r"; PInt 0] = Some None
  /\ Engine.map_event_to_permissions (permission_engine Sample.manager) "open"
       [PStr "/etc/cron.d/job"; PStr "r"; PInt 0]
     = Some [(Engine.file_read_plugin, PStr "/etc/cron.d/job")]
  /\ existsb (holds Sample.manager "p")
       (required_names [(Engine.file_read_plugin, PStr "/etc/cron.d/job")]) = true
  /\ _audit_hook Sample.manager (Sample.as_plugin "p") "open"
       [PStr "/etc/cron.d/job"; PStr "r"; PInt 0]
     = (Denied (VJail (JOutside "p" "/etc/cron.d/job")),
        log Sample.manager "p" (VJail (JOutside "p" "/etc/cron.d/job"))).
Proof. repeat split; vm_compute; reflexivity. Qed.

(** *** The fixed rules *)

(** With a working directory every path resolves. *)
Lemma abspath_resolves (cwd path : string) :
  exists abs_path, Path.abspath (Some cwd) path = Some abs_path.
Proof. unfold Path.abspath. destruct (Path.isabs path); by eauto. Qed.

Lemma lock_file_access_denies (mgr : AuditHookManager) (cwd : option string)
    (plugin_name : string) (path mode flags : pyval) :
  under_secure_dir cwd (py_str path) = true
  \/ is_own_lock_file mgr cwd plugin_name (py_str path) = true ->
  exists v, _is_lock_file_access mgr cwd plugin_name path mode flags = Some v
            /\ (v = VSecureDir plugin_name (py_str path)
                \/ v = VOwnLockFile plugin_name (py_str path)).
Proof.
  unfold under_secure_dir, is_own_lock_file, _is_lock_file_access,
    lock_file_access_resolved.
  destruct cwd as [project_root|]; [|by intros [|]].
  destruct (Path.abspath (Some project_root) (py_str path)) as [abs_path|];
    [|intros [Hs|Ho]; [done|]; destruct (plugin_root_paths mgr !! plugin_name);
      [by rewrite andb_false_r in Ho|done]].
  destruct (abspath_resolves project_root (Path.join project_root "system_secure"))
    as [secure_abs ->].
  - destruct (Str.startswith abs_path (secure_abs +:+ Path.sep)); [by eauto|].
    intros [Hs|Ho]; [done|].
    destruct (plugin_root_paths mgr !! plugin_name) as [plugin_root|]; [|done].
    destruct (String.eqb plugin_root ""); [done|].
    destruct (Path.abspath (Some project_root) plugin_root) as [root_abs|]; [|done].
    simpl in Ho. rewrite Ho. by eauto.
Qed.

Lemma lock_file_modification_denies (plugin_name event : string) (args : list pyval) :
  names_lock_file event args = true ->
  exists path, _is_lock_file_modification plugin_name event args
               = Some (VLockModification plugin_name event path).
Proof.
  unfold names_lock_file, _is_lock_file_modification.
  induction (paths_to_check event args) as [|path paths IH]; simpl; [done|].
  destruct (Str.contains "permissions.lock.json" (normalise_text path)) eqn:Hc; simpl.
  - intros _. by eauto.
  - intros Hrest. by apply IH.
Qed.

(** What the fixed rules do stop.  For a plugin in scope, whatever it has
    been granted and whatever the engine maps the event to: an [open] whose
    resolved path lies under the secure-storage directory or is the lock
    file in the plugin's own registered root, and a remove, unlink or
    rename one of whose paths names a lock file, is denied by the fixed
    rules, and the denial is appended to the violations of the plugin. *)
Theorem fixed_rules_deny (mgr : AuditHookManager) (proc : Process)
    (plugin_name event : string) (args : list pyval) :
  current_plugin proc = Some plugin_name -> plugin_name <> "" ->
  (exists path mode flags,
      event = "open" /\ args = [path; mode; flags]
      /\ (under_secure_dir (getcwd proc) (py_str path) = true
          \/ is_own_lock_file mgr (getcwd proc) plugin_name (py_str path) = true))
  \/ ((event = "os.remove" \/ event = "os.unlink" \/ event = "os.rename")
      /\ names_lock_file event args = true) ->
  exists v,
    _audit_hook mgr proc event args = (Denied v, log mgr plugin_name v)
    /\ fixed_rules mgr (getcwd proc) plugin_name event args = Some (Some v)
    /\ Ledger.get_violations (permission_manager (log mgr plugin_name v)) plugin_name
       = Ledger.get_violations (permission_manager mgr) plugin_name ++ [v].
Proof.
  intros Hcur Hne Hcase.
  assert (exists v, fixed_rules mgr (getcwd proc) plugin_name event args = Some (Some v))
    as [v Hv].
  { unfold fixed_rules.
    destruct Hcase as [(path & mode & flags & Hev & Hargs & Hpath)|[Hev Hnames]].
    - subst event args. cbn [String.eqb Ascii.eqb Bool.eqb].
      destruct (lock_file_access_denies mgr (getcwd proc) plugin_name path mode flags Hpath)
        as (v & -> & _). by eauto.
    - destruct (lock_file_modification_denies plugin_name event args Hnames) as [path Hp].
      rewrite Hp. destruct Hev as [ -> | [ -> | -> ] ]; by eauto. }
  exists v. repeat split; [|done|apply get_violations_log].
  unfold _audit_hook. rewrite Hcur. apply String.eqb_neq in Hne. by rewrite Hne, Hv.
Qed.

(** An instance of the fixed rules: scenario D of the specification. *)
Lemma fixed_rules_deny_witness :
  exists v,
    _audit_hook Sample.manager (Sample.as_plugin "p") "open"
      [PStr "system_secure/master.key"; PStr "r"; PInt 0]
    = (Denied v, log Sample.manager "p" v)
    /\ fixed_rules Sample.manager (Some "/srv/app") "p" "open"
         [PStr "system_secure/master.key"; PStr "r"; PInt 0] = Some (Some v)
    /\ Ledger.get_violations (permission_manager (log Sample.manager "p" v)) "p"
       = Ledger.get_violations (permission_manager Sample.manager) "p" ++ [v].
Proof.
  apply (fixed_rules_deny Sample.manager (Sample.as_plugin "p") "p" "open"
           [PStr "system_secure/master.key"; PStr "r"; PInt 0]);
    [reflexivity|done|].
  left. exists (PStr "system_secure/master.key"), (PStr "r"), (PInt 0).
  repeat split. left. reflexivity.
Defined.

(** C2 fails on accesses that the fixed rules do not look at, while the
    sibling [open] of the same file is refused.  With the application in
    [/srv/app]: plugin [p], which holds [file.read.plugin] alone, removes
    a file of the secure-storage directory, which it may not open; plugin
    [q], which holds a [system.] capability, opens the lock file of [p]
    for update, though its own is refused; [q] opens a file of the
    secure-storage directory under a [bytes] path, whose text the rules
    take for a relative path; and [p], after [os.chdir], which is let
    through, to its own directory, opens the same file in the same way. *)
Theorem fixed_rules_miss_accesses :
  under_secure_dir (Some "/srv/app") "/srv/app/system_secure/master.key" = true
  /\ _audit_hook Sample.manager (Sample.as_plugin "p") "os.remove"
       [PStr "/srv/app/system_secure/master.key"] = (Allowed, Sample.manager)
  /\ fst (_audit_hook Sample.manager (Sample.as_plugin "p") "open"
            [PStr "/srv/app/system_secure/master.key"; PStr "r"; PInt 0])
     = Denied (VSecureDir "p" "/srv/app/system_secure/master.key")
  /\ _audit_hook Sample.manager (Sample.as_plugin "q") "open"
       [PStr "/srv/app/plugins/p/permissions.lock.json"; PStr "r+"; PInt 2]
     = (Allowed, Sample.manager)
  /\ fst (_audit_hook Sample.manager (Sample.as_plugin "q") "open"
            [PStr "/srv/app/plugins/q/permissions.lock.json"; PStr "r"; PInt 0])
     = Denied (VOwnLockFile "q" "/srv/app/plugins/q/permissions.lock.json")
  /\ _audit_hook Sample.manager (Sample.as_plugin "q") "open"
       [PBytes "/srv/app/system_secure/master.key"; PStr "rb"; PInt 0]
     = (Allowed, Sample.manager)
  /\ _audit_hook Sample.manager (Sample.as_plugin "p") "os.chdir"
       [PStr "/srv/app/plugins/p"] = (Allowed, Sample.manager)
  /\ _audit_hook Sample.manager
       {| getcwd := Some "/srv/app/plugins/p"; current_plugin := Some "p" |} "open"
       [PBytes "/srv/app/system_secure/master.key"; PStr "rb"; PInt 0]
     = (Allowed, Sample.manager).
Proof. repeat split; vm_compute; reflexivity. Qed.

(** *** The directory jail inside the hook *)

(** C3 fails on an exclusive-create [open]: mode ["x"] matches neither
    file capability, so the hook returns before the directory jail is
    consulted, although the path is outside the plugin's directories, the
    plugin holds no [system.] capability and the jail, asked directly,
    refuses the path. *)
Theorem exclusive_create_escapes_jail :
  inside_allowed_dirs Sample.manager (Some "/srv/app") "p" "/etc/cron.d/job"
    = Some false
  /\ Ledger.has_permission_prefix Sample.ledger "p" "system." = false
  /\ _enforce_directory_jail Sample.manager (Some "/srv/app") "p" "/etc/cron.d/job"
     = Some (JOutside "p" "/etc/cron.d/job")
  /\ Engine.map_event_to_permissions Engine.default_engine "open"
       [PStr "/etc/cron.d/job"; PStr "x"; PInt 193] = Some []
  /\ _audit_hook Sample.manager (Sample.as_plugin "p") "open"
       [PStr "/etc/cron.d/job"; PStr "x"; PInt 193] = (Allowed, Sample.manager).
Proof. repeat split; vm_compute; reflexivity. Qed.

(** The same path opened for reading is stopped by the jail. *)
Example read_outside_denied :
  fst (_audit_hook Sample.manager (Sample.as_plugin "p") "open"
         [PStr "/etc/cron.d/job"; PStr "r"; PInt 0])
  = Denied (VJail (JOutside "p" "/etc/cron.d/job")).
Proof. vm_compute. reflexivity. Qed.

End AuditFacts.

(** ** The plugin loader *)

Section LoaderFacts.
Import Loader.
Variable w : World.

Lemma metadata_keeps (l l' : PluginLoader) (n : string) (m : option PluginMetadata) :
  _load_plugin_metadata w l n = (m, l') ->
  plugins l' = plugins l /\ lock_files l' = lock_files l
  /\ plugin_metadata l' = plugin_metadata l
  /\ dependency_resolver l' = dependency_resolver l
  /\ match m with Some md => name md = n | None => True end.
Proof.
  unfold _load_plugin_metadata. intros H.
  destruct (is_plugin_dir w n); simpl in H; [|by simplify_eq].
  destruct (has_module_file w n); simpl in H; [|by simplify_eq].
  destruct (manifest w n) as [mf|]; cbn zeta beta iota in H;
    destruct (manifest_entries _); simplify_eq/=; done.
Qed.

(** A load of a group that yields no instance leaves the set of loaded
    plugins as it was, provided the sizes of the instance can be taken. *)
Lemma load_plugin_group_none (l l' : PluginLoader) (n : string) :
  (forall inst, instantiate w n = Some inst -> group_sizes_raise inst = false) ->
  load_plugin_group w l n = (None, l') -> plugins l' = plugins l.
Proof.
  unfold load_plugin_group, _load_plugin_directly. intros Hsizes H.
  destruct (has_module_file w n); simpl in H; [|by simplify_eq/=].
  destruct (instantiate w n) as [inst|]; [|by simplify_eq/=].
  rewrite (Hsizes inst eq_refl) in H.
  destruct (initialize_raises inst); [by simplify_eq|].
  destruct (is_meta_plugin inst); simpl in H; [|by simplify_eq/=].
  destruct (_load_plugin_metadata w _ n) as [[md|] l1] eqn:Hmd;
    apply metadata_keeps in Hmd as (Hp & _); [|by simplify_eq/=].
  unfold _create_permission_lock_file in H.
  destruct (lock_writable w (name md)); [|by simplify_eq/=].
  unfold lock_file_loads, _load_permissions_from_lock_file in H.
  cbn [lock_files] in H. rewrite lookup_insert_eq in H. cbn [negb] in H.
  destruct (group_setup_raises w n); simplify_eq/=. done.
Qed.

(** Outside the group path, a load that yields no instance leaves the
    set of loaded plugins as it was. *)
Lemma load_plugin_none (l l' : PluginLoader) (n : string) :
  has_group_yml w n = false ->
  load_plugin w l n = (None, l') -> plugins l' = plugins l.
Proof.
  unfold load_plugin, _load_plugin_directly. intros -> H.
  destruct (is_plugin_dir w n); simpl in H; [|by simplify_eq/=].
  destruct (registry_info w n); simpl in H; [|by simplify_eq/=].
  destruct (signature_verified w n); simpl in H; [|by simplify_eq/=].
  destruct (has_module_file w n); simpl in H; [|by simplify_eq/=].
  destruct (_load_plugin_metadata w l n) as [[md|] l1] eqn:Hmd;
    apply metadata_keeps in Hmd as (Hp & _ & _ & _ & Hname); [|by simplify_eq/=].
  destruct (instantiate w n) as [inst|]; [|by simplify_eq/=].
  rewrite Hname in H.
  unfold lock_file_loads, _load_permissions_from_lock_file in H.
  cbn [register_root set_lock_files lock_files] in H.
  destruct (import_effect w n (lock_files l1) !! n) as [[entries| |granted]|];
    cbn [negb] in H; [|by simplify_eq/=..].
  destruct (initialize_raises inst); simplify_eq/=; done.
Qed.

(** Outside the group path, a plugin directory that has no lock file once
    the module of the plugin has been executed is not loaded. *)
Lemma load_plugin_requires_lock (l : PluginLoader) (n : string) :
  has_group_yml w n = false ->
  import_effect w n (lock_files l) !! n = None ->
  fst (load_plugin w l n) = None
  /\ plugins (snd (load_plugin w l n)) = plugins l.
Proof.
  intros Hgroup Hlock. unfold load_plugin, _load_plugin_directly. rewrite Hgroup.
  destruct (is_plugin_dir w n); simpl; [|done].
  destruct (registry_info w n); simpl; [|done].
  destruct (signature_verified w n); simpl; [|done].
  destruct (has_module_file w n); simpl; [|done].
  destruct (_load_plugin_metadata w l n) as [[md|] l1] eqn:Hmd;
    apply metadata_keeps in Hmd as (Hp & Hl & _); [|done].
  destruct (instantiate w n) as [inst|]; [|done].
  simpl. rewrite Hl, Hlock. done.
Qed.

Lemma scan_keeps (dirs : list string) (l : PluginLoader) :
  plugins (snd (scan w l dirs)) = plugins l.
Proof.
  revert l. induction dirs as [|d dirs IH]; intros l; simpl; [done|].
  destruct (_load_plugin_metadata w l d) as [m l1] eqn:Hmd.
  apply metadata_keeps in Hmd as (Hp & _).
  specialize (IH l1). destruct (scan w l1 dirs) as [ms l2]. simpl in *. congruence.
Qed.

(** *** Loading without a lock file *)

(** C1 fails on the group path.  [suite] has a [group.yml] and no lock
    file; [load_plugin] hands it to [load_plugin_group], which writes a
    lock file from the permissions the manifest asks for, grants them and
    stores the plugin among the loaded ones.  The plain plugin [solo], in
    the same state, is refused. *)
Theorem group_loads_without_lock_file :
  lock_files Loader.init !! "suite" = None
  /\ (exists instance, fst (load_plugin Sample.world Loader.init "suite") = Some instance)
  /\ is_Some (plugins (snd (load_plugin Sample.world Loader.init "suite")) !! "suite")
  /\ is_Some (lock_files (snd (load_plugin Sample.world Loader.init "suite")) !! "suite")
  /\ Ledger.granted
       (permission_manager (snd (load_plugin Sample.world Loader.init "suite"))) "suite"
     = {[ "system.subprocess" ]}
  /\ fst (load_plugin Sample.world Loader.init "solo") = None.
Proof.
  repeat split.
  - by eexists.
  - vm_compute. by eexists.
  - vm_compute. by eexists.
Qed.

(** *** Reloading *)

(** [reload_plugin] of a loaded plugin whose [shutdown] returns first
    removes the instance, the metadata and the root-path registration and
    then loads afresh from the state so reduced; and when it returns
    [False] for a plain plugin, or for a group whose instance has the
    attributes of [MetaPlugin], the plugin is not among the loaded ones:
    the old instance is gone. *)
Lemma reload_not_atomic (l : PluginLoader) (n : string) :
  (forall old md,
      plugins l !! n = Some old -> shutdown_raises old = false ->
      plugin_metadata l !! n = Some md ->
      reload_plugin w l n
      = (Reloaded (is_not_none (fst (load_plugin w (remove l n) n))),
         snd (load_plugin w (remove l n) n))
      /\ plugins (remove l n) !! n = None
      /\ plugin_metadata (remove l n) !! n = None
      /\ plugin_root_paths (remove l n) !! n = None)
  /\ (forall l',
        has_group_yml w n = false
        \/ (forall inst, instantiate w n = Some inst -> group_sizes_raise inst = false) ->
        reload_plugin w l n = (Reloaded false, l') ->
        plugins l' !! n = None).
Proof.
  assert (forall l0 l1,
            has_group_yml w n = false
            \/ (forall inst, instantiate w n = Some inst ->
                             group_sizes_raise inst = false) ->
            load_plugin w l0 n = (None, l1) -> plugins l1 = plugins l0) as Hnone.
  { intros l0 l1 [Hplain|Hsizes] Hload; [by eapply load_plugin_none|].
    destruct (has_group_yml w n) eqn:Hgroup; [|by eapply load_plugin_none].
    unfold load_plugin in Hload. rewrite Hgroup in Hload.
    destruct (is_plugin_dir w n); simpl in Hload; [|by simplify_eq/=].
    destruct (registry_info w n); simpl in Hload; [|by simplify_eq/=].
    destruct (signature_verified w n); simpl in Hload; [|by simplify_eq/=].
    by eapply load_plugin_group_none. }
  split.
  - intros old md Hold Hshut Hmd. unfold reload_plugin.
    rewrite Hold, Hshut, Hmd.
    destruct (load_plugin w (remove l n) n) as [plugin l1]. simpl.
    repeat split; apply lookup_delete_eq.
  - intros l' Hcase H. unfold reload_plugin in H.
    destruct (plugins l !! n) as [old|] eqn:Hold.
    + destruct (shutdown_raises old); [discriminate|].
      destruct (plugin_metadata l !! n); [|discriminate].
      destruct (load_plugin w (remove l n) n) as [[inst|] l1] eqn:Hload;
        [discriminate|].
      injection H as <-. apply (Hnone _ _ Hcase) in Hload.
      rewrite Hload. apply lookup_delete_eq.
    + destruct (load_plugin w l n) as [[inst|] l1] eqn:Hload; [discriminate|].
      injection H as <-. apply (Hnone _ _ Hcase) in Hload. by rewrite Hload.
Qed.

(** *** Version constraints *)

Lemma version_satisfies_unparseable (version constraint : string) :
  constraint <> "" -> unparseable w version constraint ->
  _version_satisfies w version constraint
  = (true, Some (Warning_could_not_validate version constraint)).
Proof.
  intros Hne Hbad. unfold _version_satisfies.
  apply String.eqb_neq in Hne. rewrite Hne.
  destruct Hbad as [ -> | [ -> -> ] ]; done.
Qed.

Lemma check_dependency_unparseable (l : PluginLoader)
    (constraints : list (string * string)) (dep constraint : string)
    (dep_metadata : PluginMetadata) :
  constraint <> "" ->
  unparseable w (Loader.version dep_metadata) constraint ->
  plugin_metadata l !! dep = Some dep_metadata ->
  constraints_get dep constraints = Some constraint ->
  check_dependency w l constraints dep = None.
Proof.
  intros Hne Hbad Hmd Hc. unfold check_dependency.
  rewrite Hmd, Hc, version_satisfies_unparseable by done.
  simpl. by rewrite andb_false_r.
Qed.

Lemma unmet_dependencies_nil (l : PluginLoader) (plugin_name : string) :
  (forall dep, dep ∈ default [] (declared_dependencies l !! plugin_name) ->
     exists dep_metadata,
       plugin_metadata l !! dep = Some dep_metadata
       /\ match constraints_get dep (default [] (version_constraints l !! plugin_name)) with
          | None => True
          | Some constraint =>
              constraint = "" \/ unparseable w (Loader.version dep_metadata) constraint
          end) ->
  unmet_dependencies w l plugin_name = [].
Proof.
  intros Hdeps. unfold unmet_dependencies.
  induction (default [] (declared_dependencies l !! plugin_name)) as [|dep deps IH];
    simpl; [done|].
  rewrite IH by (intros d Hd; apply Hdeps; by apply list_elem_of_further).
  destruct (Hdeps dep (list_elem_of_here _ _)) as (md & Hmd & Hc).
  destruct (constraints_get dep _) as [constraint|] eqn:Hget.
  - destruct (String.eqb_spec constraint "") as [->|Hne].
    + unfold check_dependency. by rewrite Hmd, Hget.
    + destruct Hc as [Hc|Hc]; [done|].
      by rewrite (check_dependency_unparseable l _ dep constraint md Hne Hc Hmd Hget).
  - unfold check_dependency. by rewrite Hmd, Hget.
Qed.

(** C9.  When the version of the dependency or the constraint does not
    parse, [_version_satisfies] answers [True] and logs a warning; the
    dependency is then not counted as unmet; and a plugin all of whose
    dependencies are loaded, under constraints that are absent or do not
    parse, has no unmet dependency and goes on to [load_plugin]. *)
Theorem unparseable_constraint_is_permissive (version constraint : string) :
  constraint <> "" -> unparseable w version constraint ->
  _version_satisfies w version constraint
  = (true, Some (Warning_could_not_validate version constraint))
  /\ (forall l constraints dep dep_metadata,
         plugin_metadata l !! dep = Some dep_metadata ->
         Loader.version dep_metadata = version ->
         constraints_get dep constraints = Some constraint ->
         check_dependency w l constraints dep = None)
  /\ (forall l plugin_name rest,
         (forall dep, dep ∈ default [] (declared_dependencies l !! plugin_name) ->
            exists dep_metadata,
              plugin_metadata l !! dep = Some dep_metadata
              /\ match constraints_get dep
                          (default [] (version_constraints l !! plugin_name)) with
                 | None => True
                 | Some c => c = "" \/ unparseable w (Loader.version dep_metadata) c
                 end) ->
         unmet_dependencies w l plugin_name = []
         /\ load_in_order w l (plugin_name :: rest)
            = load_in_order w (snd (load_plugin w l plugin_name)) rest).
Proof.
  intros Hne Hbad. split; [by apply version_satisfies_unparseable|]. split.
  - intros l constraints dep md Hmd Hv Hc. subst version.
    by eapply check_dependency_unparseable.
  - intros l plugin_name rest Hdeps.
    pose proof (unmet_dependencies_nil l plugin_name Hdeps) as Hnil.
    split; [done|]. simpl. by rewrite Hnil.
Qed.

(** *** A cycle aborts the batch *)

Lemma load_all_aborts_on_cycle (l : PluginLoader) :
  candidates w <> [] ->
  Resolver.cyclic (Resolver.dependency_graph (batch_resolver w l)) ->
  fst (load_all_plugins w l) = Returned ∅
  /\ plugins (snd (load_all_plugins w l)) = plugins l.
Proof.
  intros Hcand Hcyc. unfold load_all_plugins, batch_resolver in *.
  destruct (plugin_dir_exists w); cbn [negb]; [|done].
  assert (forall X : batch * PluginLoader,
            fst X = Returned ∅ /\ plugins (snd X) = plugins l ->
            fst (match enabled w, auto_load w with
                 | [], false => (Returned ∅, l)
                 | _, _ => X
                 end) = Returned ∅
            /\ plugins (snd (match enabled w, auto_load w with
                             | [], false => (Returned ∅, l)
                             | _, _ => X
                             end)) = plugins l) as Hwrap.
  { intros X HX. destruct (enabled w), (auto_load w); done. }
  apply Hwrap. clear Hwrap.
  destruct (candidates w) as [|d dirs] eqn:Hdirs; [done|].
  pose proof (scan_keeps (d :: dirs) l) as Hscan.
  destruct (scan w l (d :: dirs)) as [ms l1]. cbn [snd] in Hscan.
  remember (build_graph l1 ms) as l2 eqn:Hl2.
  assert (plugins l2 = plugins l) as Hp2 by (by subst l2).
  clear Hl2. destruct (dependency_resolver l2) as [g prior] eqn:Hr.
  cbn [Resolver.dependency_graph] in Hcyc.
  destruct (resolve_dependencies_cases g prior) as [(new & _ & _ & _ & _ & Hac)|(n & Hn & _)];
    [done|].
  destruct (Resolver.resolve_dependencies _) as [res r']. cbn [fst] in Hn. subst res.
  done.
Qed.

End LoaderFacts.

(** ** The load order of a batch *)

(** C5.  For every dependency graph, in whatever order its plugins and
    their dependencies are listed: an order returned by
    [resolve_dependencies] holds every plugin of the graph exactly once,
    each after all of its dependencies that the graph knows; a graph
    without a cycle gets such an order; a graph with a cycle, of any
    length, gets the [ValueError]; and when the error is raised in
    [load_all_plugins] the call returns the empty dict and no plugin has
    been loaded. *)
Theorem resolve_dependencies_orders_or_raises (g : Resolver.graph) :
  (forall load_order,
      Resolver.resolve g = Resolver.Order load_order ->
      NoDup load_order
      /\ (forall n, n ∈ load_order <-> Resolver.contains g n = true)
      /\ Resolver.topological g load_order)
  /\ (~ Resolver.cyclic g ->
      exists load_order, Resolver.resolve g = Resolver.Order load_order)
  /\ (Resolver.cyclic g ->
      exists n, Resolver.resolve g = Resolver.CircularDependency n
                /\ tc (Resolver.edge g) n n)
  /\ (forall w l,
        Loader.candidates w <> [] ->
        Resolver.dependency_graph (Loader.batch_resolver w l) = g ->
        Resolver.cyclic g ->
        fst (Loader.load_all_plugins w l) = Loader.Returned ∅
        /\ Loader.plugins (snd (Loader.load_all_plugins w l)) = Loader.plugins l).
Proof.
  assert (forall w l,
            Loader.candidates w <> [] ->
            Resolver.dependency_graph (Loader.batch_resolver w l) = g ->
            Resolver.cyclic g ->
            fst (Loader.load_all_plugins w l) = Loader.Returned ∅
            /\ Loader.plugins (snd (Loader.load_all_plugins w l)) = Loader.plugins l)
    as Hbatch.
  { intros w l Hcand Hg Hcyc. apply load_all_aborts_on_cycle; [done|by rewrite Hg]. }
  unfold Resolver.resolve.
  destruct (resolve_dependencies_cases g [])
    as [(new & Hres & Hnd & Hcov & Htopo & Hac)|(n & Hres & Hn)];
    cbn zeta in Hres; rewrite Hres.
  - split; [|split; [|split]]; [| | |exact Hbatch].
    + intros load_order [= <-]. by repeat split; try apply Hcov.
    + intros _. by eexists.
    + intros Hcyc. done.
  - split; [|split; [|split]]; [| | |exact Hbatch].
    + intros load_order [=].
    + intros Hac. exfalso. apply Hac. by exists n.
    + intros _. by exists n.
Qed.

Lemma cycle3_is_cyclic : Resolver.cyclic Sample.cycle3.
Proof.
  exists "a".
  assert (forall x y, (x, [y]) ∈ Sample.cycle3 ->
                      Resolver.get Sample.cycle3 x = Some [y] ->
                      Resolver.contains Sample.cycle3 y = true ->
                      Resolver.edge Sample.cycle3 x y) as Hedge.
  { intros x y _ Hget Hc. exists [y]. repeat split; [done| |done].
    apply list_elem_of_here. }
  eapply tc_l; [apply (Hedge "a" "b"); [set_solver|done|done]|].
  eapply tc_l; [apply (Hedge "b" "c"); [set_solver|done|done]|].
  apply tc_once. apply (Hedge "c" "a"); [set_solver|done|done].
Qed.

(** An instance of C5: the cycle A→B→C→A is refused. *)
Lemma resolve_dependencies_orders_or_raises_witness :
  Resolver.cyclic Sample.cycle3
  /\ exists n, Resolver.resolve Sample.cycle3 = Resolver.CircularDependency n
               /\ tc (Resolver.edge Sample.cycle3) n n.
Proof.
  split; [exact cycle3_is_cyclic|].
  exact (proj1 (proj2 (proj2 (resolve_dependencies_orders_or_raises Sample.cycle3)))
           cycle3_is_cyclic).
Defined.

Example resolve_cycle3 :
  Resolver.resolve Sample.cycle3 = Resolver.CircularDependency "a".
Proof. vm_compute. reflexivity. Qed.

Example resolve_self_cycle :
  Resolver.resolve [("a", ["a"])] = Resolver.CircularDependency "a".
Proof. vm_compute. reflexivity. Qed.

(** The same graph listed in two orders: both results are topological. *)
Example resolve_two_listings :
  Resolver.resolve [("app", ["db"; "auth"]); ("auth", ["db"]); ("db", [])]
  = Resolver.Order ["db"; "auth"; "app"]
  /\ Resolver.resolve [("db", []); ("app", ["auth"; "db"; "missing"]); ("auth", ["db"])]
     = Resolver.Order ["db"; "auth"; "app"].
Proof. split; vm_compute; reflexivity. Qed.

(** An instance of C9: the malformed specifier ["=>1"]. *)
Lemma unparseable_constraint_is_permissive_witness :
  "=>1" <> ""
  /\ Loader.unparseable Sample.world "1.0.0" "=>1"
  /\ Loader._version_satisfies Sample.world "1.0.0" "=>1"
     = (true, Some (Loader.Warning_could_not_validate "1.0.0" "=>1")).
Proof.
  assert ("=>1" <> "") as Hne by done.
  assert (Loader.unparseable Sample.world "1.0.0" "=>1") as Hbad
    by (right; split; reflexivity).
  split; [exact Hne|]. split; [exact Hbad|].
  exact (proj1 (unparseable_constraint_is_permissive Sample.world "1.0.0" "=>1" Hne Hbad)).
Defined.

(** A plain plugin whose reload fails: [solo] is loaded and has no lock
    file; reloading it returns [False] and leaves nothing behind. *)
Example reload_of_solo_fails :
  fst (Loader.reload_plugin Sample.world Sample.loader_with_solo "solo")
  = Loader.Reloaded false
  /\ Loader.plugins Sample.loader_with_solo !! "solo" = Some Sample.solo_instance
  /\ Loader.plugins
       (snd (Loader.reload_plugin Sample.world Sample.loader_with_solo "solo"))
     !! "solo" = None.
Proof.
  split; [reflexivity|]. split; [reflexivity|].
  apply (proj2 (reload_not_atomic Sample.world Sample.loader_with_solo "solo")
               _ (or_introl eq_refl)).
  reflexivity.
Qed.

(** C10 fails on the group path.  The group [suite] is loaded; the
    instance its module now yields is taken for a group by its
    [is_meta_plugin] flag and has no [subplugins] attribute.
    [reload_plugin] removes the old instance, and [load_plugin_group]
    stores the new one before it takes the sizes for its log entry; that
    raises, the load returns [None] and [reload_plugin] returns [False]
    with [suite] among the loaded plugins.  The plain plugin [solo],
    whose reload fails as well, is absent afterwards. *)
Theorem failed_group_reload_leaves_plugin_loaded :
  Loader.plugins Scenes.loader_with_suite !! "suite" = Some Scenes.suite_instance
  /\ fst (Loader.reload_plugin Scenes.world_with_flagged_group
            Scenes.loader_with_suite "suite")
     = Loader.Reloaded false
  /\ Loader.plugins
       (snd (Loader.reload_plugin Scenes.world_with_flagged_group
               Scenes.loader_with_suite "suite")) !! "suite"
     = Some Scenes.flagged_group
  /\ fst (Loader.reload_plugin Scenes.world_with_flagged_group
            Sample.loader_with_solo "solo")
     = Loader.Reloaded false
  /\ Loader.plugins
       (snd (Loader.reload_plugin Scenes.world_with_flagged_group
               Sample.loader_with_solo "solo")) !! "solo"
     = None.
Proof. repeat split; vm_compute; reflexivity. Qed.

(** ** The chain runner *)

Section ChainFacts.
Import Ctx Chain.
Variable r : ChainRunner.

Lemma add_trace_short_circuited (c : RequestContext) (m : trace_entry) :
  is_short_circuited (add_trace c m) = is_short_circuited c.
Proof. unfold add_trace. by destruct (trace_log c). Qed.





(** C8.  Resolving a route a second time, the cache not having been
    cleared, returns the list of the first resolution and leaves the
    runner as it is; the only trace entry of the second call says that the
    chain was found in the cache. *)
Theorem chain_resolution_cached (route : string) (c1 c2 : option RequestContext) :
  let first := get_chain_for_route r route c1 in
  get_chain_for_route (snd (fst first)) route c2
  = (fst (fst first), snd (fst first),
     trace c2 (FoundInCache route (fst (fst first)))).
Proof.
  intros first. unfold first, get_chain_for_route.
  destruct (_chain_cache r !! route) as [chain|] eqn:Hcache.
  - cbn [fst snd]. by rewrite Hcache.
  - repeat match goal with
           | |- context [let '(_, _) := ?x in _] => destruct x
           end.
    cbn [fst snd set_cache _chain_cache]. by rewrite lookup_insert_eq.
Qed.

(** *** A failing handler *)






End ChainFacts.




(** Scenario B as a run: the response lists the error of [auth], the
    context is short-circuited, and [provider] has not been called. *)
Example scenario_B :
  exists c,
    Chain.run Sample.runner "/chat" ∅
    = (Chain.Returns c, [(0, "auth")],
       Chain.set_cache Sample.runner "/chat" ["auth"; "provider"])
    /\ Ctx.errors (Ctx.response_data c)
       = Some (Ctx.ErrorList
                 [Ctx.Entry {| Ctx.plugin := "auth";
                               Ctx.error := Ctx.HandlerError "invalid token" |}])
    /\ Ctx.is_short_circuited c = true.
Proof. eexists. repeat split. Qed.

(** An instance of C8 on the sample route. *)
Example chain_resolution_cached_sample :
  fst (fst (Chain.get_chain_for_route Sample.runner "/chat" None))
  = ["auth"; "provider"]
  /\ Chain.get_chain_for_route
       (snd (fst (Chain.get_chain_for_route Sample.runner "/chat" None)))
       "/chat" (Some (Ctx.set_trace_log (Ctx.new ∅) (Some [])))
     = (["auth"; "provider"],
        Chain.set_cache Sample.runner "/chat" ["auth"; "provider"],
        Some (Ctx.set_trace_log (Ctx.new ∅)
                (Some [Ctx.FoundInCache "/chat" ["auth"; "provider"]]))).
Proof. split; reflexivity. Qed.

(* ================================================================== *)
(** * Further properties *)

(** ** The permission engine *)

Section EngineFacts.
Import Engine.

Lemma dict_get_app_last {A : Type} (d : list (string * A)) (k : string) (v : A) :
  dict_get k d = None -> dict_get k (d ++ [(k, v)]) = Some v.
Proof.
  induction d as [|[k' v'] d IH]; simpl.
  - intros _. by rewrite String.eqb_refl.
  - destruct (String.eqb k k'); [done|]. exact IH.
Qed.

Lemma dict_get_app_other {A : Type} (d : list (string * A)) (k k' : string) (v : A) :
  k' <> k -> dict_get k' (d ++ [(k, v)]) = dict_get k' d.
Proof.
  intros Hne. induction d as [|[k0 v0] d IH]; simpl.
  - apply String.eqb_neq in Hne. by rewrite Hne.
  - by destruct (String.eqb k' k0).
Qed.

Lemma dict_append_same {A : Type} (d : list (string * list A)) (k : string) (x : A) :
  dict_get k (dict_append k x d) = Some (default [] (dict_get k d) ++ [x]).
Proof.
  induction d as [|[k' v'] d IH]; simpl.
  - by rewrite String.eqb_refl.
  - destruct (String.eqb k k') eqn:Hk; simpl; by rewrite Hk.
Qed.

Lemma dict_append_other {A : Type} (d : list (string * list A)) (k k' : string) (x : A) :
  k' <> k -> dict_get k' (dict_append k x d) = dict_get k' d.
Proof.
  intros Hne. apply String.eqb_neq in Hne.
  induction d as [|[k0 v0] d IH]; simpl.
  - by rewrite Hne.
  - destruct (String.eqb k k0) eqn:Hk; simpl.
    + apply String.eqb_eq in Hk. subst k0. by rewrite Hne.
    + by destruct (String.eqb k' k0).
Qed.

Lemma fold_dict_append_ends (perm_def : PermissionDefinition) (events : list string)
    (m : list (string * list PermissionDefinition)) (event : string) :
  event ∈ events \/ (exists ds, dict_get event m = Some (ds ++ [perm_def])) ->
  exists ds,
    dict_get event (fold_left (fun m ev => dict_append ev perm_def m) events m)
    = Some (ds ++ [perm_def]).
Proof.
  revert m. induction events as [|ev events IH]; intros m H; simpl.
  - destruct H as [H|H]; [by apply elem_of_nil in H|done].
  - apply IH. destruct (decide (event = ev)) as [->|Hne].
    + right. rewrite dict_append_same. by eexists.
    + destruct H as [H|H].
      * left. apply elem_of_cons in H as [?|?]; [done|done].
      * right. by rewrite dict_append_other.
Qed.

(** X1.  Registering a definition under a fresh name makes it the answer
    of [get_permission_definition] for that name, leaves the definitions
    of all other names as they were, puts it last among the definitions
    consulted for each of its events, and makes a second registration of
    the name raise; a name that is already registered is refused and the
    engine is not changed. *)
Theorem register_then_lookup (e e' : PermissionEngine) (perm_def : PermissionDefinition) :
  register e perm_def = Some e' ->
  get_permission_definition e (name perm_def) = None
  /\ get_permission_definition e' (name perm_def) = Some perm_def
  /\ (forall n, n <> name perm_def ->
                get_permission_definition e' n = get_permission_definition e n)
  /\ (forall event, event ∈ event_names perm_def ->
        exists ds, potential_perms e' event = ds ++ [perm_def])
  /\ (forall other, name other = name perm_def -> register e' other = None).
Proof.
  unfold register, get_permission_definition.
  destruct (dict_get (name perm_def) (_permissions e)) eqn:Hfresh; [done|].
  intros [= <-]. cbn [_permissions _event_map].
  split; [done|]. split; [by apply dict_get_app_last|].
  split; [intros n Hn; by apply dict_get_app_other|]. split.
  - intros event Hev. unfold potential_perms. cbn [_event_map].
    destruct (fold_dict_append_ends perm_def (event_names perm_def) (_event_map e) event)
      as [ds Hds]; [by left|].
    rewrite Hds. destruct ds as [|d0 ds]; simpl; [by exists []|by exists (d0 :: ds)].
  - intros other Hother. rewrite Hother. cbn [_permissions].
    by rewrite dict_get_app_last.
Qed.

(** An instance of X1: a seventh definition on top of the built-in ones. *)
Lemma register_then_lookup_witness :
  let database_access :=
    {| name := "database.access"; description := ""; match_type := "database";
       event_names := ["sqlite3.connect"; "open"];
       match_resource_pattern := None; resource_matcher := fun _ => Some true |} in
  exists e',
    register default_engine database_access = Some e'
    /\ get_permission_definition e' "database.access" = Some database_access
    /\ (exists ds, potential_perms e' "open" = ds ++ [database_access])
    /\ register e' database_access = None.
Proof.
  intros database_access. eexists. split; [reflexivity|].
  pose proof (register_then_lookup default_engine _ database_access eq_refl)
    as (_ & Hget & _ & Hevents & Hdup).
  split; [exact Hget|]. split; [|exact (Hdup database_access eq_refl)].
  apply Hevents. apply list_elem_of_further, list_elem_of_here.
Defined.

Lemma find_definition_loop_step (k : string) (perm : PermissionDefinition)
    (rest : list (string * PermissionDefinition)) (decl_type : string)
    (decl_resource : option string) :
  find_definition_loop ((k, perm) :: rest) decl_type decl_resource
  = if Declaration.answers perm decl_type decl_resource then Some perm
    else find_definition_loop rest decl_type decl_resource.
Proof.
  unfold Declaration.answers. cbn [find_definition_loop].
  destruct (String.eqb (match_type perm) decl_type); [|done].
  destruct (match_resource_pattern perm) as [pat|]; [|done].
  destruct (String.eqb pat ""); [done|].
  destruct decl_resource as [res|]; [|done].
  by destruct (negb (String.eqb res "") && Str.fnmatch res pat).
Qed.

(** X2.  [find_definition_for_declaration] answers with the first
    definition, in the order of registration, whose type is the declared
    type and whose pattern, if it has one, matches the declared resource;
    it answers [None] exactly when no registered definition qualifies, so
    a declaration of an unknown type or of an unmatched resource maps to
    nothing. *)
Theorem find_definition_first_match (e : PermissionEngine) (decl_type : string)
    (decl_resource : option string) :
  match find_definition_for_declaration e decl_type decl_resource with
  | Some perm_def =>
      exists earlier later,
        map snd (_permissions e) = earlier ++ perm_def :: later
        /\ Declaration.answers perm_def decl_type decl_resource = true
        /\ Forall (fun x => Declaration.answers x decl_type decl_resource = false) earlier
  | None =>
      Forall (fun x => Declaration.answers x decl_type decl_resource = false)
             (map snd (_permissions e))
  end.
Proof.
  unfold find_definition_for_declaration.
  induction (_permissions e) as [|[k perm] perms IH].
  - simpl. constructor.
  - rewrite find_definition_loop_step.
    destruct (Declaration.answers perm decl_type decl_resource) eqn:Hans.
    + exists [], (map snd perms). by repeat split.
    + destruct (find_definition_loop perms decl_type decl_resource) as [d|].
      * destruct IH as (earlier & later & Heq & Hd & Hearlier).
        exists (perm :: earlier), later. simpl. rewrite Heq.
        repeat split; [done|]. by constructor.
      * simpl. by constructor.
Qed.

(** The two file declarations of the built-in registry, and two
    declarations that map to nothing. *)
Example find_definition_builtin :
  name <$> find_definition_for_declaration default_engine "file" (Some "read")
  = Some "file.read.plugin"
  /\ name <$> find_definition_for_declaration default_engine "file" (Some "write")
     = Some "file.write.plugin"
  /\ name <$> find_definition_for_declaration default_engine "file" None = None
  /\ name <$> find_definition_for_declaration default_engine "database" (Some "read")
     = None.
Proof. repeat split. Qed.

End EngineFacts.

(** ** Events no definition governs *)

Section HookFacts.
Import Audit.

Lemma startswith_refl (s : string) : Str.startswith s s = true.
Proof.
  unfold Str.startswith. induction s as [|c s IH]; simpl; [done|].
  by destruct (ascii_dec c c).
Qed.

Lemma ungoverned_dict_get {A : Type} (event : string) (m : list (string * A)) :
  forallb (fun kv => negb (Str.startswith event (fst kv))) m = true ->
  Engine.dict_get event m = None.
Proof.
  induction m as [|[k v] m IH]; simpl; [done|].
  intros [Hk Hm]%andb_true_iff.
  destruct (String.eqb_spec event k) as [->|_]; [|by apply IH].
  by rewrite startswith_refl in Hk.
Qed.

Lemma ungoverned_no_perms (e : Engine.PermissionEngine) (event : string) :
  Declaration.ungoverned e event = true -> Engine.potential_perms e event = [].
Proof.
  unfold Declaration.ungoverned, Engine.potential_perms. intros H.
  rewrite ungoverned_dict_get by done.
  induction (Engine._event_map e) as [|[k v] m IH]; simpl in *; [done|].
  apply andb_true_iff in H as [Hk Hm].
  destruct (Str.startswith event k); [done|]. by apply IH.
Qed.

Lemma lock_file_modification_passes (plugin_name event : string) (args : list pyval) :
  names_lock_file event args = false ->
  _is_lock_file_modification plugin_name event args = None.
Proof.
  unfold names_lock_file, _is_lock_file_modification.
  induction (paths_to_check event args) as [|path paths IH]; simpl; [done|].
  destruct (Str.contains "permissions.lock.json" (normalise_text path)); simpl; [done|].
  apply IH.
Qed.

(** X3.  The hook is an allow-list on event names: an event that is
    neither an [open] nor a remove, unlink or rename and that no
    registered definition lists, by its name or by a prefix of it, is let
    through for every plugin, whatever its arguments and whatever the
    plugin holds.  Changing the working directory, removing a directory
    and changing the mode of a file are such events under the built-in
    registry. *)
Theorem ungoverned_event_allowed (mgr : AuditHookManager) (proc : Process)
    (event : string) (args : list pyval) :
  Declaration.ungoverned (permission_engine mgr) event = true ->
  event <> "open" -> event <> "os.remove" -> event <> "os.unlink" ->
  event <> "os.rename" ->
  _audit_hook mgr proc event args = (Allowed, mgr).
Proof.
  intros Hun Hopen Hremove Hunlink Hrename. unfold _audit_hook.
  destruct (current_plugin proc) as [plugin_name|]; [|done].
  destruct (String.eqb plugin_name ""); [done|].
  assert (fixed_rules mgr (getcwd proc) plugin_name event args = Some None) as ->.
  { unfold fixed_rules.
    apply String.eqb_neq in Hopen, Hremove, Hunlink, Hrename.
    by rewrite Hopen, Hremove, Hunlink, Hrename. }
  unfold Engine.map_event_to_permissions.
  by rewrite ungoverned_no_perms.
Qed.

(** An instance of X3: plugin [p], which holds [file.read.plugin] alone,
    changes the working directory of the process, removes a directory of
    plugin [q] and makes a file of the application writable by all. *)
Lemma ungoverned_event_allowed_witness :
  _audit_hook Sample.manager (Sample.as_plugin "p") "os.chdir" [PStr "/srv/app/plugins/p"]
  = (Allowed, Sample.manager)
  /\ _audit_hook Sample.manager (Sample.as_plugin "p") "os.rmdir"
       [PStr "/srv/app/plugins/q/cache"; PNone]
     = (Allowed, Sample.manager)
  /\ _audit_hook Sample.manager (Sample.as_plugin "p") "os.chmod"
       [PStr "/srv/app/config.yml"; PInt 438; PNone]
     = (Allowed, Sample.manager).
Proof.
  split; [|split].
  - apply (ungoverned_event_allowed Sample.manager (Sample.as_plugin "p") "os.chdir"
             [PStr "/srv/app/plugins/p"]); [reflexivity|done..].
  - apply (ungoverned_event_allowed Sample.manager (Sample.as_plugin "p") "os.rmdir"
             [PStr "/srv/app/plugins/q/cache"; PNone]); [reflexivity|done..].
  - apply (ungoverned_event_allowed Sample.manager (Sample.as_plugin "p") "os.chmod"
             [PStr "/srv/app/config.yml"; PInt 438; PNone]); [reflexivity|done..].
Defined.

(** Deleting or renaming a file that is not a lock file goes the same
    way: plugin [p] renames a database of plugin [q]. *)
Example rename_of_foreign_file :
  _audit_hook Sample.manager (Sample.as_plugin "p") "os.rename"
    [PStr "/srv/app/plugins/q/data.db"; PStr "/tmp/data.db"]
  = (Allowed, Sample.manager).
Proof. vm_compute. reflexivity. Qed.

(** ** What a call of the hook changes *)

Lemma audit_hook_shape (mgr : AuditHookManager) (proc : Process)
    (event : string) (args : list pyval) :
  match _audit_hook mgr proc event args with
  | (Denied v, mgr') =>
      exists plugin_name,
        current_plugin proc = Some plugin_name /\ plugin_name <> ""
        /\ mgr' = log mgr plugin_name v
  | (_, mgr') => mgr' = mgr
  end.
Proof.
  unfold _audit_hook.
  destruct (current_plugin proc) as [plugin_name|]; [|done].
  destruct (String.eqb_spec plugin_name "") as [|Hne]; [done|].
  destruct (fixed_rules _ _ _ _ _) as [[v|]|]; [by eauto| |done].
  destruct (Engine.map_event_to_permissions _ _ _) as [[|r rs]|]; [done| |done].
  destruct (if String.eqb event "open" then _ else _) as [j|]; [by eauto|].
  unfold capability_check.
  destruct (check_loop _ _ _ _) as [[[|] checked]|]; [done|by eauto|done].
Qed.

(** X4.  A call of the hook never touches the granted capabilities, the
    registered roots or the registry.  It leaves the manager as it was
    unless it denies the event, and a denial happens only for a plugin in
    scope and appends its message to the violations of that plugin and of
    no other. *)
Theorem audit_hook_only_logs (mgr : AuditHookManager) (proc : Process)
    (event : string) (args : list pyval) :
  let out := fst (_audit_hook mgr proc event args) in
  let mgr' := snd (_audit_hook mgr proc event args) in
  Ledger.granted_permissions (permission_manager mgr')
    = Ledger.granted_permissions (permission_manager mgr)
  /\ plugin_root_paths mgr' = plugin_root_paths mgr
  /\ permission_engine mgr' = permission_engine mgr
  /\ match out with
     | Denied v =>
         exists plugin_name,
           current_plugin proc = Some plugin_name /\ plugin_name <> ""
           /\ forall q,
               Ledger.get_violations (permission_manager mgr') q
               = if decide (q = plugin_name)
                 then Ledger.get_violations (permission_manager mgr) q ++ [v]
                 else Ledger.get_violations (permission_manager mgr) q
     | _ => mgr' = mgr
     end.
Proof.
  intros out mgr'. subst out mgr'.
  pose proof (audit_hook_shape mgr proc event args) as H.
  destruct (_audit_hook mgr proc event args) as [[|v|] mgr']; simpl;
    try (subst mgr'; done).
  destruct H as (plugin_name & Hcur & Hne & ->). repeat split.
  exists plugin_name. repeat split; [done..|]. intros q.
  unfold Ledger.get_violations, log, Ledger.log_violation. simpl.
  destruct (decide (q = plugin_name)) as [->|Hq].
  - by rewrite lookup_insert_eq.
  - by rewrite lookup_insert_ne.
Qed.

(** ** A plugin that holds nothing *)

Lemma check_permission_nothing_held (e : Engine.PermissionEngine)
    (m : Ledger.SandboxPermissionManager) (plugin_name required : string)
    (res : pyval) :
  Ledger.granted m plugin_name = ∅ ->
  Ledger.check_permission e m plugin_name required res = Some false.
Proof.
  unfold Ledger.granted, Ledger.check_permission.
  destruct (Ledger.granted_permissions m !! plugin_name) as [g|]; simpl; [|done].
  intros ->. rewrite decide_False by set_solver.
  by rewrite elements_empty.
Qed.

Lemma check_loop_nothing_held (mgr : AuditHookManager) (plugin_name : string)
    (required : list (Engine.PermissionDefinition * pyval)) (checked : list string) :
  Ledger.granted (permission_manager mgr) plugin_name = ∅ ->
  check_loop mgr plugin_name required checked
  = Some (false, checked ++ required_names required).
Proof.
  intros Hnone. revert checked.
  induction required as [|[perm_def res] required IH]; intros checked; simpl.
  - by rewrite app_nil_r.
  - rewrite check_permission_nothing_held by done.
    rewrite IH. by rewrite <- app_assoc.
Qed.

Lemma has_permission_prefix_nothing_held (m : Ledger.SandboxPermissionManager)
    (plugin_name prefix : string) :
  Ledger.granted m plugin_name = ∅ ->
  Ledger.has_permission_prefix m plugin_name prefix = false.
Proof.
  unfold Ledger.granted, Ledger.has_permission_prefix.
  destruct (Ledger.granted_permissions m !! plugin_name) as [g|]; simpl; [|done].
  intros ->. by rewrite elements_empty.
Qed.

(** X5.  The check fails closed.  For a plugin in scope that holds
    nothing, be it unknown to the ledger or known with an empty set, an
    event that maps to at least one capability never goes through: it is
    denied and the denial is logged, or the hook itself fails on the
    arguments of an [open] that are not three. *)
Theorem nothing_held_nothing_allowed (mgr : AuditHookManager) (proc : Process)
    (plugin_name event : string) (args : list pyval)
    (r : Engine.PermissionDefinition * pyval)
    (rs : list (Engine.PermissionDefinition * pyval)) :
  current_plugin proc = Some plugin_name -> plugin_name <> "" ->
  Ledger.granted (permission_manager mgr) plugin_name = ∅ ->
  Engine.map_event_to_permissions (permission_engine mgr) event args = Some (r :: rs) ->
  (exists v, _audit_hook mgr proc event args = (Denied v, log mgr plugin_name v))
  \/ (_audit_hook mgr proc event args = (Crashed, mgr)
      /\ event = "open" /\ length args <> 3).
Proof.
  intros Hcur Hne Hnone Hmap. unfold _audit_hook.
  rewrite Hcur. apply String.eqb_neq in Hne. rewrite Hne.
  destruct (fixed_rules _ _ _ _ _) as [[v|]|] eqn:Hfixed; [by eauto| |].
  - rewrite Hmap. left.
    destruct (if String.eqb event "open" then _ else _) as [j|]; [by eauto|].
    unfold capability_check. rewrite check_loop_nothing_held by done. by eauto.
  - right. split; [done|]. unfold fixed_rules in Hfixed.
    destruct (String.eqb_spec event "open") as [->|_].
    + split; [done|]. by destruct args as [|a [|b [|c [|d args]]]].
    + by destruct (_ || _).
Qed.

(** An instance of X5: a plugin the ledger has never heard of reads a
    file. *)
Lemma nothing_held_nothing_allowed_witness :
  exists v,
    _audit_hook Sample.manager (Sample.as_plugin "stranger") "open"
      [PStr "/srv/app/plugins/stranger/notes.txt"; PStr "r"; PInt 0]
    = (Denied v, log Sample.manager "stranger" v).
Proof.
  destruct (nothing_held_nothing_allowed Sample.manager (Sample.as_plugin "stranger")
              "stranger" "open"
              [PStr "/srv/app/plugins/stranger/notes.txt"; PStr "r"; PInt 0]
              (Engine.file_read_plugin, PStr "/srv/app/plugins/stranger/notes.txt") []
              eq_refl ltac:(done) eq_refl eq_refl) as [H|(_ & _ & H)];
    [exact H|done].
Defined.

(** ** The directory jail without a working directory or a root *)

Lemma directory_jail_no_cwd (mgr : AuditHookManager) (plugin_name path : string) :
  _enforce_directory_jail mgr None plugin_name path <> None.
Proof.
  unfold _enforce_directory_jail.
  destruct (Path.abspath None path); [|done].
  destruct (plugin_root_paths mgr !! plugin_name) as [plugin_root|]; [|done].
  destruct (String.eqb plugin_root ""); [done|].
  by destruct (Path.abspath None plugin_root).
Qed.

(** X6.  When the working directory has been removed, so that
    [os.getcwd()] raises [FileNotFoundError], every [open] of a plugin in
    scope that maps to a capability is denied and logged, wherever the
    file lies and whatever the plugin holds. *)
Theorem open_denied_without_cwd (mgr : AuditHookManager) (proc : Process)
    (plugin_name : string) (path mode flags : pyval)
    (r : Engine.PermissionDefinition * pyval)
    (rs : list (Engine.PermissionDefinition * pyval)) :
  current_plugin proc = Some plugin_name -> plugin_name <> "" ->
  cwd_removed proc ->
  Engine.map_event_to_permissions (permission_engine mgr) "open" [path; mode; flags]
    = Some (r :: rs) ->
  exists v, _audit_hook mgr proc "open" [path; mode; flags]
            = (Denied v, log mgr plugin_name v).
Proof.
  intros Hcur Hne Hcwd Hmap. unfold cwd_removed in Hcwd. unfold _audit_hook.
  rewrite Hcur. apply String.eqb_neq in Hne. rewrite Hne, Hcwd.
  unfold fixed_rules. cbn [String.eqb Ascii.eqb Bool.eqb].
  destruct (_is_lock_file_access _ _ _ _ _ _) as [v|]; [by eauto|].
  rewrite Hmap.
  pose proof (directory_jail_no_cwd mgr plugin_name (py_str path)) as Hjail.
  destruct (_enforce_directory_jail _ _ _ _) as [j|]; [by eauto|done].
Qed.

(** An instance of X6: plugin [q], which holds [file.read.plugin] and a
    [system.] capability, reads a file of its own directory. *)
Lemma open_denied_without_cwd_witness :
  exists v,
    _audit_hook Sample.manager
      {| getcwd := None; current_plugin := Some "q" |} "open"
      [PStr "/srv/app/plugins/q/notes.txt"; PStr "r"; PInt 0]
    = (Denied v, log Sample.manager "q" v).
Proof.
  apply (open_denied_without_cwd Sample.manager
           {| getcwd := None; current_plugin := Some "q" |} "q"
           (PStr "/srv/app/plugins/q/notes.txt") (PStr "r") (PInt 0)
           (Engine.file_read_plugin, PStr "/srv/app/plugins/q/notes.txt") []);
    [reflexivity|done|reflexivity|reflexivity].
Defined.

Lemma lock_file_access_unregistered (mgr : AuditHookManager) (cwd plugin_name : string)
    (path mode flags : pyval) :
  plugin_root_paths mgr !! plugin_name = None
  \/ plugin_root_paths mgr !! plugin_name = Some "" ->
  _is_lock_file_access mgr (Some cwd) plugin_name path mode flags
  = if under_secure_dir (Some cwd) (py_str path)
    then Some (VSecureDir plugin_name (py_str path)) else None.
Proof.
  intros Hroot. unfold _is_lock_file_access, lock_file_access_resolved, under_secure_dir.
  destruct (abspath_resolves cwd (py_str path)) as [abs_path ->].
  destruct (abspath_resolves cwd (Path.join cwd "system_secure")) as [secure_abs ->].
  destruct (Str.startswith abs_path (secure_abs +:+ Path.sep)); [done|].
  by destruct Hroot as [->| ->].
Qed.

Lemma directory_jail_unregistered (mgr : AuditHookManager) (cwd plugin_name path : string) :
  plugin_root_paths mgr !! plugin_name = None
  \/ plugin_root_paths mgr !! plugin_name = Some "" ->
  _enforce_directory_jail mgr (Some cwd) plugin_name path
  = Some (JNotRegistered plugin_name).
Proof.
  intros Hroot. unfold _enforce_directory_jail.
  destruct (abspath_resolves cwd path) as [abs_path ->].
  by destruct Hroot as [->| ->].
Qed.

(** X7.  A plugin in scope whose root directory is not registered, or is
    registered as the empty string, cannot open any file that maps to a
    capability: the open is denied as an access to secure storage or with
    ["root path not registered"], also when the plugin holds the
    capability and a [system.] capability besides. *)
Theorem open_denied_without_root (mgr : AuditHookManager) (proc : Process)
    (cwd plugin_name : string) (path mode flags : pyval)
    (r : Engine.PermissionDefinition * pyval)
    (rs : list (Engine.PermissionDefinition * pyval)) :
  current_plugin proc = Some plugin_name -> plugin_name <> "" ->
  getcwd proc = Some cwd ->
  plugin_root_paths mgr !! plugin_name = None
  \/ plugin_root_paths mgr !! plugin_name = Some "" ->
  Engine.map_event_to_permissions (permission_engine mgr) "open" [path; mode; flags]
    = Some (r :: rs) ->
  let v := if under_secure_dir (Some cwd) (py_str path)
           then VSecureDir plugin_name (py_str path)
           else VJail (JNotRegistered plugin_name) in
  _audit_hook mgr proc "open" [path; mode; flags] = (Denied v, log mgr plugin_name v).
Proof.
  intros Hcur Hne Hcwd Hroot Hmap v. subst v. unfold _audit_hook.
  rewrite Hcur. apply String.eqb_neq in Hne. rewrite Hne, Hcwd.
  unfold fixed_rules. cbn [String.eqb Ascii.eqb Bool.eqb].
  rewrite lock_file_access_unregistered by done.
  destruct (under_secure_dir (Some cwd) (py_str path)); [done|].
  rewrite Hmap. by rewrite directory_jail_unregistered.
Qed.

(** An instance of X7: the roots are reset while [q] is in scope. *)
Lemma open_denied_without_root_witness :
  _audit_hook (set_plugin_root_paths Sample.manager ∅) (Sample.as_plugin "q") "open"
    [PStr "/srv/app/plugins/q/notes.txt"; PStr "r"; PInt 0]
  = (Denied (VJail (JNotRegistered "q")),
     log (set_plugin_root_paths Sample.manager ∅) "q" (VJail (JNotRegistered "q"))).
Proof.
  apply (open_denied_without_root (set_plugin_root_paths Sample.manager ∅)
           (Sample.as_plugin "q") "/srv/app" "q"
           (PStr "/srv/app/plugins/q/notes.txt") (PStr "r") (PInt 0)
           (Engine.file_read_plugin, PStr "/srv/app/plugins/q/notes.txt") []);
    [reflexivity|done|reflexivity|by left|reflexivity].
Defined.

End HookFacts.

(** ** The ledger under [grant_permissions] *)

Section LedgerFacts.
Import Ledger.

Lemma grant_fold_elem (e : Engine.PermissionEngine)
    (permissions : list SandboxPermission) (acc : gset string) (n : string) :
  n ∈ fold_left
        (fun acc permission =>
           match Engine.find_definition_for_declaration
                   e (type permission) (resource permission) with
           | Some perm_def => acc ∪ {[Engine.name perm_def]}
           | None => acc
           end) permissions acc
  <-> n ∈ acc
      \/ exists permission perm_def,
           permission ∈ permissions
           /\ Engine.find_definition_for_declaration
                e (type permission) (resource permission) = Some perm_def
           /\ Engine.name perm_def = n.
Proof.
  revert acc. induction permissions as [|perm permissions IH]; intros acc; simpl.
  - split; [by left|]. intros [H|(p & d & Hp & _)]; [done|]. by apply elem_of_nil in Hp.
  - rewrite IH. split.
    + intros [Hacc|(p & d & Hp & Hd & Hn)].
      * destruct (Engine.find_definition_for_declaration e (type perm) (resource perm))
          as [d|] eqn:Hd; [|by left].
        apply elem_of_union in Hacc as [Hacc|Hn%elem_of_singleton]; [by left|].
        right. exists perm, d. split; [apply list_elem_of_here|done].
      * right. exists p, d. split; [by apply list_elem_of_further|done].
    + intros [Hacc|(p & d & Hp & Hd & Hn)].
      * left. destruct (Engine.find_definition_for_declaration _ _ _); set_solver.
      * apply elem_of_cons in Hp as [->|Hp].
        -- left. rewrite Hd. set_solver.
        -- right. by exists p, d.
Qed.

(** X8.  [grant_permissions] only ever adds: the plugin named keeps what
    it held and gains exactly the names of the definitions its
    declarations map to, a declaration that maps to nothing adds
    nothing, and the capabilities of every other plugin and all logged
    violations stay as they were. *)
Theorem grant_permissions_adds_mapped (e : Engine.PermissionEngine)
    (m : SandboxPermissionManager) (plugin_name : string)
    (permissions : list SandboxPermission) :
  let m' := grant_permissions e m plugin_name permissions in
  (forall n,
      n ∈ granted m' plugin_name
      <-> n ∈ granted m plugin_name
          \/ exists permission perm_def,
               permission ∈ permissions
               /\ Engine.find_definition_for_declaration
                    e (type permission) (resource permission) = Some perm_def
               /\ Engine.name perm_def = n)
  /\ (forall other, other <> plugin_name ->
        granted_permissions m' !! other = granted_permissions m !! other)
  /\ permission_violations m' = permission_violations m.
Proof.
  intros m'. subst m'. split; [|split; [|done]].
  - intros n. unfold granted at 1, grant_permissions. simpl.
    rewrite lookup_insert_eq. simpl. apply grant_fold_elem.
  - intros other Hne. unfold grant_permissions. simpl. by rewrite lookup_insert_ne.
Qed.

End LedgerFacts.

(** ** The hook manager as a singleton *)

Section ActivationFacts.
Import Activation.

Lemma run_from_instance (calls : list call) (p : process) (i : instance) :
  _instance p = Some i ->
  exists i',
    _instance (run calls p) = Some i'
    /\ permission_manager i' = permission_manager i
    /\ is_active i'
       = (is_active i
          || match permission_manager i with
             | Some _ => existsb is_activate calls
             | None => false
             end)
    /\ audit_hooks (run calls p)
       = audit_hooks p + (if is_active i' && negb (is_active i) then 1 else 0).
Proof.
  revert p i. induction calls as [|c calls IH]; intros p i Hi.
  - exists i. simpl. repeat split; [done| |].
    + destruct (is_active i), (permission_manager i); done.
    + destruct (is_active i); simpl; lia.
  - destruct c as [pm|]; cbn [run existsb is_activate orb].
    + unfold construct. rewrite Hi. by apply IH.
    + unfold activate. rewrite Hi.
      destruct (is_active i) eqn:Hact.
      * destruct (IH p i Hi) as (i' & Hi' & Hpm & Hact' & Hhooks).
        exists i'. rewrite Hact in *. repeat split; try done.
      * destruct (permission_manager i) as [pm|] eqn:Hpm.
        -- edestruct (IH {| _instance := Some {| permission_manager := Some pm;
                                                 is_active := true |};
                            audit_hooks := S (audit_hooks p) |}) as
             (i' & Hi' & Hpm' & Hact' & Hhooks); [done|].
           exists i'. simpl in *. rewrite Hact' in *. repeat split; try done.
           rewrite Hhooks. simpl. lia.
        -- destruct (IH p i Hi) as (i' & Hi' & Hpm' & Hact' & Hhooks).
           exists i'. rewrite Hact, Hpm in *. repeat split; try done.
Qed.

(** X9.  The hook manager is a singleton that keeps the permission
    manager of its first construction: later constructions change
    nothing.  After any sequence of constructions and activations the
    hook is installed at most once, and it is installed exactly when the
    first construction was given a permission manager and [activate] has
    been called; a manager first constructed without one can never be
    activated. *)
Theorem singleton_keeps_first_manager
    (pm : option Ledger.SandboxPermissionManager) (calls : list call) :
  exists i,
    _instance (run calls (construct pm start)) = Some i
    /\ permission_manager i = pm
    /\ is_active i
       = match pm with
         | Some _ => existsb is_activate calls
         | None => false
         end
    /\ audit_hooks (run calls (construct pm start)) = (if is_active i then 1 else 0).
Proof.
  destruct (run_from_instance calls (construct pm start)
              {| permission_manager := pm; is_active := false |} eq_refl)
    as (i & Hi & Hpm & Hact & Hhooks).
  exists i. simpl in *. repeat split; try done.
  rewrite Hhooks. by destruct (is_active i).
Qed.

End ActivationFacts.

(** ** The dependency resolver across calls *)

Section ResolverAgain.
Import Resolver.

(** X10.  The resolver keeps its order between calls.  When
    [resolve_dependencies] has returned an order, calling it again on the
    same resolver returns that order followed by a second complete
    order of the graph: every plugin is then listed twice.  The loader
    holds one resolver for its lifetime, so this is what a second
    [load_all_plugins] iterates over. *)
Theorem resolve_dependencies_accumulates (r r' : DependencyResolver)
    (first : list string) :
  resolve_dependencies r = (Order first, r') ->
  dependency_graph r' = dependency_graph r
  /\ resolved_order r' = first
  /\ exists again,
       fst (resolve_dependencies r') = Order (first ++ again)
       /\ NoDup again
       /\ (forall n, n ∈ again <-> contains (dependency_graph r) n = true)
       /\ topological (dependency_graph r) again.
Proof.
  destruct r as [g prior]. unfold resolve_dependencies at 1.
  destruct (run_visits {| dependency_graph := g; resolved_order := prior |})
    as [s|n sr|] eqn:Hrun; [|discriminate..].
  intros [= <- <-]. cbn [dependency_graph resolved_order]. split; [done|]. split; [done|].
  apply run_visits_ok in Hrun as (new & _ & Hnd & Hcov & Htopo).
  unfold resolve_dependencies.
  destruct (run_visits {| dependency_graph := g; resolved_order := order s |})
    as [s2|n sr|] eqn:Hrun2.
  - apply run_visits_ok in Hrun2 as (again & Ho & Hnd2 & Hcov2 & Htopo2).
    exists again. cbn [fst]. by rewrite Ho.
  - apply run_visits_raise in Hrun2. exfalso.
    apply (topological_acyclic g new Hnd Htopo). by exists n.
  - by apply run_visits_total in Hrun2.
Qed.

(** An instance of X10. *)
Lemma resolve_dependencies_accumulates_witness :
  exists again,
    fst (resolve_dependencies
           {| dependency_graph := [("app", ["db"]); ("db", [])];
              resolved_order := ["db"; "app"] |})
    = Order (["db"; "app"] ++ again)
    /\ NoDup again
    /\ (forall n, n ∈ again <-> contains [("app", ["db"]); ("db", [])] n = true)
    /\ topological [("app", ["db"]); ("db", [])] again.
Proof.
  exact (proj2 (proj2 (resolve_dependencies_accumulates
                         {| dependency_graph := [("app", ["db"]); ("db", [])];
                            resolved_order := [] |}
                         {| dependency_graph := [("app", ["db"]); ("db", [])];
                            resolved_order := ["db"; "app"] |}
                         ["db"; "app"] eq_refl))).
Defined.

End ResolverAgain.

(** ** Chains: resolution, validation and the default handler *)

Section ChainAgain.
Import Ctx Chain Handlers.
Variable r : ChainRunner.

Lemma untraced_add_trace (c : RequestContext) (m : trace_entry) :
  untraced (add_trace c m) = untraced c.
Proof. unfold add_trace. by destruct (trace_log c). Qed.

Lemma traced_only_refl (ctx : option RequestContext) : traced_only ctx ctx.
Proof. by destruct ctx. Qed.

Lemma traced_only_trans (a b c : option RequestContext) :
  traced_only a b -> traced_only b c -> traced_only a c.
Proof. destruct a, b, c; simpl; try done. congruence. Qed.

Lemma traced_only_trace (ctx : option RequestContext) (m : trace_entry) :
  traced_only ctx (trace ctx m).
Proof. destruct ctx; simpl; [|done]. apply untraced_add_trace. Qed.

Lemma splice_spec (preset_chain acc : list string) (ctx : option RequestContext) :
  fst (splice preset_chain acc ctx)
  = acc ++ List.filter (fun item => negb (String.eqb item "__NEXT__")) preset_chain
  /\ traced_only ctx (snd (splice preset_chain acc ctx)).
Proof.
  revert acc ctx. induction preset_chain as [|item rest IH]; intros acc ctx; simpl.
  - rewrite app_nil_r. split; [done|apply traced_only_refl].
  - destruct (String.eqb item "__NEXT__"); simpl.
    + destruct (IH acc (trace ctx SkippingNext)) as [-> Ht]. split; [done|].
      eapply traced_only_trans; [apply traced_only_trace|exact Ht].
    + destruct (IH (acc ++ [item]) ctx) as [-> Ht]. by rewrite <- app_assoc.
Qed.

Lemma expand_spec (chain acc : list string) (ctx : option RequestContext) :
  fst (expand r chain acc ctx) = acc ++ expanded r chain
  /\ traced_only ctx (snd (expand r chain acc ctx)).
Proof.
  revert acc ctx. induction chain as [|plugin_ref rest IH]; intros acc ctx;
    cbn [expand expanded flat_map].
  - cbn [fst snd]. rewrite app_nil_r. split; [done|apply traced_only_refl].
  - destruct (preset_of r plugin_ref) as [preset_chain|].
    + pose proof (splice_spec preset_chain acc
                    (trace ctx (Expanding plugin_ref preset_chain))) as [Hs Ht].
      destruct (splice preset_chain acc _) as [acc' ctx']. simpl in Hs, Ht. subst acc'.
      destruct (IH (acc ++ List.filter (fun item => negb (String.eqb item "__NEXT__"))
                            preset_chain) ctx') as [-> Ht'].
      split; [by rewrite <- app_assoc|].
      eapply traced_only_trans; [apply traced_only_trace|].
      eapply traced_only_trans; [exact Ht|exact Ht'].
    + destruct (IH (acc ++ [plugin_ref]) (trace ctx (AddingNormal plugin_ref)))
        as [-> Ht'].
      split; [by rewrite <- app_assoc|].
      eapply traced_only_trans; [apply traced_only_trace|exact Ht'].
Qed.

Lemma meta_route_chain_spec (route : string) (ctx : option RequestContext) :
  fst (meta_route_chain r route ctx) = fst (meta_route_chain r route None)
  /\ traced_only ctx (snd (meta_route_chain r route ctx)).
Proof.
  unfold meta_route_chain.
  destruct (Str.split_once ":"%char (Str.lstrip "/"%char route)) as [[m cn]|];
    [|split; [done|apply traced_only_refl]].
  destruct (plugins r !! m) as [[h [mp|]]|];
    [|split; [done|apply traced_only_refl]..].
  destruct (chains mp !! _) as [d|]; [|split; [done|apply traced_only_refl]].
  destruct (def_truthy d); (split; [done|]);
    [apply traced_only_trace|apply traced_only_refl].
Qed.

Lemma get_chain_for_route_spec (route : string) (ctx : option RequestContext) :
  let chain := default (expanded r (initial_chain r route)) (_chain_cache r !! route) in
  fst (get_chain_for_route r route ctx)
  = (chain,
     match _chain_cache r !! route with
     | Some _ => r
     | None => set_cache r route chain
     end)
  /\ traced_only ctx (snd (get_chain_for_route r route ctx)).
Proof.
  unfold get_chain_for_route, initial_chain.
  destruct (_chain_cache r !! route) as [cached|];
    [split; [done|apply traced_only_trace]|]. cbn [default].
  set (ctx1 := trace (trace ctx (NotInCache route)) (InitialChain (config_chain r route))).
  assert (traced_only ctx ctx1) as H1.
  { eapply traced_only_trans; [apply traced_only_trace|apply traced_only_trace]. }
  assert (forall chain0 ctx2,
             traced_only ctx ctx2 ->
             fst (let '(expanded_chain, context) := expand r chain0 [] ctx2 in
                  (expanded_chain, set_cache r route expanded_chain,
                   trace context (ResolvedAndCached route expanded_chain)))
             = (expanded r chain0, set_cache r route (expanded r chain0))
             /\ traced_only ctx
                  (snd (let '(expanded_chain, context) := expand r chain0 [] ctx2 in
                        (expanded_chain, set_cache r route expanded_chain,
                         trace context (ResolvedAndCached route expanded_chain)))))
    as Hexp.
  { intros chain0 ctx2 H2. pose proof (expand_spec chain0 [] ctx2) as [He Ht].
    destruct (expand r chain0 [] ctx2) as [ex ctx3]. simpl in *. subst ex.
    split; [done|].
    eapply traced_only_trans; [exact H2|].
    eapply traced_only_trans; [exact Ht|apply traced_only_trace]. }
  destruct (config_chain r route) as [|p ps] eqn:Hcfg.
  - destruct (Str.has_char ":"%char route).
    + pose proof (meta_route_chain_spec route ctx1) as [Hm Ht].
      destruct (meta_route_chain r route ctx1) as [mc ctx2]. simpl in Hm, Ht.
      subst mc. apply Hexp. by eapply traced_only_trans.
    + by apply Hexp.
  - by apply Hexp.
Qed.

End ChainAgain.

(** X11.  Resolving a route answers the cached chain when there is one
    and otherwise expands the configured chain, or the chain of a
    meta-plugin for a route [meta:chain] without configuration: presets
    are replaced by their items in place, one level deep, without the
    [__NEXT__] placeholder, and every other reference is kept.  The
    answer and the cache entry written are the same with tracing on or
    off, and after [clear_cache] every route is resolved from the
    configuration again. *)
Theorem chain_resolution_expands (r : Chain.ChainRunner) (route : string)
    (ctx : option Ctx.RequestContext) :
  (forall cached, Chain._chain_cache r !! route = Some cached ->
                  fst (Chain.get_chain_for_route r route ctx) = (cached, r))
  /\ (Chain._chain_cache r !! route = None ->
      fst (Chain.get_chain_for_route r route ctx)
      = (Handlers.expanded r (Handlers.initial_chain r route),
         Chain.set_cache r route (Handlers.expanded r (Handlers.initial_chain r route))))
  /\ fst (Chain.get_chain_for_route r route ctx)
     = fst (Chain.get_chain_for_route r route None)
  /\ fst (fst (Chain.get_chain_for_route (Chain.clear_cache r) route ctx))
     = Handlers.expanded r (Handlers.initial_chain r route).
Proof.
  pose proof (get_chain_for_route_spec r route ctx) as [H _].
  pose proof (get_chain_for_route_spec r route None) as [H0 _].
  pose proof (get_chain_for_route_spec (Chain.clear_cache r) route ctx) as [Hc _].
  cbn zeta in H, H0, Hc. repeat split.
  - intros cached Hcached. by rewrite H, Hcached.
  - intros Hcached. by rewrite H, Hcached.
  - by rewrite H, H0.
  - rewrite Hc. cbn [fst Chain.clear_cache Chain._chain_cache].
    by rewrite lookup_empty.
Qed.

(** ** Runs: validation and the default handler *)

Section ChainRuns.
Import Ctx Chain Handlers.
Variable r : ChainRunner.

Lemma resolve_plugin_spec (plugin_name : string) (ctx : option RequestContext) :
  fst (_resolve_plugin r plugin_name ctx) = fst (_resolve_plugin r plugin_name None)
  /\ traced_only ctx (snd (_resolve_plugin r plugin_name ctx)).
Proof.
  unfold _resolve_plugin.
  destruct (Str.has_char "."%char plugin_name).
  - destruct (Str.split_once "."%char plugin_name) as [[m sub]|];
      [|split; [done|apply traced_only_trace]].
    destruct (plugins r !! m) as [mp|]; [|split; [done|apply traced_only_trace]].
    assert (traced_only ctx
              (trace (trace ctx (ResolvingSubPlugin plugin_name)) (FoundMetaPlugin m)))
      as H2 by (eapply traced_only_trans; apply traced_only_trace).
    destruct (meta mp) as [mpart|]; [|done].
    destruct (subplugins mpart !! sub); [|done].
    split; [done|]. eapply traced_only_trans; [exact H2|apply traced_only_trace].
  - destruct (plugins r !! plugin_name); [|split; [done|apply traced_only_trace]].
    split; [done|]. eapply traced_only_trans; apply traced_only_trace.
Qed.

Lemma validate_spec (plugin_chain : list string) (c : RequestContext)
    (acc : list (string * resolve_error)) :
  fst (validate r plugin_chain c acc) = acc ++ missing r plugin_chain
  /\ untraced (snd (validate r plugin_chain c acc)) = untraced c.
Proof.
  revert c acc. induction plugin_chain as [|n rest IH]; intros c acc.
  - simpl. by rewrite app_nil_r.
  - change (missing r (n :: rest))
      with (match fst (_resolve_plugin r n None) with
            | inr e => [(n, e)]
            | inl _ => []
            end ++ missing r rest).
    cbn [validate].
    pose proof (resolve_plugin_spec n (Some c)) as [Hf Ht].
    destruct (_resolve_plugin r n (Some c)) as [res c']. cbn [fst snd] in Hf, Ht.
    rewrite <- Hf. destruct c' as [c'|]; [|done].
    cbn [traced_only default from_option id] in *.
    destruct res as [h|e].
    + destruct (IH c' acc) as [-> ->]. done.
    + destruct (IH c' (acc ++ [(n, e)])) as [-> ->]. by rewrite <- app_assoc.
Qed.

(** The context [run] starts from. *)
Lemma run_entry_untraced (request_data : gmap string pyval) :
  untraced
    (if truthy (default PNone (request_data !! "_trace")) then
       add_trace (set_trace_log (new request_data) (Some []))
                 (TraceEnabled (default PNone (request_data !! "request_id")))
     else new request_data)
  = untraced (new request_data).
Proof. by destruct (truthy _). Qed.

Lemma untraced_response (c c' : RequestContext) :
  untraced c' = untraced c ->
  is_short_circuited c' = is_short_circuited c
  /\ response_data c' = response_data c
  /\ current_plugin_name c' = current_plugin_name c
  /\ user_id c' = user_id c.
Proof.
  intros H.
  change (is_short_circuited (untraced c') = is_short_circuited (untraced c)
          /\ response_data (untraced c') = response_data (untraced c)
          /\ current_plugin_name (untraced c') = current_plugin_name (untraced c)
          /\ user_id (untraced c') = user_id (untraced c)).
  by rewrite H.
Qed.

End ChainRuns.

(** X12.  A route for which neither the cache, the configuration nor a
    meta-plugin gives a chain, in a runner without the default
    [auth_plugin], is answered with ["No handlers configured for route"]:
    no handler is called, the context is not short-circuited, and the
    response carries no trace even when tracing was asked for. *)
Theorem unconfigured_route_is_refused (r : Chain.ChainRunner) (route : string)
    (request_data : gmap string pyval) :
  Handlers.effective_chain r route = [] ->
  exists c,
    Chain.run r route request_data
    = (Chain.Returns c, [], snd (fst (Chain.get_chain_for_route r route None)))
    /\ Ctx.response_data c = Ctx.error_response (Ctx.NoHandlersConfigured route)
    /\ Ctx.is_short_circuited c = false.
Proof.
  intros Heff. unfold Chain.run, Chain.run_body.
  set (c0 := if Ctx.truthy _ then _ else _).
  pose proof (get_chain_for_route_spec r route (Some c0)) as [Hf Ht].
  pose proof (get_chain_for_route_spec r route None) as [Hf0 _].
  unfold Handlers.effective_chain, Handlers.resolved_chain in Heff.
  rewrite <- Hf0 in Hf.
  destruct (Chain.get_chain_for_route r route (Some c0)) as [[chain r'] c'].
  cbn [fst snd] in Hf, Ht. rewrite <- Hf in *. cbn [fst snd] in *.
  destruct chain as [|n chain]; [|done].
  assert (Chain.get_default_chain_for_route r' = Chain.get_default_chain_for_route r)
    as Hdef.
  { cbn zeta in Hf0. injection Hf0 as _ ->.
    by destruct (Chain._chain_cache r !! route). }
  rewrite Hdef, Heff. eexists. split; [reflexivity|]. split; [done|].
  destruct c' as [c'|]; [|done]. cbn [Handlers.traced_only default from_option id] in *.
  cbn [Chain.context Ctx.set_response Ctx.is_short_circuited].
  rewrite !add_trace_short_circuited.
  apply untraced_response in Ht as (-> & _).
  unfold c0. by destruct (Ctx.truthy _).
Qed.

(** An instance of X12. *)
Lemma unconfigured_route_is_refused_witness :
  exists c,
    Chain.run Sample.runner "/nowhere" {[ "_trace" := PInt 1 ]}
    = (Chain.Returns c, [],
       snd (fst (Chain.get_chain_for_route Sample.runner "/nowhere" None)))
    /\ Ctx.response_data c = Ctx.error_response (Ctx.NoHandlersConfigured "/nowhere")
    /\ Ctx.is_short_circuited c = false.
Proof.
  apply (unconfigured_route_is_refused Sample.runner "/nowhere" {[ "_trace" := PInt 1 ]}).
  reflexivity.
Defined.

Lemma missing_after_resolution (r : Chain.ChainRunner) (route : string)
    (plugin_chain : list string) (c : Ctx.RequestContext)
    (acc : list (string * Ctx.resolve_error)) :
  let r' := snd (fst (Chain.get_chain_for_route r route None)) in
  Chain.validate r' plugin_chain c acc = Chain.validate r plugin_chain c acc
  /\ Chain.get_default_chain_for_route r' = Chain.get_default_chain_for_route r.
Proof.
  pose proof (get_chain_for_route_spec r route None) as [H _]. cbn zeta in *.
  rewrite H. cbn [fst snd].
  destruct (Chain._chain_cache r !! route) as [cached|]; [done|].
  split; [|done].
  revert c acc. induction plugin_chain as [|n rest IH]; intros c acc; [done|].
  cbn [Chain.validate].
  change (Chain._resolve_plugin (Chain.set_cache r route _) n (Some c))
    with (Chain._resolve_plugin r n (Some c)).
  destruct (Chain._resolve_plugin r n (Some c)) as [[h|e] c']; apply IH.
Qed.

(** X13.  Validation comes before execution.  When a name of the chain
    does not resolve, be it a missing plugin, a plugin that is not a
    meta-plugin or a missing sub-plugin, [run] answers with the list of
    all such names and their errors in the order of the chain, and no
    handler has been called, not even those standing before the first
    missing one. *)
Theorem missing_plugin_refuses_route (r : Chain.ChainRunner) (route : string)
    (request_data : gmap string pyval) :
  Handlers.missing r (Handlers.effective_chain r route) <> [] ->
  exists c,
    Chain.run r route request_data
    = (Chain.Returns c, [], snd (fst (Chain.get_chain_for_route r route None)))
    /\ Ctx.response_data c
       = Ctx.error_response
           (Ctx.MissingPlugins route
              (Handlers.missing r (Handlers.effective_chain r route)))
    /\ Ctx.is_short_circuited c = false.
Proof.
  intros Hmiss. unfold Chain.run, Chain.run_body.
  set (c0 := if Ctx.truthy _ then _ else _).
  assert (Ctx.is_short_circuited c0 = false) as Hc0
    by (unfold c0; by destruct (Ctx.truthy _)).
  pose proof (get_chain_for_route_spec r route (Some c0)) as [Hf Ht].
  pose proof (get_chain_for_route_spec r route None) as [Hf0 _].
  pose proof (missing_after_resolution r route) as Hafter. cbn zeta in Hafter.
  unfold Handlers.effective_chain, Handlers.resolved_chain in Hmiss |- *.
  rewrite <- Hf0 in Hf.
  destruct (Chain.get_chain_for_route r route (Some c0)) as [[chain r'] c'].
  cbn [fst snd] in Hf, Ht. rewrite <- Hf in *. cbn [fst snd] in *. clear Hf Hf0.
  destruct c' as [c'|]; [|done]. cbn [Handlers.traced_only default from_option id] in *.
  apply untraced_response in Ht as (Hflag & _). rewrite Hc0 in Hflag.
  assert (forall plugin_chain c1,
             Handlers.missing r plugin_chain <> [] ->
             Ctx.is_short_circuited c1 = false ->
             exists c,
               (let '(s, e, r'0) :=
                  match Chain.validate r' plugin_chain (Ctx.add_trace c1 Ctx.Validating) []
                  with
                  | (m :: ms, c) =>
                      let c := Ctx.add_trace c (Ctx.ValidationFailed route (m :: ms)) in
                      ({| Chain.context :=
                            Ctx.set_response c
                              (Ctx.error_response (Ctx.MissingPlugins route (m :: ms)));
                          Chain.calls := [] |}, None, r')
                  | ([], c) =>
                      let c := Ctx.add_trace c Ctx.AllValid in
                      let c :=
                        match request_data !! "user_id" with
                        | Some v => if Ctx.truthy v then Ctx.set_user_id c (py_str v) else c
                        | None => c
                        end in
                      match Chain._execute_chain r' plugin_chain 0
                              {| Chain.context := c; Chain.calls := [] |} with
                      | (s, Some e) => (s, Some e, r')
                      | (s, None) =>
                          let c := Ctx.add_trace (Chain.context s) Ctx.ChainFinished in
                          let c :=
                            match Ctx.trace_log c with
                            | Some log =>
                                Ctx.set_response c
                                  {| Ctx.error_key := Ctx.error_key (Ctx.response_data c);
                                     Ctx.errors := Ctx.errors (Ctx.response_data c);
                                     Ctx._trace := Some log;
                                     Ctx.other_keys := Ctx.other_keys (Ctx.response_data c) |}
                            | None => c
                            end in
                          (Chain.with_context s c, None, r')
                      end
                  end in
                match e with
                | None => (Chain.Returns (Chain.context s), Chain.calls s, r'0)
                | Some e =>
                    if Ctx.is_exception e then
                      (Chain.Returns
                         (Ctx.set_short_circuited
                            (Ctx.set_response (Ctx.new request_data)
                               (Ctx.error_response (Ctx.ChainExecutionFailed e))) true),
                       Chain.calls s, r'0)
                    else (Chain.Raises e, Chain.calls s, r'0)
                end)
               = (Chain.Returns c, [], r')
               /\ Ctx.response_data c
                  = Ctx.error_response
                      (Ctx.MissingPlugins route (Handlers.missing r plugin_chain))
               /\ Ctx.is_short_circuited c = false) as Hvalidate.
  { intros plugin_chain c1 Hm Hc1.
    rewrite (proj1 (Hafter plugin_chain (Ctx.add_trace c1 Ctx.Validating) [])).
    pose proof (validate_spec r plugin_chain (Ctx.add_trace c1 Ctx.Validating) [])
      as [Hv Hu].
    destruct (Chain.validate r plugin_chain _ []) as [ms c2]. cbn [fst snd app] in Hv, Hu.
    subst ms. destruct (Handlers.missing r plugin_chain) as [|m ms]; [done|].
    eexists. split; [reflexivity|]. split; [done|].
    cbn [Chain.context Ctx.set_response Ctx.is_short_circuited].
    rewrite add_trace_short_circuited.
    apply untraced_response in Hu as (-> & _).
    by rewrite add_trace_short_circuited. }
  destruct chain as [|n chain].
  - rewrite (proj2 (Hafter [] c0 [])).
    unfold Chain.get_default_chain_for_route in Hmiss |- *.
    destruct (Chain.plugins r !! "auth_plugin") as [p|] eqn:Hp; [|done].
    exfalso. apply Hmiss. unfold Handlers.missing, Chain._resolve_plugin. simpl.
    by rewrite Hp.
  - apply Hvalidate; done.
Qed.

(** An instance of X13: [/chat] with the plugin [provider] taken away. *)
Lemma missing_plugin_refuses_route_witness :
  exists c,
    Chain.run Sample.runner_without_provider "/chat" ∅
    = (Chain.Returns c, [],
       snd (fst (Chain.get_chain_for_route Sample.runner_without_provider "/chat" None)))
    /\ Ctx.response_data c
       = Ctx.error_response
           (Ctx.MissingPlugins "/chat" [("provider", Ctx.PluginNotFound "provider")])
    /\ Ctx.is_short_circuited c = false.
Proof.
  assert (Handlers.missing Sample.runner_without_provider
            (Handlers.effective_chain Sample.runner_without_provider "/chat")
          = [("provider", Ctx.PluginNotFound "provider")]) as Hmissing
    by (vm_compute; reflexivity).
  destruct (missing_plugin_refuses_route Sample.runner_without_provider "/chat" ∅)
    as (c & Hrun & Hresponse & Hflag).
  - rewrite Hmissing. discriminate.
  - exists c. rewrite Hmissing in Hresponse. by repeat split.
Defined.

(** ** The default handler and handlers that answer *)

Section DefaultHandlers.
Import Ctx Chain Handlers.
Variable r : ChainRunner.

Lemma execute_from_cons (plugin_name : string) (rest : list string) (index : nat)
    (s : run_state) :
  is_short_circuited (context s) = false ->
  execute_from r (plugin_name :: rest) index s
  = match _resolve_plugin r plugin_name
            (Some (add_trace (set_current_plugin (context s) plugin_name)
                             (Executing index plugin_name))) with
    | (inr e, c') =>
        (with_context s
           (default (add_trace (set_current_plugin (context s) plugin_name)
                               (Executing index plugin_name)) c'),
         Some (ResolveError e))
    | (inl plugin_handle, c') =>
        match run_action
                (match rest with
                 | [] => None
                 | _ :: _ => Some (execute_from r rest (S index))
                 end)
                (plugin_handle
                   (default (add_trace (set_current_plugin (context s) plugin_name)
                                       (Executing index plugin_name)) c'))
                (calls s ++ [(index, plugin_name)]) with
        | (s', None) =>
            (with_context s'
               (add_trace (context s') (FinishedSuccessfully plugin_name)), None)
        | (s', Some e) =>
            if is_exception e then
              match record_failure (context s') plugin_name e with
              | Some c => (with_context s' c, None)
              | None =>
                  (with_context s'
                     (add_trace (context s') (ExecutionFailed plugin_name e)),
                   Some NoAppendMethod)
              end
            else (s', Some e)
        end
    end.
Proof. intros H. cbn [execute_from]. by rewrite H. Qed.

Lemma resolve_plain (plugin_name : string) (p : Plugin) (c : RequestContext) :
  Str.has_char "."%char plugin_name = false ->
  plugins r !! plugin_name = Some p ->
  _resolve_plugin r plugin_name (Some c)
  = (inl (handle p),
     Some (add_trace (add_trace c (ResolvingNormal plugin_name))
                     (ResolvedNormal plugin_name))).
Proof. intros Hdot Hp. unfold _resolve_plugin. by rewrite Hdot, Hp. Qed.

Lemma untraced_fold (names : list string) (c c' : RequestContext) :
  untraced c' = untraced c ->
  untraced (fold_left set_current_plugin names c')
  = untraced (fold_left set_current_plugin names c).
Proof.
  revert c c'. induction names as [|n names IH]; intros c c' H; simpl; [done|].
  apply IH.
  change (set_current_plugin (untraced c') n = set_current_plugin (untraced c) n).
  by rewrite H.
Qed.

Lemma current_plugin_fold (names : list string) (c : RequestContext) :
  current_plugin_name (fold_left set_current_plugin names c)
  = match last names with
    | Some n => Some n
    | None => current_plugin_name c
    end.
Proof.
  revert c. induction names as [|n names IH]; intros c; [done|].
  cbn [fold_left]. rewrite IH.
  destruct names as [|n' names]; [done|]. rewrite last_cons_cons.
  destruct (last (n' :: names)) eqn:Hlast; [done|].
  by apply last_None in Hlast.
Qed.

Lemma response_fold (names : list string) (c : RequestContext) :
  response_data (fold_left set_current_plugin names c) = response_data c
  /\ is_short_circuited (fold_left set_current_plugin names c) = is_short_circuited c.
Proof.
  revert c. induction names as [|n names IH]; intros c; simpl; [done|].
  by destruct (IH (set_current_plugin c n)) as [-> ->].
Qed.

(** The context in which the handler of a step is called. *)
Lemma step_context (c : RequestContext) (index : nat) (n : string) :
  untraced (add_trace (add_trace (add_trace (set_current_plugin c n)
                                            (Executing index n))
                                 (ResolvingNormal n))
                      (ResolvedNormal n))
  = untraced (set_current_plugin c n).
Proof. by rewrite !untraced_add_trace. Qed.

Lemma execute_from_pass_through (names : list string) (index : nat) (s : run_state) :
  Forall (passes_through r) names ->
  is_short_circuited (context s) = false ->
  exists s',
    execute_from r names index s = (s', None)
    /\ calls s' = calls s ++ steps index names
    /\ untraced (context s')
       = untraced (fold_left set_current_plugin names (context s)).
Proof.
  revert index s. induction names as [|n names IH]; intros index s Hall Hflag.
  - cbn [execute_from]. rewrite Hflag. eexists. split; [reflexivity|].
    cbn [with_context calls context steps fold_left]. rewrite app_nil_r.
    split; [done|apply untraced_add_trace].
  - apply Forall_cons in Hall as [(Hdot & p & Hp & Hh) Hall].
    rewrite execute_from_cons by done.
    rewrite (resolve_plain n p) by done. cbn [default from_option id].
    rewrite Hh. unfold default_handle.
    set (c1 := add_trace (add_trace (add_trace (set_current_plugin (context s) n) _) _) _).
    assert (untraced c1 = untraced (set_current_plugin (context s) n)) as Hc1
      by apply step_context.
    destruct names as [|n2 rest].
    + cbn [run_action]. eexists. split; [reflexivity|].
      cbn [with_context calls context steps fold_left].
      split; [done|]. by rewrite untraced_add_trace.
    + destruct (IH (S index) {| context := c1; calls := calls s ++ [(index, n)] |} Hall)
        as (s2 & Hrun & Hcalls & Hctx).
      { cbn [context]. apply untraced_response in Hc1 as (-> & _). done. }
      cbn [run_action]. rewrite Hrun. cbn [run_action context calls].
      eexists. split; [reflexivity|].
      cbn [with_context calls context]. split.
      * rewrite Hcalls. cbn [calls]. by rewrite <- app_assoc.
      * rewrite untraced_add_trace, Hctx. cbn [context].
        change (fold_left set_current_plugin (n :: n2 :: rest) (context s))
          with (fold_left set_current_plugin (n2 :: rest)
                  (set_current_plugin (context s) n)).
        by apply untraced_fold.
Qed.

(** X14.  A chain of plain plugins that keep the default [handle] runs
    to its end: every handler is called once, in the order of the
    chain, no exception leaves, the response and the short-circuit flag
    are as they were, and [current_plugin_name] is left at the last
    plugin of the chain, each handler getting control back with the name
    of a later step in it. *)
Theorem default_handlers_run_in_order (plugin_chain : list string) (s : run_state) :
  Forall (passes_through r) plugin_chain ->
  is_short_circuited (context s) = false ->
  exists s',
    _execute_chain r plugin_chain 0 s = (s', None)
    /\ calls s' = calls s ++ steps 0 plugin_chain
    /\ is_short_circuited (context s') = false
    /\ response_data (context s') = response_data (context s)
    /\ current_plugin_name (context s')
       = match last plugin_chain with
         | Some n => Some n
         | None => current_plugin_name (context s)
         end.
Proof.
  intros Hall Hflag. unfold _execute_chain. rewrite drop_0.
  destruct (execute_from_pass_through plugin_chain 0 s Hall Hflag)
    as (s' & Hrun & Hcalls & Hctx).
  exists s'. split; [done|]. split; [done|].
  apply untraced_response in Hctx as (Hf & Hr & Hn & _).
  destruct (response_fold plugin_chain (context s)) as [Hr' Hf'].
  rewrite Hf, Hr, Hn, Hf', Hr', current_plugin_fold. done.
Qed.

Lemma execute_from_until_answer (pre : list string) (t : string) (post : list string)
    (p : Plugin) (f : RequestContext -> RequestContext) (index : nat) (s : run_state) :
  Forall (passes_through r) pre ->
  Str.has_char "."%char t = false ->
  plugins r !! t = Some p ->
  (forall c, handle p c = Return (f c)) ->
  is_short_circuited (context s) = false ->
  exists s' c_t,
    execute_from r (pre ++ t :: post) index s = (s', None)
    /\ calls s' = calls s ++ steps index (pre ++ [t])
    /\ untraced c_t
       = untraced (set_current_plugin (fold_left set_current_plugin pre (context s)) t)
    /\ untraced (context s') = untraced (f c_t).
Proof.
  intros Hall Hdot Hp Hret. revert index s Hall.
  induction pre as [|n pre IH]; intros index s Hall Hflag.
  - cbn [app]. rewrite execute_from_cons by done.
    rewrite (resolve_plain t p) by done. cbn [default from_option id].
    rewrite Hret. cbn [run_action].
    eexists. eexists. split; [reflexivity|].
    cbn [with_context calls context steps fold_left].
    split; [done|]. split; [apply step_context|apply untraced_add_trace].
  - apply Forall_cons in Hall as [(Hdotn & pn & Hpn & Hh) Hall].
    change ((n :: pre) ++ t :: post) with (n :: (pre ++ t :: post)).
    rewrite execute_from_cons by done.
    rewrite (resolve_plain n pn) by done. cbn [default from_option id].
    rewrite Hh. unfold default_handle.
    set (c1 := add_trace (add_trace (add_trace (set_current_plugin (context s) n) _) _) _).
    assert (untraced c1 = untraced (set_current_plugin (context s) n)) as Hc1
      by apply step_context.
    destruct (IH (S index) {| context := c1; calls := calls s ++ [(index, n)] |} Hall)
      as (s2 & c_t & Hrun & Hcalls & Hct & Hctx).
    { cbn [context]. apply untraced_response in Hc1 as (-> & _). done. }
    destruct (pre ++ t :: post) as [|x rest] eqn:Hrest;
      [by destruct pre|].
    cbn [run_action]. rewrite Hrun. cbn [run_action context calls].
    exists (with_context s2 (add_trace (context s2) (FinishedSuccessfully n))), c_t.
    split; [reflexivity|]. cbn [with_context calls context]. split; [|split].
    + rewrite Hcalls. cbn [calls app steps]. by rewrite <- app_assoc.
    + rewrite Hct. cbn [context fold_left].
      change (untraced (set_current_plugin (fold_left set_current_plugin pre c1) t))
        with (set_current_plugin (untraced (fold_left set_current_plugin pre c1)) t).
      by rewrite (untraced_fold pre (set_current_plugin (context s) n) c1).
    + by rewrite untraced_add_trace.
Qed.

(** X15.  The chain goes on only through the continuation.  When the
    plugins before [t] keep the default handler and the handler of [t]
    returns without awaiting its continuation, the handlers up to [t]
    are called in order and none of the later ones is, although the
    short-circuit flag has not been set by the runner; the later names
    are not even resolved.  What [run] returns is what the handler of
    [t] left, called with the response as it was at the start. *)
Theorem answering_handler_ends_chain (pre : list string) (t : string)
    (post : list string) (p : Plugin) (f : RequestContext -> RequestContext)
    (s : run_state) :
  Forall (passes_through r) pre ->
  Str.has_char "."%char t = false ->
  plugins r !! t = Some p ->
  (forall c, handle p c = Return (f c)) ->
  is_short_circuited (context s) = false ->
  exists s' c_t,
    _execute_chain r (pre ++ t :: post) 0 s = (s', None)
    /\ calls s' = calls s ++ steps 0 (pre ++ [t])
    /\ response_data c_t = response_data (context s)
    /\ is_short_circuited c_t = false
    /\ current_plugin_name c_t = Some t
    /\ response_data (context s') = response_data (f c_t)
    /\ is_short_circuited (context s') = is_short_circuited (f c_t).
Proof.
  intros Hall Hdot Hp Hret Hflag. unfold _execute_chain. rewrite drop_0.
  destruct (execute_from_until_answer pre t post p f 0 s Hall Hdot Hp Hret Hflag)
    as (s' & c_t & Hrun & Hcalls & Hct & Hctx).
  exists s', c_t. split; [done|]. split; [done|].
  apply untraced_response in Hct as (Hf & Hr & Hn & _).
  apply untraced_response in Hctx as (Hf' & Hr' & _).
  destruct (response_fold pre (context s)) as [Hr0 Hf0].
  cbn [set_current_plugin is_short_circuited response_data current_plugin_name] in *.
  rewrite Hr, Hf, Hn, Hr0, Hf0. done.
Qed.

End DefaultHandlers.

(** An instance of X14: two plugins with the default handler. *)
Lemma default_handlers_run_in_order_witness :
  exists s',
    Chain._execute_chain Scenes.relay ["first"; "second"] 0 Sample.entry = (s', None)
    /\ Chain.calls s' = [(0, "first"); (1, "second")]
    /\ Ctx.is_short_circuited (Chain.context s') = false
    /\ Ctx.response_data (Chain.context s') = Ctx.empty_response
    /\ Ctx.current_plugin_name (Chain.context s') = Some "second".
Proof.
  apply (default_handlers_run_in_order Scenes.relay ["first"; "second"] Sample.entry);
    [|reflexivity].
  repeat constructor; by exists Handlers.pass_through.
Defined.

(** An instance of X15 on the sample runner: [provider] answers, so a
    plugin listed after it is never called. *)
Lemma answering_handler_ends_chain_witness :
  exists s' c_t,
    Chain._execute_chain Sample.runner ([] ++ "provider" :: ["auth"]) 0 Sample.entry
    = (s', None)
    /\ Chain.calls s' = [(0, "provider")]
    /\ Ctx.response_data c_t = Ctx.empty_response
    /\ Ctx.is_short_circuited c_t = false
    /\ Ctx.current_plugin_name c_t = Some "provider"
    /\ Ctx.response_data (Chain.context s')
       = Ctx.response_data (Scenes.answer c_t)
    /\ Ctx.is_short_circuited (Chain.context s')
       = Ctx.is_short_circuited (Scenes.answer c_t).
Proof.
  apply (answering_handler_ends_chain Sample.runner [] "provider" ["auth"]
           Sample.provider Scenes.answer Sample.entry);
    [constructor|reflexivity|reflexivity|reflexivity|reflexivity].
Defined.

(** ** Unloading, root routes and the ledger over the life of a loader *)

Section LoaderAgain.
Import Loader LoaderOps.
Variable w : World.


(** X17.  The registrar handed to a plugin mounts a router only under
    the one prefix its permission names and never under a reserved
    prefix: every other request raises, so a permission that names a
    reserved prefix is of no use, and without an application there is no
    registrar at all. *)
Theorem safe_registrar_guards_prefixes (allowed_prefix : option string)
    (prefix : string) :
  (safe_registrar allowed_prefix prefix = Registered prefix <->
   allowed_prefix = Some prefix
   /\ Forall (fun reserved => Str.startswith prefix reserved = false) RESERVED_PREFIXES)
  /\ (forall mounted, safe_registrar allowed_prefix prefix = Registered mounted ->
                      allowed_prefix = Some mounted)
  /\ (allowed_prefix <> Some prefix ->
      safe_registrar allowed_prefix prefix = NotAuthorized prefix)
  /\ _create_safe_router_registrar false allowed_prefix = None.
Proof.
  unfold safe_registrar.
  destruct (decide (Some prefix = allowed_prefix)) as [<-|Hne].
  - rewrite bool_decide_eq_true_2 by done. cbn [negb].
    destruct (existsb _ RESERVED_PREFIXES) eqn:Hres.
    + split; [split; [done|]|split; [done|split; [done|done]]].
      intros [_ Hall]. apply existsb_exists in Hres as (reserved & Hin & Hstart).
      rewrite Forall_forall in Hall.
      rewrite (Hall reserved) in Hstart; [done|]. by apply list_elem_of_In.
    + split; [split; [|done]|split; [|split; [done|done]]].
      * intros _. split; [done|]. apply Forall_forall. intros reserved Hin.
        destruct (Str.startswith prefix reserved) eqn:Hstart; [|done].
        assert (existsb (fun reserved => Str.startswith prefix reserved)
                        RESERVED_PREFIXES = true) as Hex; [|congruence].
        apply existsb_exists. exists reserved. split; [|done].
        by apply list_elem_of_In.
      * by intros mounted [= <-].
  - rewrite bool_decide_eq_false_2 by done. cbn [negb].
    split; [split; [done|]|split; [done|split; [done|done]]].
    intros [-> _]. done.
Qed.

(** *** The gate of [load_plugin] outside the group path *)



Lemma log_fold (m : Ledger.SandboxPermissionManager) (n : string)
    (denials : list violation) :
  let m' := fold_left (fun m v => Ledger.log_violation m n v) denials m in
  Ledger.granted_permissions m' = Ledger.granted_permissions m
  /\ Ledger.get_violations m' n = Ledger.get_violations m n ++ denials
  /\ (forall q, q <> n -> Ledger.get_violations m' q = Ledger.get_violations m q).
Proof.
  revert m. induction denials as [|v denials IH]; intros m; cbn [fold_left].
  - split; [done|]. split; [by rewrite app_nil_r|done].
  - destruct (IH (Ledger.log_violation m n v)) as (Hg & Hv & Ho).
    split; [by rewrite Hg|]. split.
    + rewrite Hv. unfold Ledger.get_violations, Ledger.log_violation.
      cbn [Ledger.permission_violations]. rewrite lookup_insert_eq.
      cbn [default from_option id]. by rewrite <- app_assoc.
    + intros q Hq. rewrite Ho by done.
      unfold Ledger.get_violations, Ledger.log_violation.
      cbn [Ledger.permission_violations]. by rewrite lookup_insert_ne.
Qed.


(** *** What a load touches *)

Lemma ledger_grows_refl (l : PluginLoader) : ledger_grows l l.
Proof. split; [done|]. intros q. reflexivity. Qed.

Lemma ledger_grows_trans (l1 l2 l3 : PluginLoader) :
  ledger_grows l1 l2 -> ledger_grows l2 l3 -> ledger_grows l1 l3.
Proof.
  intros [H1 V1] [H2 V2]. split; [|intros q; etrans; [apply V1|apply V2]].
  intros q c Hc. by apply H2, H1.
Qed.

Lemma ledger_grows_same (l l' : PluginLoader) :
  permission_manager l' = permission_manager l -> ledger_grows l l'.
Proof. intros H. unfold ledger_grows. rewrite H. split; [done|by intros q]. Qed.

Lemma grant_permissions_grows (e : Engine.PermissionEngine)
    (m : Ledger.SandboxPermissionManager) (n : string)
    (perms : list Ledger.SandboxPermission) :
  (forall q c, c ∈ Ledger.granted m q ->
               c ∈ Ledger.granted (Ledger.grant_permissions e m n perms) q)
  /\ Ledger.permission_violations (Ledger.grant_permissions e m n perms)
     = Ledger.permission_violations m.
Proof.
  split; [|done]. intros q c Hc.
  unfold Ledger.granted at 1, Ledger.grant_permissions.
  cbn [Ledger.granted_permissions].
  destruct (decide (n = q)) as [->|Hne].
  - rewrite lookup_insert_eq. cbn [default from_option id].
    apply grant_fold_elem. by left.
  - by rewrite lookup_insert_ne.
Qed.

Lemma ledger_grows_by (l l' : PluginLoader) :
  (forall q c, c ∈ Ledger.granted (permission_manager l) q ->
               c ∈ Ledger.granted (permission_manager l') q) ->
  Ledger.permission_violations (permission_manager l')
  = Ledger.permission_violations (permission_manager l) ->
  ledger_grows l l'.
Proof.
  intros Hg Hv. split; [done|]. intros q. unfold Ledger.get_violations.
  by rewrite Hv.
Qed.

Lemma lock_file_grows (l : PluginLoader) (n : string) :
  ledger_grows l (_load_permissions_from_lock_file l n).
Proof.
  unfold _load_permissions_from_lock_file.
  destruct (lock_files l !! n) as [[entries| |granted]|];
    try apply ledger_grows_refl;
    apply ledger_grows_by; cbn [grant_entries permission_manager];
    apply grant_permissions_grows.
Qed.

Lemma log_denials_grows (l : PluginLoader) (n : string) (denials : list violation) :
  ledger_grows l (log_denials l n denials).
Proof.
  destruct (log_fold (permission_manager l) n denials) as (Hg & Hv & Ho).
  split.
  - intros q c Hc. unfold log_denials, Ledger.granted.
    cbn [set_permission_manager permission_manager]. by rewrite Hg.
  - intros q. unfold log_denials. cbn [set_permission_manager permission_manager].
    destruct (decide (q = n)) as [->|Hne].
    + rewrite Hv. by apply prefix_app_r.
    + by rewrite Ho.
Qed.

Lemma grant_subplugins_grows (l : PluginLoader)
    (grants : list (string * list Ledger.SandboxPermission)) :
  ledger_grows l (grant_subplugins l grants).
Proof.
  unfold grant_subplugins.
  assert (forall m,
            let m' := fold_left
                        (fun m g => match snd g with
                                    | [] => m
                                    | _ :: _ =>
                                        Ledger.grant_permissions (engine l) m
                                          (fst g) (snd g)
                                    end) grants m in
            (forall q c, c ∈ Ledger.granted m q -> c ∈ Ledger.granted m' q)
            /\ Ledger.permission_violations m' = Ledger.permission_violations m)
    as Hfold.
  { induction grants as [|[sub perms] grants IH]; intros m; cbn [fold_left fst snd];
      [done|].
    destruct (IH (match perms with
                  | [] => m
                  | _ :: _ => Ledger.grant_permissions (engine l) m sub perms
                  end)) as [Hg Hv].
    destruct perms as [|perm perms]; [done|].
    destruct (grant_permissions_grows (engine l) m sub (perm :: perms)) as [Hg1 Hv1].
    split; [|congruence]. intros q c Hc. by apply Hg, Hg1. }
  destruct (Hfold (permission_manager l)) as [Hg Hv].
  by apply ledger_grows_by.
Qed.

Lemma touches_only_refl (n : string) (l : PluginLoader) : touches_only w n l l.
Proof.
  unfold touches_only. repeat split; try done. by left.
Qed.

Lemma touches_only_trans (n : string) (l1 l2 l3 : PluginLoader) :
  touches_only w n l1 l2 -> touches_only w n l2 l3 -> touches_only w n l1 l3.
Proof.
  intros (P1 & M1 & D1 & N1 & G1 & R1) (P2 & M2 & D2 & N2 & G2 & R2).
  split; [|split; [|split; [|split; [|split]]]].
  - intros m Hm. by rewrite P2, P1.
  - intros d Hd. by apply M2, M1.
  - intros m Hm. by rewrite D2, D1.
  - destruct N2 as [N2|N2]; [|by right]. rewrite N2. exact N1.
  - by eapply ledger_grows_trans.
  - congruence.
Qed.

Lemma metadata_touches (l l' : PluginLoader) (n : string) (m : option PluginMetadata) :
  _load_plugin_metadata w l n = (m, l') ->
  touches_only w n l l'
  /\ plugins l' = plugins l /\ plugin_metadata l' = plugin_metadata l
  /\ permission_manager l' = permission_manager l
  /\ lock_files l' = lock_files l
  /\ (is_plugin_dir w n = true -> has_module_file w n = true ->
      declared_dependencies l' !! n = Some (declared_names w n)
      /\ forall md, m = Some md ->
                    name md = n /\ dependencies md = declared_names w n).
Proof.
  unfold _load_plugin_metadata. intros H.
  destruct (is_plugin_dir w n); cbn [negb] in H;
    [|injection H as <- <-; split; [apply touches_only_refl|done]].
  destruct (has_module_file w n); cbn [negb] in H;
    [|injection H as <- <-; split; [apply touches_only_refl|done]].
  assert (forall deps cs,
             map fst (map _parse_dependency_spec deps) = declared_names w n ->
             touches_only w n l
               (set_declared l n (map fst (map _parse_dependency_spec deps)) cs)
             /\ declared_dependencies
                  (set_declared l n (map fst (map _parse_dependency_spec deps)) cs) !! n
                = Some (declared_names w n)) as Hgen.
  { intros deps cs Hdeps. cbn [set_declared declared_dependencies].
    rewrite lookup_insert_eq, Hdeps. split; [|done].
    unfold touches_only. cbn [set_declared plugins plugin_metadata
                              declared_dependencies dependency_resolver].
    rewrite ?lookup_insert_eq, ?Hdeps.
    split; [done|]. split; [done|]. split; [by intros m' Hm'; rewrite lookup_insert_ne|].
    split; [by right|]. split; [by apply ledger_grows_same|done]. }
  unfold declared_names in Hgen |- *.
  destruct (manifest w n) as [mf|]; cbn zeta beta iota in H;
    destruct (manifest_entries _) in H; injection H as <- <-;
    (edestruct Hgen as [Ht Hd]; [reflexivity|]);
    (split; [exact Ht|]);
    cbn [set_declared plugins plugin_metadata permission_manager lock_files];
    (split; [done|]; split; [done|]; split; [done|]; split; [done|]);
    intros _ _; (split; [exact Hd|]); intros md [= <-]; done.
Qed.

Lemma ledger_touches (l l' : PluginLoader) (n : string) :
  plugins l' = plugins l -> plugin_metadata l' = plugin_metadata l ->
  declared_dependencies l' = declared_dependencies l ->
  dependency_resolver l' = dependency_resolver l ->
  ledger_grows l l' ->
  touches_only w n l l'.
Proof.
  intros Hp Hm Hd Hr Hg. unfold touches_only. rewrite Hp, Hm, Hd, Hr.
  repeat split; try done; try apply Hg. by left.
Qed.

Lemma register_root_touches (l : PluginLoader) (n : string) (inject : bool) :
  touches_only w n l (register_root w l n inject).
Proof.
  unfold touches_only, register_root. cbn. repeat split; try done. by left.
Qed.

Lemma store_touches (l : PluginLoader) (md : PluginMetadata) (inst : PluginInterface) :
  touches_only w (name md) l (store l md inst).
Proof.
  unfold touches_only, store. cbn [plugins plugin_metadata declared_dependencies
                                   dependency_resolver].
  split; [by intros m Hm; rewrite lookup_insert_ne|].
  split.
  { intros d Hd. destruct (decide (name md = d)) as [->|Hne];
      [by rewrite lookup_insert_eq|by rewrite lookup_insert_ne]. }
  split; [done|]. split; [by left|]. split; [by apply ledger_grows_same|done].
Qed.

Lemma lock_file_touches (l : PluginLoader) (n : string) :
  touches_only w n l (_load_permissions_from_lock_file l n).
Proof.
  apply ledger_touches; try apply lock_file_grows;
    unfold _load_permissions_from_lock_file;
    by destruct (lock_files l !! n) as [[entries| |granted]|].
Qed.

Lemma create_lock_touches (l l' : PluginLoader) (n : string)
    (perms : list Ledger.SandboxPermission) :
  _create_permission_lock_file w l n perms = Some l' -> touches_only w n l l'.
Proof.
  unfold _create_permission_lock_file. destruct (lock_writable w n); [|done].
  intros [= <-]. unfold touches_only. cbn. repeat split; try done. by left.
Qed.

Lemma import_touches (l : PluginLoader) (n : string) :
  touches_only w n l (snd (_load_plugin_directly w l n)).
Proof. apply ledger_touches; first [done|by apply ledger_grows_same]. Qed.

Lemma log_denials_touches (l : PluginLoader) (n : string) (denials : list violation) :
  touches_only w n l (log_denials l n denials).
Proof. apply ledger_touches; try done. apply log_denials_grows. Qed.

Lemma grant_subplugins_touches (l : PluginLoader) (n : string)
    (grants : list (string * list Ledger.SandboxPermission)) :
  touches_only w n l (grant_subplugins l grants).
Proof. apply ledger_touches; try done. apply grant_subplugins_grows. Qed.

Lemma load_plugin_group_touches (l : PluginLoader) (n : string) :
  touches_only w n l (snd (load_plugin_group w l n)).
Proof.
  unfold load_plugin_group.
  destruct (has_module_file w n); cbn [negb]; [|apply touches_only_refl].
  pose proof (import_touches l n) as Ht0.
  destruct (_load_plugin_directly w l n) as [[inst|] l0]; cbn [snd] in Ht0; [|done].
  destruct (initialize_raises inst); [done|].
  destruct (is_meta_plugin inst); cbn [negb]; [|done].
  destruct (_load_plugin_metadata w l0 n) as [[md|] l1] eqn:Hmd.
  - pose proof (metadata_keeps w l0 l1 n (Some md) Hmd) as (_ & _ & _ & _ & Hname).
    apply metadata_touches in Hmd as (Ht1 & _). cbn in Hname. rewrite Hname.
    assert (touches_only w n l l1) as Ht1' by (by eapply touches_only_trans).
    destruct (_create_permission_lock_file w l1 n (permissions md)) as [l2|] eqn:Hlock;
      [|done].
    apply create_lock_touches in Hlock.
    assert (touches_only w n l (_load_permissions_from_lock_file l2 n)) as Ht3.
    { eapply touches_only_trans; [exact Ht1'|].
      eapply touches_only_trans; [exact Hlock|apply lock_file_touches]. }
    destruct (lock_file_loads l2 n); cbn [negb snd]; [|done].
    assert (touches_only w n l
              (grant_subplugins
                 (register_root w (_load_permissions_from_lock_file l2 n) n false)
                 (subplugin_grants w n))) as Ht5.
    { eapply touches_only_trans; [exact Ht1'|].
      eapply touches_only_trans; [exact Hlock|].
      eapply touches_only_trans; [apply lock_file_touches|].
      eapply touches_only_trans;
        [apply register_root_touches|apply grant_subplugins_touches]. }
    destruct (group_setup_raises w n); cbn [snd]; [done|].
    assert (touches_only w n l
              (store (grant_subplugins
                        (register_root w (_load_permissions_from_lock_file l2 n) n false)
                        (subplugin_grants w n)) md inst)) as Ht6.
    { eapply touches_only_trans; [exact Ht5|].
      rewrite <- Hname at 1. apply store_touches. }
    by destruct (group_sizes_raise inst).
  - apply metadata_touches in Hmd as (Ht1 & _). by eapply touches_only_trans.
Qed.

Lemma load_plugin_touches (l : PluginLoader) (n : string) :
  touches_only w n l (snd (load_plugin w l n)).
Proof.
  unfold load_plugin.
  destruct (is_plugin_dir w n); cbn [negb]; [|apply touches_only_refl].
  destruct (registry_info w n); cbn [negb]; [|apply touches_only_refl].
  destruct (signature_verified w n); cbn [negb]; [|apply touches_only_refl].
  destruct (has_group_yml w n); [apply load_plugin_group_touches|].
  destruct (has_module_file w n); cbn [negb]; [|apply touches_only_refl].
  destruct (_load_plugin_metadata w l n) as [[md|] l1] eqn:Hmd.
  - pose proof (metadata_keeps w l l1 n (Some md) Hmd) as (_ & _ & _ & _ & Hname).
    apply metadata_touches in Hmd as (Ht1 & _). cbn in Hname. rewrite Hname.
    pose proof (import_touches l1 n) as Ht2.
    destruct (_load_plugin_directly w l1 n) as [[inst|] l2]; cbn [snd] in Ht2;
      [|by eapply touches_only_trans].
    assert (touches_only w n l (register_root w l2 n true)) as Ht3.
    { eapply touches_only_trans; [exact Ht1|].
      eapply touches_only_trans; [exact Ht2|apply register_root_touches]. }
    destruct (lock_files (register_root w l2 n true) !! n); [|done].
    assert (touches_only w n l
              (_load_permissions_from_lock_file (register_root w l2 n true) n)) as Ht4
      by (eapply touches_only_trans; [exact Ht3|apply lock_file_touches]).
    destruct (lock_file_loads (register_root w l2 n true) n); cbn [negb snd]; [|done].
    assert (touches_only w n l
              (log_denials (_load_permissions_from_lock_file (register_root w l2 n true) n)
                           n (initialize_denials inst))) as Ht5.
    { eapply touches_only_trans; [exact Ht3|].
      eapply touches_only_trans; [apply lock_file_touches|apply log_denials_touches]. }
    destruct (initialize_raises inst); cbn [snd]; [done|].
    eapply touches_only_trans; [exact Ht5|].
    rewrite <- Hname at 1. apply store_touches.
  - by apply metadata_touches in Hmd as (Ht1 & _).
Qed.

Lemma load_in_order_grows (load_order : list string) (l : PluginLoader) :
  ledger_grows l (load_in_order w l load_order)
  /\ dependency_resolver (load_in_order w l load_order) = dependency_resolver l.
Proof.
  revert l. induction load_order as [|n rest IH]; intros l; cbn [load_in_order].
  - split; [apply ledger_grows_refl|done].
  - destruct (unmet_dependencies w l n); [|apply IH].
    pose proof (load_plugin_touches l n) as (_ & _ & _ & _ & Hg & Hr).
    destruct (IH (snd (load_plugin w l n))) as [Hg' Hr'].
    split; [by eapply ledger_grows_trans|congruence].
Qed.

Lemma scan_spec (dirs : list string) (l : PluginLoader) :
  let l' := snd (scan w l dirs) in
  plugins l' = plugins l /\ plugin_metadata l' = plugin_metadata l
  /\ permission_manager l' = permission_manager l
  /\ dependency_resolver l' = dependency_resolver l
  /\ (forall n, n ∉ dirs -> declared_dependencies l' !! n = declared_dependencies l !! n)
  /\ (forall n, n ∈ dirs -> is_plugin_dir w n = true -> has_module_file w n = true ->
                declared_dependencies l' !! n = Some (declared_names w n))
  /\ (forall md, Some md ∈ fst (scan w l dirs) -> name md ∈ dirs).
Proof.
  revert l. induction dirs as [|d dirs IH]; intros l; cbn [scan].
  - cbn. repeat split; try done.
    + intros n Hn. by apply elem_of_nil in Hn.
    + intros md Hmd. by apply elem_of_nil in Hmd.
  - destruct (_load_plugin_metadata w l d) as [m l1] eqn:Hmd.
    pose proof (metadata_keeps w l l1 d m Hmd) as (_ & _ & _ & Hres & Hname).
    apply metadata_touches in Hmd as (Ht & Hp & Hm & Hpm & _ & Hdecl).
    destruct Ht as (_ & _ & Hframe & _).
    specialize (IH l1). destruct (scan w l1 dirs) as [ms l2]. cbn [fst snd] in *.
    destruct IH as (Hp2 & Hm2 & Hpm2 & Hr2 & Hf2 & Hd2 & Hn2).
    split; [congruence|]. split; [congruence|]. split; [congruence|].
    split; [congruence|]. split; [|split].
    + intros n Hn. apply not_elem_of_cons in Hn as [Hne Hn].
      rewrite Hf2 by done. by apply Hframe.
    + intros n Hn Hdir Hmod.
      destruct (decide (n ∈ dirs)) as [Hin|Hnin]; [by apply Hd2|].
      apply elem_of_cons in Hn as [->|Hn]; [|done].
      rewrite Hf2 by done. by destruct (Hdecl Hdir Hmod).
    + intros md [Hhd|Htl]%elem_of_cons.
      * subst m. cbn in Hname. subst d. apply list_elem_of_here.
      * apply list_elem_of_further. by apply Hn2.
Qed.

Lemma load_in_order_frame (load_order : list string) (l : PluginLoader) (n : string) :
  n ∉ load_order ->
  plugins (load_in_order w l load_order) !! n = plugins l !! n.
Proof.
  revert l. induction load_order as [|p rest IH]; intros l Hn; cbn [load_in_order];
    [done|].
  apply not_elem_of_cons in Hn as [Hne Hn].
  destruct (unmet_dependencies w l p); [|by apply IH].
  rewrite IH by done.
  by destruct (load_plugin_touches l p) as (Hp & _); apply Hp.
Qed.

Lemma load_in_order_metadata (load_order : list string) (l : PluginLoader) (d : string) :
  is_Some (plugin_metadata l !! d) ->
  is_Some (plugin_metadata (load_in_order w l load_order) !! d).
Proof.
  revert l. induction load_order as [|p rest IH]; intros l Hd; cbn [load_in_order];
    [done|].
  destruct (unmet_dependencies w l p); [|by apply IH].
  apply IH. by destruct (load_plugin_touches l p) as (_ & Hm & _); apply Hm.
Qed.

Lemma unmet_nil_loaded (l : PluginLoader) (n d : string) :
  unmet_dependencies w l n = [] ->
  d ∈ default [] (declared_dependencies l !! n) ->
  is_Some (plugin_metadata l !! d).
Proof.
  unfold unmet_dependencies.
  induction (default [] (declared_dependencies l !! n)) as [|dep deps IH];
    cbn [flat_map]; intros Hnil Hd; [by apply elem_of_nil in Hd|].
  apply app_eq_nil in Hnil as [Hhd Htl].
  apply elem_of_cons in Hd as [->|Hd]; [|by apply IH].
  unfold check_dependency in Hhd.
  destruct (plugin_metadata l !! dep); [by eexists|done].
Qed.

Lemma load_in_order_gate (load_order : list string) (l : PluginLoader) (n d : string) :
  declared_dependencies l !! n = Some (declared_names w n) ->
  d ∈ declared_names w n ->
  plugin_metadata (load_in_order w l load_order) !! d = None ->
  plugins (load_in_order w l load_order) !! n = plugins l !! n.
Proof.
  intros Hdecl Hd. revert l Hdecl.
  induction load_order as [|p rest IH]; intros l Hdecl Hnone; cbn [load_in_order] in *;
    [done|].
  destruct (unmet_dependencies w l p) as [|u us] eqn:Hunmet; [|by apply IH].
  destruct (load_plugin_touches l p) as (Hp & Hm & Hdd & Hdn & _).
  destruct (decide (p = n)) as [->|Hne].
  - exfalso.
    assert (is_Some (plugin_metadata l !! d)) as Hloaded.
    { apply (unmet_nil_loaded l n d Hunmet). by rewrite Hdecl. }
    apply Hm in Hloaded.
    apply (load_in_order_metadata rest) in Hloaded.
    rewrite Hnone in Hloaded. by destruct Hloaded.
  - rewrite IH; [by apply Hp| |done].
    rewrite Hdd by done. exact Hdecl.
Qed.

Lemma load_all_cases (l : PluginLoader) (P : PluginLoader -> Prop) :
  P l -> P (inject_roots l) ->
  (forall ms l1 r',
      candidates w <> [] ->
      scan w l (candidates w) = (ms, l1) ->
      (exists res, Resolver.resolve_dependencies
                     (dependency_resolver (build_graph l1 ms)) = (res, r')
                   /\ forall load_order, res <> Resolver.Order load_order) ->
      P (set_resolver (build_graph l1 ms) r')) ->
  (forall ms l1 r' load_order,
      candidates w <> [] ->
      scan w l (candidates w) = (ms, l1) ->
      Resolver.resolve_dependencies (dependency_resolver (build_graph l1 ms))
        = (Resolver.Order load_order, r') ->
      P (inject_roots (load_in_order w (set_resolver (build_graph l1 ms) r')
                                     load_order))) ->
  P (snd (load_all_plugins w l)).
Proof.
  intros Hl Hinject Hfail Hok. unfold load_all_plugins.
  destruct (plugin_dir_exists w); cbn [negb]; [|done].
  assert (forall X : batch * PluginLoader,
             P (snd X) ->
             P (snd (match enabled w, auto_load w with
                     | [], false => (Returned ∅, l)
                     | _, _ => X
                     end))) as Hwrap.
  { intros X HX. by destruct (enabled w), (auto_load w). }
  apply Hwrap. clear Hwrap.
  destruct (candidates w) as [|d dirs] eqn:Hcand; [done|].
  destruct (scan w l (d :: dirs)) as [ms l1] eqn:Hscan.
  destruct (Resolver.resolve_dependencies _) as [[load_order|node|] r'] eqn:Hres;
    cbn [snd].
  - by eapply Hok.
  - eapply Hfail; [done|done|]. eexists. split; [exact Hres|done].
  - eapply Hfail; [done|done|]. eexists. split; [exact Hres|done].
Qed.

(** X19.  The loader never takes a capability back and never erases a
    violation: after loading, reloading or unloading a plugin and after
    loading a whole directory every plugin holds the capabilities it
    held, and its record of violations begins with the record it had,
    the denials met by an [initialize] being added at the end.  A plugin
    reloaded with a lock file that grants less, or unloaded, still holds
    its former capabilities. *)
Theorem loader_never_revokes (l : PluginLoader) (n : string) :
  ledger_grows l (snd (load_plugin w l n))
  /\ ledger_grows l (snd (reload_plugin w l n))
  /\ ledger_grows l (snd (unload_plugin l n))
  /\ ledger_grows l (snd (load_all_plugins w l)).
Proof.
  assert (forall l0 p, ledger_grows l0 (snd (load_plugin w l0 p))) as Hload.
  { intros l0 p. by destruct (load_plugin_touches l0 p) as (_ & _ & _ & _ & Hg & _). }
  split; [apply Hload|]. split; [|split].
  - unfold reload_plugin. destruct (plugins l !! n) as [old|].
    + destruct (shutdown_raises old); [apply ledger_grows_refl|].
      destruct (plugin_metadata l !! n); [|by apply ledger_grows_same].
      pose proof (Hload (remove l n) n) as Hg.
      destruct (load_plugin w (remove l n) n) as [plugin l']. cbn [snd] in *.
      eapply ledger_grows_trans; [|exact Hg]. by apply ledger_grows_same.
    + pose proof (Hload l n) as Hg.
      by destruct (load_plugin w l n) as [plugin l'].
  - unfold unload_plugin. destruct (plugins l !! n) as [old|];
      [|apply ledger_grows_refl].
    destruct (shutdown_raises old); [apply ledger_grows_refl|].
    destruct (plugin_metadata l !! n); by apply ledger_grows_same.
  - apply (load_all_cases l (ledger_grows l)).
    + apply ledger_grows_refl.
    + by apply ledger_grows_same.
    + intros ms l1 r' _ Hscan _.
      pose proof (scan_spec (candidates w) l) as (_ & _ & Hpm & _).
      rewrite Hscan in Hpm. by apply ledger_grows_same.
    + intros ms l1 r' load_order _ Hscan _.
      pose proof (scan_spec (candidates w) l) as (_ & _ & Hpm & _).
      rewrite Hscan in Hpm. cbn [snd] in Hpm.
      eapply ledger_grows_trans;
        [|eapply ledger_grows_trans;
          [apply (proj1 (load_in_order_grows load_order
                           (set_resolver (build_graph l1 ms) r')))|
           by apply ledger_grows_same]].
      by apply ledger_grows_same.
Qed.

(** X20.  The dependency gate of [load_all_plugins].  A candidate whose
    manifest declares a dependency that is not loaded when the call
    returns has not been loaded by the call: a plugin is never started
    ahead of, or without, a plugin it declares to depend on. *)
Theorem missing_dependency_blocks_load (l : PluginLoader) (n d : string) :
  n ∈ candidates w ->
  is_plugin_dir w n = true -> has_module_file w n = true ->
  d ∈ declared_names w n ->
  plugin_metadata (snd (load_all_plugins w l)) !! d = None ->
  plugins (snd (load_all_plugins w l)) !! n = plugins l !! n.
Proof.
  intros Hn Hdir Hmod Hd.
  apply (load_all_cases l
           (fun l' => plugin_metadata l' !! d = None -> plugins l' !! n = plugins l !! n)).
  - done.
  - done.
  - intros ms l1 r' _ Hscan _ _.
    pose proof (scan_spec (candidates w) l) as (Hp & _). rewrite Hscan in Hp.
    cbn [snd] in Hp. cbn. by rewrite Hp.
  - intros ms l1 r' load_order _ Hscan _ Hnone.
    pose proof (scan_spec (candidates w) l) as (Hp & _ & _ & _ & _ & Hdecl & _).
    rewrite Hscan in Hp, Hdecl. cbn [snd] in Hp, Hdecl.
    cbn [inject_roots plugins plugin_metadata] in *.
    rewrite (load_in_order_gate load_order _ n d); [by cbn; rewrite Hp| |done|done].
    cbn. by apply Hdecl.
Qed.

Lemma contains_set (g : Resolver.graph) (k : string) (v : list string) (n : string) :
  Resolver.contains (Resolver.set g k v) n = true ->
  n = k \/ Resolver.contains g n = true.
Proof.
  unfold Resolver.contains. induction g as [|[k' v'] g IH]; cbn [Resolver.set Resolver.get].
  - destruct (String.eqb_spec n k); [by left|done].
  - destruct (String.eqb_spec k k') as [->|Hne]; cbn [Resolver.get].
    + destruct (String.eqb_spec n k'); [by left|by right].
    + destruct (String.eqb_spec n k'); [by right|apply IH].
Qed.

Lemma build_graph_contains (ms : list (option PluginMetadata))
    (r0 : Resolver.DependencyResolver) (n : string) :
  let r1 := fold_left (fun r m => match m with
                                  | Some metadata =>
                                      Resolver.add_plugin r (name metadata)
                                        (dependencies metadata)
                                  | None => r
                                  end) ms r0 in
  Resolver.resolved_order r1 = Resolver.resolved_order r0
  /\ (Resolver.contains (Resolver.dependency_graph r1) n = true ->
      Resolver.contains (Resolver.dependency_graph r0) n = true
      \/ exists md, Some md ∈ ms /\ name md = n).
Proof.
  revert r0. induction ms as [|m ms IH]; intros r0; cbn [fold_left].
  - split; [done|by left].
  - destruct (IH (match m with
                  | Some metadata =>
                      Resolver.add_plugin r0 (name metadata) (dependencies metadata)
                  | None => r0
                  end)) as [Ho Hc].
    split; [rewrite Ho; by destruct m|].
    intros Hn. destruct (Hc Hn) as [Hr|(md & Hin & Hname)].
    + destruct m as [md|]; [|by left].
      cbn [Resolver.add_plugin Resolver.dependency_graph] in Hr.
      apply contains_set in Hr as [->|Hr]; [|by left].
      right. exists md. split; [apply list_elem_of_here|done].
    + right. exists md. split; [by apply list_elem_of_further|done].
Qed.

(** X21.  From a loader whose resolver is fresh, [load_all_plugins]
    loads candidates only: a directory that starts with an underscore,
    is not recorded as installed or is not on the configured list of
    enabled plugins keeps the instance it had, or none, even when a
    candidate names it as a dependency. *)
Theorem only_candidates_are_loaded (l : PluginLoader) (n : string) :
  dependency_resolver l = Resolver.init ->
  n ∉ candidates w ->
  plugins (snd (load_all_plugins w l)) !! n = plugins l !! n.
Proof.
  intros Hfresh Hn.
  apply (load_all_cases l (fun l' => plugins l' !! n = plugins l !! n)).
  - done.
  - done.
  - intros ms l1 r' _ Hscan _.
    pose proof (scan_spec (candidates w) l) as (Hp & _). rewrite Hscan in Hp.
    cbn [snd] in Hp. cbn. by rewrite Hp.
  - intros ms l1 r' load_order _ Hscan Hres.
    pose proof (scan_spec (candidates w) l) as (Hp & _ & _ & Hr & _ & _ & Hnames).
    rewrite Hscan in Hp, Hr, Hnames. cbn [fst snd] in Hp, Hr, Hnames.
    cbn [inject_roots plugins].
    rewrite load_in_order_frame; [by cbn; rewrite Hp|].
    intros Hin.
    cbn [build_graph set_resolver dependency_resolver] in Hres.
    rewrite Hr, Hfresh in Hres.
    pose proof (build_graph_contains ms Resolver.init n) as [Ho Hc]. cbn zeta in Ho, Hc.
    destruct (fold_left _ ms Resolver.init) as [g prior]. cbn in Ho, Hc. subst prior.
    destruct (resolve_dependencies_cases g [])
      as [(new & Hfst & _ & Hcov & _)|(node & Hfst & _)]; cbn zeta in Hfst;
      rewrite Hres in Hfst; cbn [fst] in Hfst; [|done].
    injection Hfst as ->. apply Hcov in Hin.
    destruct (Hc Hin) as [Hinit|(md & Hmd & <-)]; [done|].
    by apply Hn, Hnames.
Qed.

End LoaderAgain.


(** An instance of X20: [app] has a lock file and would load, but for
    its dependency [db]. *)
Lemma missing_dependency_blocks_load_witness :
  Loader.plugins (snd (Loader.load_all_plugins Scenes.world_with_dependency
                         Scenes.locked_loader)) !! "app"
  = Loader.plugins Scenes.locked_loader !! "app"
  /\ is_Some (fst (Loader.load_plugin Scenes.world_with_dependency
                     Scenes.locked_loader "app")).
Proof.
  split; [|by eexists].
  apply (missing_dependency_blocks_load Scenes.world_with_dependency
           Scenes.locked_loader "app" "db");
    [apply list_elem_of_here|reflexivity|reflexivity|apply list_elem_of_here|].
  vm_compute. reflexivity.
Defined.

(** An instance of X21: a directory the registry does not know. *)
Lemma only_candidates_are_loaded_witness :
  Loader.plugins (snd (Loader.load_all_plugins Sample.world Scenes.locked_loader))
    !! "ghost"
  = Loader.plugins Scenes.locked_loader !! "ghost".
Proof.
  apply (only_candidates_are_loaded Sample.world Scenes.locked_loader "ghost");
    [reflexivity|].
  intros H. repeat (apply elem_of_cons in H as [H|H]; [discriminate|]).
  by apply elem_of_nil in H.
Defined.

(** ** The built-in registry seen from the hook *)

Section BuiltinFacts.
Import Audit.

Lemma potential_perms_open :
  Engine.potential_perms Engine.default_engine "open"
  = [Engine.file_read_plugin; Engine.file_write_plugin].
Proof. reflexivity. Qed.

Lemma potential_perms_connect :
  Engine.potential_perms Engine.default_engine "socket.connect"
  = [Engine.network_https; Engine.network_http].
Proof. reflexivity. Qed.

Lemma py_any_in_str (needles : list string) (s : string) :
  exists b, py_any_in needles (PStr s) = Some b.
Proof.
  induction needles as [|c rest IH]; cbn [py_any_in py_in]; [by eexists|].
  destruct (Str.contains c s); [by eexists|exact IH].
Qed.

(** X22.  The two network capabilities of the built-in registry guard
    the ports 443 and 80 and nothing else: a [socket.connect] to an
    address with any other port maps to no capability and is let
    through for every plugin, whatever it holds. *)
Theorem connect_other_port_allowed (mgr : AuditHookManager) (proc : Process)
    (sock host : pyval) (port : Z) (rest : list pyval) :
  permission_engine mgr = Engine.default_engine ->
  port <> 443%Z -> port <> 80%Z ->
  Engine.map_event_to_permissions (permission_engine mgr) "socket.connect"
    [sock; PSeq (host :: PInt port :: rest)] = Some []
  /\ _audit_hook mgr proc "socket.connect" [sock; PSeq (host :: PInt port :: rest)]
     = (Allowed, mgr).
Proof.
  intros Heng H443 H80.
  assert (Engine.map_event_to_permissions (permission_engine mgr) "socket.connect"
            [sock; PSeq (host :: PInt port :: rest)] = Some []) as Hmap.
  { rewrite Heng. unfold Engine.map_event_to_permissions.
    rewrite potential_perms_connect.
    cbn [Engine.match_loop Engine.resource_matcher Engine.network_https
         Engine.network_http Engine.resource_to_match Engine.is_port
         String.eqb Ascii.eqb Bool.eqb andb length Nat.ltb Nat.leb nth].
    apply Z.eqb_neq in H443, H80. by rewrite H443, H80. }
  split; [done|]. unfold _audit_hook.
  destruct (current_plugin proc) as [plugin_name|]; [|done].
  destruct (String.eqb plugin_name ""); [done|].
  unfold fixed_rules. cbn [String.eqb Ascii.eqb Bool.eqb orb].
  by rewrite Hmap.
Qed.

(** An instance of X22: plugin [p], which holds no network capability,
    connects to port 22. *)
Lemma connect_other_port_allowed_witness :
  _audit_hook Sample.manager (Sample.as_plugin "p") "socket.connect"
    [PObj; PSeq [PStr "10.0.0.1"; PInt 22]]
  = (Allowed, Sample.manager).
Proof.
  apply (proj2 (connect_other_port_allowed Sample.manager (Sample.as_plugin "p")
                  PObj (PStr "10.0.0.1") 22 [] eq_refl ltac:(done) ltac:(done))).
Defined.

(** X23.  One matching capability is enough.  Under the built-in
    registry an [open] whose mode contains [r] asks for
    [file.read.plugin] first, so a plugin that holds it passes the
    capability check for every such mode, [r+] included, without holding
    [file.write.plugin]. *)
Theorem read_capability_covers_update (mgr : AuditHookManager) (proc : Process)
    (plugin_name : string) (path flags : pyval) (mode : string) :
  permission_engine mgr = Engine.default_engine ->
  current_plugin proc = Some plugin_name -> plugin_name <> "" ->
  Str.contains "r" mode = true ->
  "file.read.plugin" ∈ Ledger.granted (permission_manager mgr) plugin_name ->
  _is_lock_file_access mgr (getcwd proc) plugin_name path (PStr mode) flags = None ->
  _enforce_directory_jail mgr (getcwd proc) plugin_name (py_str path) = None ->
  _audit_hook mgr proc "open" [path; PStr mode; flags] = (Allowed, mgr).
Proof.
  intros Heng Hcur Hne Hmode Hheld Hfixed Hjail. unfold _audit_hook.
  rewrite Hcur. apply String.eqb_neq in Hne. rewrite Hne.
  unfold fixed_rules. cbn [String.eqb Ascii.eqb Bool.eqb]. rewrite Hfixed.
  assert (exists rs,
             Engine.map_event_to_permissions (permission_engine mgr) "open"
               [path; PStr mode; flags]
             = Some ((Engine.file_read_plugin, path) :: rs)) as [rs Hmap].
  { rewrite Heng. unfold Engine.map_event_to_permissions.
    rewrite potential_perms_open.
    cbn [Engine.match_loop Engine.resource_matcher Engine.file_read_plugin
         Engine.file_write_plugin Engine.resource_to_match Engine.resource_to_return
         py_in String.eqb Ascii.eqb Bool.eqb andb length Nat.ltb Nat.leb nth].
    rewrite Hmode.
    destruct (py_any_in_str ["w"; "a"; "+"] mode) as [b ->]. by eexists. }
  rewrite Hmap. cbn [String.eqb Ascii.eqb Bool.eqb]. rewrite Hjail.
  unfold capability_check. cbn [check_loop app Engine.name Engine.file_read_plugin].
  unfold Ledger.check_permission. unfold Ledger.granted in Hheld.
  destruct (Ledger.granted_permissions (permission_manager mgr) !! plugin_name)
    as [granted|]; [|by apply elem_of_empty in Hheld].
  cbn [default from_option id] in Hheld. by rewrite decide_True.
Qed.

(** An instance of X23: plugin [p], which holds [file.read.plugin]
    alone, opens a file of its directory for update. *)
Lemma read_capability_covers_update_witness :
  _audit_hook Sample.manager (Sample.as_plugin "p") "open"
    [PStr "/srv/app/plugins/p/notes.txt"; PStr "r+"; PInt 2]
  = (Allowed, Sample.manager).
Proof.
  apply (read_capability_covers_update Sample.manager (Sample.as_plugin "p") "p"
           (PStr "/srv/app/plugins/p/notes.txt") (PInt 2) "r+" eq_refl eq_refl
           ltac:(done) eq_refl);
    [|reflexivity|reflexivity].
  change ("file.read.plugin" ∈ ({[ "file.read.plugin" ]} : gset string)).
  by apply elem_of_singleton.
Defined.

End BuiltinFacts.

(** ** Dependency specifications *)

Section SpecFacts.
Import Loader.

Lemma lstrip_length (s : string) : String.length (lstrip s) <= String.length s.
Proof.
  induction s as [|c s IH]; cbn [lstrip]; [done|].
  destruct (is_space c); cbn [String.length]; lia.
Qed.

Lemma rstrip_length (s : string) : String.length (rstrip s) <= String.length s.
Proof.
  induction s as [|c s IH]; cbn [rstrip]; [done|].
  destruct (rstrip s) as [|d t]; cbn [String.length] in *.
  - destruct (is_space c); cbn [String.length]; lia.
  - lia.
Qed.

(** A string that [strip] leaves alone has no white space at either
    end. *)
Lemma strip_fixed (s : string) :
  strip s = s -> lstrip s = s /\ rstrip s = s.
Proof.
  unfold strip. intros H.
  assert (lstrip s = s) as Hl.
  { destruct s as [|c s]; [done|]. cbn [lstrip] in *.
    destruct (is_space c); [|done]. exfalso.
    pose proof (rstrip_length (lstrip s)). pose proof (lstrip_length s).
    rewrite H in *. cbn [String.length] in *. lia. }
  split; [done|]. by rewrite Hl in H.
Qed.

Lemma rstrip_cons (c : ascii) (s : string) :
  rstrip (String c s)
  = match rstrip s with
    | EmptyString => if is_space c then EmptyString else String c EmptyString
    | t => String c t
    end.
Proof. reflexivity. Qed.

Lemma rstrip_nonempty_app (a b : string) :
  rstrip b <> "" -> rstrip (a +:+ b) = a +:+ rstrip b.
Proof.
  intros Hb. induction a as [|c a IH]; [done|].
  change (String c a +:+ b) with (String c (a +:+ b)).
  rewrite rstrip_cons, IH.
  destruct (a +:+ rstrip b) as [|d t] eqn:Hab; [|by rewrite <- Hab].
  exfalso. destruct a; [done|discriminate].
Qed.

Lemma rstrip_at (s : string) : rstrip (String "@" s) = String "@" (rstrip s).
Proof. rewrite rstrip_cons. by destruct (rstrip s). Qed.

Lemma split_once_cons (sep d : ascii) (s : string) :
  Str.split_once sep (String d s)
  = if Ascii.eqb sep d then Some (EmptyString, s)
    else match Str.split_once sep s with
         | Some (a, b) => Some (String d a, b)
         | None => None
         end.
Proof. reflexivity. Qed.

Lemma has_char_cons (c d : ascii) (s : string) :
  Str.has_char c (String d s) = if Ascii.eqb c d then true else Str.has_char c s.
Proof. reflexivity. Qed.

Lemma split_once_at (n c : string) :
  Str.has_char "@"%char n = false ->
  Str.split_once "@"%char (n +:+ String "@" c) = Some (n, c).
Proof.
  induction n as [|d n IH]; [done|].
  change (String d n +:+ String "@" c) with (String d (n +:+ String "@" c)).
  rewrite split_once_cons, has_char_cons.
  destruct (Ascii.eqb "@"%char d); [done|]. intros H. by rewrite IH.
Qed.

Lemma split_once_none (s : string) :
  Str.has_char "@"%char s = false -> Str.split_once "@"%char s = None.
Proof.
  induction s as [|d s IH]; [done|].
  rewrite split_once_cons, has_char_cons.
  destruct (Ascii.eqb "@"%char d); [done|]. intros H. by rewrite IH.
Qed.

(** X24.  A dependency written [name@constraint] in ASCII is split at
    the first [@]: when neither part has white space at its ends (a
    blank, a character from tab to carriage return or one of the four
    separators 28 to 31) and the name has no [@],
    [_parse_dependency_spec] gives back exactly the name and the
    constraint, which may itself contain [@]; a specification without
    [@] is a name without constraint. *)
Theorem parse_dependency_spec_splits (n c : string) :
  Str.is_ascii n = true -> Str.is_ascii c = true ->
  strip n = n -> strip c = c -> Str.has_char "@"%char n = false ->
  _parse_dependency_spec (n +:+ "@" +:+ c) = (n, Some c)
  /\ (n <> "" -> _parse_dependency_spec n = (n, None)).
Proof.
  intros _ _ Hn Hc Hat.
  destruct (strip_fixed n Hn) as [Hln Hrn]. destruct (strip_fixed c Hc) as [Hlc Hrc].
  split.
  - assert (strip (n +:+ "@" +:+ c) = n +:+ "@" +:+ c) as Hspec.
    { unfold strip.
      assert (lstrip (n +:+ "@" +:+ c) = n +:+ "@" +:+ c) as ->.
      { destruct n as [|d n]; [done|].
        change (String d n +:+ "@" +:+ c) with (String d (n +:+ "@" +:+ c)).
        cbn [lstrip] in *.
        destruct (is_space d); [|done]. exfalso.
        pose proof (lstrip_length n) as Hlen. rewrite Hln in Hlen.
        cbn [String.length] in Hlen. lia. }
      change (n +:+ "@" +:+ c) with (n +:+ String "@" c).
      rewrite rstrip_nonempty_app; rewrite rstrip_at; [by rewrite Hrc|done]. }
    unfold _parse_dependency_spec. rewrite Hspec.
    change (n +:+ "@" +:+ c) with (n +:+ String "@" c).
    destruct (String.eqb_spec (n +:+ String "@" c) "") as [He|_].
    { destruct n; discriminate. }
    rewrite split_once_at by done. by rewrite Hn, Hc.
  - intros Hne. unfold _parse_dependency_spec. rewrite Hn.
    apply String.eqb_neq in Hne. rewrite Hne. by rewrite split_once_none.
Qed.

(** An instance of X24. *)
Lemma parse_dependency_spec_splits_witness :
  _parse_dependency_spec "db@>=1.0" = ("db", Some ">=1.0")
  /\ ("db" <> "" -> _parse_dependency_spec "db" = ("db", None)).
Proof.
  apply (parse_dependency_spec_splits "db" ">=1.0"); reflexivity.
Defined.

End SpecFacts.

(** ** Preset chains and route checks *)

Section PresetFacts.
Import Ctx Chain Handlers Presets.

Lemma split_once_app (sep : ascii) (n c : string) :
  Str.has_char sep n = false ->
  Str.split_once sep (n +:+ String sep c) = Some (n, c).
Proof.
  induction n as [|d n IH].
  - intros _. change ("" +:+ String sep c) with (String sep c).
    rewrite split_once_cons. by rewrite Ascii.eqb_refl.
  - change (String d n +:+ String sep c) with (String d (n +:+ String sep c)).
    rewrite split_once_cons, has_char_cons.
    destruct (Ascii.eqb sep d); [done|]. intros H. by rewrite IH.
Qed.

Lemma has_char_app (sep : ascii) (n c : string) :
  Str.has_char sep (n +:+ String sep c) = true.
Proof.
  induction n as [|d n IH].
  - change ("" +:+ String sep c) with (String sep c).
    rewrite has_char_cons. by rewrite Ascii.eqb_refl.
  - change (String d n +:+ String sep c) with (String d (n +:+ String sep c)).
    rewrite has_char_cons. by destruct (Ascii.eqb sep d).
Qed.

Lemma preset_of_registered (r : ChainRunner) (meta_name chain_name : string)
    (mp : Plugin) (m : meta_part) (d : chain_def) :
  plugins r !! meta_name = Some mp -> meta mp = Some m ->
  Str.has_char ":"%char meta_name = false ->
  Str.startswith (full_name meta_name chain_name) "http" = false ->
  chains m !! full_name meta_name chain_name = Some d ->
  preset_of r (full_name meta_name chain_name) = Some (default [] (def_plugins d)).
Proof.
  intros Hmp Hm Hcolon Hhttp Hd. unfold preset_of. rewrite Hhttp.
  unfold full_name in *.
  change (meta_name +:+ ":" +:+ chain_name)
    with (meta_name +:+ String ":" chain_name) in *.
  rewrite has_char_app. cbn [andb negb].
  rewrite split_once_app by done. rewrite Hmp.
  destruct mp as [h mt]. cbn [meta] in Hm. subst mt. by rewrite Hd.
Qed.

Lemma resolve_subplugin (r : ChainRunner) (meta_name s : string)
    (mp : Plugin) (m : meta_part) (h : handler) :
  plugins r !! meta_name = Some mp -> meta mp = Some m ->
  Str.has_char "."%char meta_name = false ->
  subplugins m !! s = Some h ->
  fst (_resolve_plugin r (meta_name +:+ "." +:+ s) None) = inl h.
Proof.
  intros Hmp Hm Hdot Hs. unfold _resolve_plugin.
  change (meta_name +:+ "." +:+ s) with (meta_name +:+ String "." s).
  rewrite has_char_app, split_once_app by done.
  by rewrite Hmp, Hm, Hs.
Qed.

(** X25.  From the configuration of a preset chain to the handler that
    runs.  For a meta-plugin registered under its own name, a name
    without [:] or [.] that does not make the reference start with
    [http], a reference to its preset chain expands to the configured
    references with the placeholder dropped and each sub-plugin
    qualified by the name of the meta-plugin, and every qualified name
    resolves to the handler of that sub-plugin. *)
Theorem preset_subplugins_resolve (r : ChainRunner) (meta_name chain_name : string)
    (mp : Plugin) (m : meta_part) (config_plugins : list string) :
  plugins r !! meta_name = Some mp -> meta mp = Some m ->
  Str.has_char ":"%char meta_name = false ->
  Str.has_char "."%char meta_name = false ->
  Str.startswith (full_name meta_name chain_name) "http" = false ->
  chains m !! full_name meta_name chain_name
    = Some (parse_chain meta_name (subplugins m) config_plugins) ->
  expanded r [full_name meta_name chain_name]
  = List.filter (fun item => negb (String.eqb item "__NEXT__"))
                (map (qualify meta_name (subplugins m)) config_plugins)
  /\ (forall s h, subplugins m !! s = Some h ->
                  fst (_resolve_plugin r (meta_name +:+ "." +:+ s) None) = inl h)
  /\ (forall s, s ∈ config_plugins -> s <> "{next}" ->
                is_Some (subplugins m !! s) ->
                (meta_name +:+ "." +:+ s) ∈ expanded r [full_name meta_name chain_name]).
Proof.
  intros Hmp Hm Hcolon Hdot Hhttp Hchain.
  assert (expanded r [full_name meta_name chain_name]
          = List.filter (fun item => negb (String.eqb item "__NEXT__"))
                        (map (qualify meta_name (subplugins m)) config_plugins))
    as Hexp.
  { unfold expanded. cbn [flat_map].
    rewrite (preset_of_registered r meta_name chain_name mp m _ Hmp Hm Hcolon Hhttp Hchain).
    cbn [parse_chain def_plugins default from_option id]. by rewrite app_nil_r. }
  split; [exact Hexp|]. split.
  - intros s h Hs. by eapply resolve_subplugin.
  - intros s Hin Hnext [h Hs]. rewrite Hexp.
    apply list_elem_of_In, filter_In. split.
    + apply in_map_iff. exists s. split; [|by apply list_elem_of_In].
      unfold qualify. apply String.eqb_neq in Hnext. by rewrite Hnext, Hs.
    + apply negb_true_iff, String.eqb_neq. intros Heq.
      assert (Str.has_char "."%char (meta_name +:+ String "." s) = true) as Hhas
        by apply has_char_app.
      change (meta_name +:+ "." +:+ s) with (meta_name +:+ String "." s) in Heq.
      by rewrite Heq in Hhas.
Qed.

Lemma resolve_after_resolution (r : ChainRunner) (route plugin_name : string) :
  fst (_resolve_plugin (snd (fst (get_chain_for_route r route None))) plugin_name None)
  = fst (_resolve_plugin r plugin_name None)
  /\ plugins (snd (fst (get_chain_for_route r route None))) = plugins r.
Proof.
  pose proof (get_chain_for_route_spec r route None) as [H _]. cbn zeta in H.
  rewrite H. cbn [fst snd]. by destruct (_chain_cache r !! route).
Qed.

Lemma unresolved_missing (r r' : ChainRunner) (plugin_chain : list string) :
  (forall n, fst (_resolve_plugin r' n None) = fst (_resolve_plugin r n None)) ->
  Validation.unresolved r' plugin_chain = [] <-> missing r plugin_chain = [].
Proof.
  intros Hsame. unfold Validation.unresolved, missing.
  induction plugin_chain as [|n rest IH]; cbn [flat_map]; [done|].
  rewrite Hsame. destruct (fst (_resolve_plugin r n None)) as [h|e]; [exact IH|].
  split; discriminate.
Qed.

(** X26.  [validate_chain] checks the chain that [get_chain_for_route]
    answers, and caches it as a request would.  Its verdict is [valid]
    exactly when that chain is not empty and every name of it resolves,
    which is when [run] gets past its own validation with the same
    chain; but it does not know the default chain, so a route without
    configuration is reported as not valid even where [run] would serve
    it with [auth_plugin]. *)
Theorem validate_chain_verdict (r r' : ChainRunner)
    (metadata_name : string -> option string) (route : string)
    (rep : Validation.report) :
  Validation.validate_chain r metadata_name route = (Some rep, r') ->
  Validation.report_chain rep = resolved_chain r route
  /\ r' = snd (fst (get_chain_for_route r route None))
  /\ (Validation.valid rep = true <->
      resolved_chain r route <> []
      /\ missing r (resolved_chain r route) = [])
  /\ (Validation.valid rep = true ->
      effective_chain r route = resolved_chain r route
      /\ missing r (effective_chain r route) = [])
  /\ (resolved_chain r route = [] ->
      Validation.valid rep = false
      /\ Validation.issues rep = [Validation.NoPluginChainConfigured]).
Proof.
  unfold Validation.validate_chain, effective_chain, resolved_chain.
  pose proof (fun n => proj1 (resolve_after_resolution r route n)) as Hsame.
  pose proof (proj2 (resolve_after_resolution r route "")) as Hplugins.
  destruct (get_chain_for_route r route None) as [[chain r0] c0]. cbn [fst snd] in *.
  pose proof (unresolved_missing r r0 chain Hsame) as Hiff.
  destruct chain as [|n chain].
  - intros [= <- <-]. cbn [Validation.report_chain Validation.valid Validation.issues].
    repeat split; try done. by intros [? _].
  - assert (forall b : bool,
               b = match Validation.unresolved r0 (n :: chain) with
                   | [] => true
                   | _ :: _ => false
                   end ->
               (b = true <-> n :: chain <> [] /\ missing r (n :: chain) = [])) as Hb.
    { intros b ->. rewrite <- Hiff.
      destruct (Validation.unresolved r0 (n :: chain)); split; try done.
      - by intros [_ ?]. }
    intros H.
    assert (Validation.report_chain rep = n :: chain /\ r' = r0
            /\ Validation.valid rep
               = match Validation.unresolved r0 (n :: chain) with
                 | [] => true
                 | _ :: _ => false
                 end) as (Hchain & Hr & Hvalid).
    { destruct (plugins r0 !! List.last (n :: chain) "");
        [destruct (metadata_name (List.last (n :: chain) "")) as [nm|];
         [destruct (Str.contains "provider" (Str.lower nm))|]|];
        by simplify_eq. }
    split; [done|]. split; [done|]. split; [by apply Hb|]. split.
    + intros Hv. split; [done|]. by apply (Hb _ Hvalid).
    + done.
Qed.

End PresetFacts.

(** An instance of X25: the preset [suite:secure]. *)
Lemma preset_subplugins_resolve_witness :
  Handlers.expanded Scenes.suite_runner [Presets.full_name "suite" "secure"]
  = ["suite.auth"; "provider"]
  /\ fst (Chain._resolve_plugin Scenes.suite_runner "suite.auth" None)
     = inl (Chain.handle Sample.auth).
Proof.
  destruct (preset_subplugins_resolve Scenes.suite_runner "suite" "secure"
              Scenes.suite_plugin Scenes.suite ["auth"; "{next}"; "provider"]
              eq_refl eq_refl eq_refl eq_refl eq_refl eq_refl) as (Hexp & Hres & _).
  split; [exact Hexp|]. exact (Hres "auth" (Chain.handle Sample.auth) eq_refl).
Defined.

(** An instance of X26 on the sample route. *)
Lemma validate_chain_verdict_witness :
  exists rep,
    Validation.validate_chain Sample.runner (fun n => Some n) "/chat"
    = (Some rep, Chain.set_cache Sample.runner "/chat" ["auth"; "provider"])
    /\ Validation.valid rep = true
    /\ Handlers.missing Sample.runner (Handlers.effective_chain Sample.runner "/chat") = [].
Proof.
  eexists. split; [reflexivity|]. split; [reflexivity|].
  refine (proj2 (proj1 (proj2 (proj2 (proj2
            (validate_chain_verdict Sample.runner _ (fun n => Some n) "/chat" _
               eq_refl)))) eq_refl)).
Defined.
